(** * Flight delay backend (newbackend.py): model and checked properties

    The development follows the layout of [newbackend.py]: configuration
    constants, the suggestion tables, the utility functions
    ([load_feature_names], [transform_data_for_inference], [risk_label],
    [detect_anomalies], [optimize_suggestions]) and the two endpoints
    ([predict_csv], [get_flight_info]) over the three module-level frames.

    Numbers are rationals: every finite float and every 64-bit integer is
    one, and the comparisons the code performs on them are exact.  A
    missing value (NaN) is [None] in a numeric column.  What numpy computes
    from numbers - the mean of the two middle values of a median, the sum
    of a row, floor division and remainder, the cast to 8 bits, the sine
    and cosine encodings - is rounded floating-point arithmetic: these
    operations are the fields of a record [primitives], together with the
    facts about them the statements rely on, each of which holds of
    IEEE 754 arithmetic as numpy performs it.  The cells of a numeric
    column are finite numbers and NaN; an infinite cell has no counterpart
    in the model.  Exceptions are values: a
    function that may raise returns a [result], and the endpoints thread
    the three module-level frames through a state and error monad. *)

From Stdlib Require Import List Bool Arith ZArith QArith Qabs Qround Lia Lqa.
From Stdlib Require Import Sorted Permutation.
From Stdlib Require Import Ascii String DecimalString.
Import ListNotations.

Open Scope string_scope.
Open Scope Q_scope.

(** ** Python comparisons on numbers *)

Definition Qltb (x y : Q) : bool := negb (Qle_bool y x).
Definition Qgtb (x y : Q) : bool := Qltb y x.

(** ** Configuration *)

Definition TARGET_COLUMNS : list string :=
  ["CARRIER_DELAY"; "SECURITY_DELAY"; "WEATHER_DELAY"].
Definition MODEL_FILENAME : string := "flight_delay_predictor.joblib".
Definition TAIL_NUMBER_COL : string := "TAIL_NUMBER".
Definition CATEGORICAL_COLS_FOR_XGB : list string :=
  ["ORIGIN_AIRPORT_CODE"; "DEST_AIRPORT_CODE"; "MARKETING_AIRLINE";
   "ORIGIN_STATE"; "DEST_STATE"; "DEPARTURE_BLOCK"; "ARRIVAL_BLOCK"].

(** ** Suggestions database *)

Definition carrier_suggestions : list string :=
  ["Check airline announcements for potential delays.";
   "Choose flights from carriers with high on-time performance.";
   "Arrive early to avoid long check-in queues.";
   "Avoid peak travel periods when airlines are heavily congested.";
   "Use airline mobile apps for real-time updates.";
   "Avoid tight layovers; keep at least 2 hours buffer.";
   "Check baggage rules to avoid extra processing delays.";
   "Complete online check-in early.";
   "If airline delay is confirmed, ask about rebooking options.";
   "Morning flights are generally more punctual—consider choosing them."].

Definition weather_suggestions : list string :=
  ["Check weather forecasts for departure and destination.";
   "Avoid flights during seasons with frequent storms or fog.";
   "Keep extra travel buffer time during unstable weather.";
   "Bring portable chargers for long waiting hours.";
   "Track real-time gate updates at the airport.";
   "Use flight tracking apps like FlightAware.";
   "Plan your transportation early to avoid weather-caused traffic delays.";
   "Prefer major hub airports during bad weather seasons.";
   "Choose morning flights for more stable weather conditions.";
   "Request free rebooking if extreme weather occurs."].

Definition security_suggestions : list string :=
  ["Arrive 2–3 hours early to account for security delay.";
   "Avoid carrying liquids or metal items unnecessarily.";
   "Use automated e-gates if available.";
   "Avoid peak periods such as 7–9am and 5–7pm.";
   "Prepare electronics and documents in advance.";
   "Check if your airport provides Fast Track security lanes.";
   "Avoid clothing with heavy metal accessories.";
   "Follow airport social media for real-time congestion updates.";
   "Travel with only carry-on bags to skip baggage queues.";
   "Book earlier flights during festive / peak seasons."].

Definition total_delay_advisory : string :=
  "High total predicted delay; consider alternative flights or adding buffer time.".

(** ** [risk_label] *)

Definition risk_label (value : Q) : string :=
  let av := Qabs value in
  if Qltb av 15 then "LOW"
  else if Qle_bool av 60 then "MEDIUM"
  else "HIGH".

(** ** [optimize_suggestions]

    A prediction row carries the three delay causes and their total, as the
    rows of [predictions_df] do. *)

Record pred_row := mk_pred_row {
  CARRIER_DELAY : Q;
  SECURITY_DELAY : Q;
  WEATHER_DELAY : Q;
  Total_Predicted_Delay : Q
}.

(** [suggestions.extend(xs)] and [suggestions.append(x)] on the list built
    so far; [tips[0]] of a non-empty table. *)
Definition extend (suggestions xs : list string) : list string :=
  suggestions ++ xs.
Definition append (suggestions : list string) (x : string) : list string :=
  suggestions ++ [x].
Definition item0 (tips : list string) : string := nth 0 tips "".

Definition optimize_suggestions (row : pred_row) : list string :=
  let suggestions := [] in
  let suggestions :=
    if Qgtb (CARRIER_DELAY row) 15 then
      extend suggestions (firstn 5 carrier_suggestions)
    else if Qgtb (CARRIER_DELAY row) 5 then
      append suggestions (item0 carrier_suggestions)
    else suggestions in
  let suggestions :=
    if Qgtb (WEATHER_DELAY row) 10 then
      extend suggestions (firstn 5 weather_suggestions)
    else if Qgtb (WEATHER_DELAY row) 5 then
      append suggestions (item0 weather_suggestions)
    else suggestions in
  let suggestions :=
    if Qgtb (SECURITY_DELAY row) 5 then
      extend suggestions (firstn 5 security_suggestions)
    else if Qgtb (SECURITY_DELAY row) 2 then
      append suggestions (item0 security_suggestions)
    else suggestions in
  let suggestions :=
    if Qgtb (Total_Predicted_Delay row) 20 then
      append suggestions total_delay_advisory
    else suggestions in
  suggestions.

(** Membership of a string in one of the tip tables, used to read off what
    each cause contributed to a suggestion list. *)
Definition mem (s : string) (l : list string) : bool :=
  existsb (String.eqb s) l.
Definition contribution (tips out : list string) : list string :=
  filter (fun s => mem s tips) out.


(** Two rows that hold the same numbers. *)
Definition same_row (r r' : pred_row) : Prop :=
  CARRIER_DELAY r == CARRIER_DELAY r' /\
  SECURITY_DELAY r == SECURITY_DELAY r' /\
  WEATHER_DELAY r == WEATHER_DELAY r' /\
  Total_Predicted_Delay r == Total_Predicted_Delay r'.

(** ** Exceptions

    An exception has a class and the text [str(e)] gives.  The handler of
    [predict_csv] is [except Exception], which catches every class below
    except the two that derive from [BaseException] only. *)

Inductive exn_class :=
| FileNotFoundError | KeyError | IndexError | TypeError | ValueError
| OtherException (name : string)
| KeyboardInterrupt | SystemExit.

Record exn := mk_exn { exn_cls : exn_class; exn_str : string }.

Definition isinstance_Exception (e : exn) : bool :=
  match exn_cls e with
  | KeyboardInterrupt | SystemExit => false
  | _ => true
  end.

Inductive result (A : Type) :=
| Ok (a : A)
| Raise (e : exn).
Arguments Ok {A} a.
Arguments Raise {A} e.

Definition rbind {A B} (r : result A) (k : A -> result B) : result B :=
  match r with
  | Ok a => k a
  | Raise e => Raise e
  end.

Notation "x <- r ;; k" := (rbind r (fun x => k))
  (at level 61, r at next level, right associativity).

(** [str(KeyError(key))] is the repr of the key. *)
Definition key_error (key : string) : exn :=
  mk_exn KeyError ("'" ++ key ++ "'").

(** ** Frames

    A column is numeric (int64, float64, int8 or float32: a list of numbers
    with [None] for NaN), object (text cells, [None] for NaN) or categorical
    (the column it was converted from).  A frame has an index of [nrows]
    positions and its columns in order.

    [pd.read_csv] gives numeric and object columns under distinct labels.
    After the renaming a label can be carried by two columns, a synonym and
    its canonical name: [select] gives every column under a label, [get_col]
    the first of them, and [unique_labels] says that there is no such
    pair. *)

Inductive column :=
| NumCol (xs : list (option Q))
| ObjCol (xs : list (option string))
| CatCol (c : column).

Record frame := mk_frame {
  nrows : nat;
  cols : list (string * column)
}.

Definition names (df : frame) : list string := map fst (cols df).

Definition unique_labels (df : frame) : Prop := NoDup (names df).

(** [name in df.columns] *)
Definition has_col (name : string) (df : frame) : bool :=
  existsb (String.eqb name) (names df).

(** [df[name]]: every column carrying the label (one, for unique labels). *)
Definition select (name : string) (df : frame) : list column :=
  map snd (filter (fun nc => String.eqb name (fst nc)) (cols df)).

Definition get_col (name : string) (df : frame) : option column :=
  hd_error (select name df).

(** [df[name] = c]: replaces the column in place when the label exists,
    appends it otherwise. *)
Fixpoint assign (name : string) (c : column) (l : list (string * column))
  : list (string * column) :=
  match l with
  | [] => [(name, c)]
  | (n, c') :: l' =>
      if String.eqb name n then (n, c) :: l' else (n, c') :: assign name c l'
  end.

Definition set_col (name : string) (c : column) (df : frame) : frame :=
  mk_frame (nrows df) (assign name c (cols df)).

(** A column of one constant number over the index. *)
Definition const_col (n : nat) (q : Q) : column := NumCol (repeat (Some q) n).

(** ** [transform_data_for_inference]: renaming *)

Definition column_mapping : list (string * string) :=
  [("MKT_UNIQUE_CARRIER", "MARKETING_AIRLINE");
   ("OP_UNIQUE_CARRIER", "OPERATING_AIRLINE");
   ("ORIGIN", "ORIGIN_AIRPORT_CODE"); ("ORIGIN_STATE_ABR", "ORIGIN_STATE");
   ("DEST", "DEST_AIRPORT_CODE"); ("DEST_STATE_ABR", "DEST_STATE");
   ("DEP_TIME_BLK", "DEPARTURE_BLOCK"); ("ARR_TIME_BLK", "ARRIVAL_BLOCK")].

Fixpoint lookup (k : string) (m : list (string * string)) : option string :=
  match m with
  | [] => None
  | (k', v) :: m' => if String.eqb k k' then Some v else lookup k m'
  end.

Definition rename_label (mapping : list (string * string)) (n : string)
  : string :=
  match lookup n mapping with
  | Some n' => n'
  | None => n
  end.

(** [df.rename(columns=mapping)] *)
Definition rename (mapping : list (string * string)) (df : frame) : frame :=
  mk_frame (nrows df)
           (map (fun nc => (rename_label mapping (fst nc), snd nc)) (cols df)).

(** ** Floating-point arithmetic

    [Qtrunc] is truncation toward zero, what a C cast of a float to an
    integer does; [wrap_int8] is reduction to the signed 8-bit range, what
    the cast of a 64-bit integer does. *)

Definition Qtrunc (q : Q) : Z := if Qle_bool 0 q then Qfloor q else Qceiling q.
Definition wrap_int8 (z : Z) : Z := ((z + 128) mod 256 - 128)%Z.

(** [2*np.pi] as Python computes it: the double nearest to 2 pi. *)
Definition two_pi : Q := 884279719003555 # 140737488355328.

(** The magnitude up to which every whole number is a double. *)
Definition exact_bound : Q := 9007199254740992.

(** The operations of numpy the code uses, at one entry of a column:
    - [mean2 a b]: the mean of the two middle values a median takes;
    - [sum3 a b c]: the sum of the three numbers of a row ([sum(axis=1)]);
    - [floor_divide t d], [remainder t d]: [t // d] and [t % d];
    - [int8 q]: [astype(np.int8)] of one number;
    - [multiply], [divide], [sin], [cos], [float32]: the steps of
      [np.sin(2*np.pi*x/d).astype(np.float32)];
    - [level_str q]: the text pandas gives the numeric level [q] in the
      label of a dummy column.
    The facts that follow them hold for doubles and for 64-bit integers
    alike, since a numeric column read from a CSV file is either: a
    rounding is monotone and leaves a representable result as it is; the
    remainder of a float is exact when the float is not negative and is
    at most the divisor otherwise; a cast to 8 bits truncates what fits
    and gives some 8-bit integer for what does not. *)
Record primitives := mk_primitives {
  mean2 : Q -> Q -> Q;
  sum3 : Q -> Q -> Q -> Q;
  floor_divide : Q -> Z -> Q;
  remainder : Q -> Z -> Q;
  int8 : Q -> Z;
  multiply : Q -> Q -> Q;
  divide : Q -> Z -> Q;
  sin : Q -> Q;
  cos : Q -> Q;
  float32 : Q -> Q;
  level_str : Q -> string;

  mean2_compat :
    forall a a' b b', a == a' -> b == b' -> mean2 a b == mean2 a' b';
  mean2_between :
    forall a b,
      a <= b -> Qabs a <= exact_bound -> Qabs b <= exact_bound ->
      a <= mean2 a b /\ mean2 a b <= b;

  sum3_mono :
    forall a b c a' b' c',
      a <= a' -> b <= b' -> c <= c' -> sum3 a b c <= sum3 a' b' c';
  sum3_whole :
    forall x y z : Z,
      (Z.abs x <= 1000000)%Z -> (Z.abs y <= 1000000)%Z ->
      (Z.abs z <= 1000000)%Z ->
      sum3 (inject_Z x) (inject_Z y) (inject_Z z) == inject_Z (x + y + z);

  floor_divide_exact :
    forall t,
      Qabs t <= exact_bound ->
      floor_divide t 100 == inject_Z (Qfloor (t / 100));
  remainder_range :
    forall t, 0 <= remainder t 100 /\ remainder t 100 <= 100;
  remainder_exact :
    forall t,
      0 <= t -> remainder t 100 == t - 100 * inject_Z (Qfloor (t / 100));
  remainder_whole :
    forall t z, t == inject_Z z -> remainder t 100 == inject_Z (z mod 100);

  int8_range : forall q, (-128 <= int8 q <= 127)%Z;
  int8_exact : forall q, -129 < q -> q < 128 -> int8 q = Qtrunc q;

  multiply_zero : forall x y, y == 0 -> multiply x y == 0;
  divide_zero : forall x d, x == 0 -> d <> 0%Z -> divide x d == 0;
  sin_zero : forall x, x == 0 -> sin x == 0;
  cos_zero : forall x, x == 0 -> cos x == 1;
  sin_range : forall x, -1 <= sin x /\ sin x <= 1;
  cos_range : forall x, -1 <= cos x /\ cos x <= 1;
  float32_mono : forall x y, x <= y -> float32 x <= float32 y;
  float32_whole :
    forall x z,
      x == inject_Z z -> (Z.abs z <= 1000000)%Z -> float32 x == inject_Z z
}.

Section Backend.

Variable np : primitives.

(** ** Median imputation *)

Fixpoint insert_sorted (x : Q) (l : list Q) : list Q :=
  match l with
  | [] => [x]
  | y :: l' => if Qle_bool x y then x :: l else y :: insert_sorted x l'
  end.

Definition sort_values (l : list Q) : list Q :=
  fold_right insert_sorted [] l.

(** The present (non-NaN) values of a series. *)
Fixpoint present {A} (xs : list (option A)) : list A :=
  match xs with
  | [] => []
  | Some a :: xs' => a :: present xs'
  | None :: xs' => present xs'
  end.

(** [Series.median()]: NaN is skipped; the middle value of the sorted
    present values, the mean of the two middle ones for an even count, NaN
    when nothing is present. *)
Definition median (xs : list (option Q)) : option Q :=
  let s := sort_values (present xs) in
  let n := List.length s in
  match n with
  | O => None
  | _ =>
      if Nat.even n
      then Some (mean2 np (nth (n / 2 - 1) s 0) (nth (n / 2) s 0))
      else Some (nth (n / 2) s 0)
  end.

(** [Series.fillna(value)]; filling with NaN changes nothing. *)
Definition fillna (value : option Q) (xs : list (option Q))
  : list (option Q) :=
  map (fun x => match x with Some q => Some q | None => value end) xs.

Definition is_number (c : column) : bool :=
  match c with
  | NumCol _ => true
  | _ => false
  end.

(** [df.select_dtypes(include=[np.number]).columns] *)
Definition select_dtypes_number (df : frame) : list string :=
  map fst (filter (fun nc => is_number (snd nc)) (cols df)).

(** The loop
    [for col in ...: df_new[col] = df_new[col].fillna(df_new[col].median())]. *)
Definition fill_column (df : frame) (col : string) : frame :=
  match get_col col df with
  | Some (NumCol xs) => set_col col (NumCol (fillna (median xs) xs)) df
  | _ => df
  end.

Definition fill_missing_numeric (df : frame) : frame :=
  fold_left fill_column (select_dtypes_number df) df.

(** ** Time features

    Python's [//] and [%] on a column and [astype(np.int8)], at one
    entry. *)
Definition floordiv (q : Q) (d : Z) : Q := floor_divide np q d.
Definition pymod (q : Q) (d : Z) : Q := remainder np q d.
Definition to_int8 (q : Q) : Q := inject_Z (int8 np q).

Definition is_some {A} (x : option A) : bool :=
  match x with Some _ => true | None => false end.
Definition is_none {A} (x : option A) : bool := negb (is_some x).

(** [df[name]] where the label must exist. *)
Definition getitem (name : string) (df : frame) : result column :=
  match get_col name df with
  | Some c => Ok c
  | None => Raise (key_error name)
  end.

(** [column // d] and [column % d]: arithmetic on numbers; on an object
    column Python's operator is applied to each cell and fails on text. *)
Definition floordiv_col (c : column) (d : Z) : result (list (option Q)) :=
  match c with
  | NumCol xs => Ok (map (option_map (fun q => floordiv q d)) xs)
  | ObjCol xs =>
      if existsb is_some xs
      then Raise (mk_exn TypeError
                    "unsupported operand type(s) for //: 'str' and 'int'")
      else Ok (map (fun _ => None) xs)
  | CatCol _ =>
      Raise (mk_exn TypeError
               "unsupported operand type(s) for //: 'Categorical' and 'int'")
  end.

Definition mod_col (c : column) (d : Z) : result (list (option Q)) :=
  match c with
  | NumCol xs => Ok (map (option_map (fun q => pymod q d)) xs)
  | ObjCol xs =>
      if existsb is_some xs
      then Raise (mk_exn TypeError
                    "not all arguments converted during string formatting")
      else Ok (map (fun _ => None) xs)
  | CatCol _ =>
      Raise (mk_exn TypeError
               "unsupported operand type(s) for %: 'Categorical' and 'int'")
  end.

(** [.astype(np.int8)]: refuses NaN. *)
Definition astype_int8 (xs : list (option Q)) : result column :=
  if existsb is_none xs
  then Raise (mk_exn ValueError
                "Cannot convert non-finite values (NA or inf) to integer")
  else Ok (NumCol (map (option_map to_int8) xs)).

(** The operand of [np.sin(2*np.pi*column/div)]: a numeric column gives its
    numbers; text cannot be multiplied by a float, and [np.sin] has no loop
    for the cells of a non-empty object column. *)
Definition angle_operand (c : column) : result (list (option Q)) :=
  match c with
  | NumCol xs => Ok xs
  | ObjCol xs =>
      if existsb is_some xs
      then Raise (mk_exn TypeError
                    "can't multiply sequence by non-int of type 'float'")
      else match xs with
           | [] => Ok []
           | _ => Raise (mk_exn TypeError
                    "loop of ufunc does not support argument 0 of type float which has no callable sin method")
           end
  | CatCol _ =>
      Raise (mk_exn TypeError
               "unsupported operand type(s) for *: 'float' and 'Categorical'")
  end.

(** [np.sin(2*np.pi*c/div).astype(np.float32)] and the cosine: the angle
    is the product of [2*np.pi] and the entry, divided by the period. *)
Definition angle (x : Q) (div : Z) : Q :=
  divide np (multiply np two_pi x) div.

Definition sine (x : Q) (div : Z) : Q := float32 np (sin np (angle x div)).
Definition cosine (x : Q) (div : Z) : Q := float32 np (cos np (angle x div)).

Definition sin_encode (c : column) (div : Z) : result column :=
  xs <- angle_operand c ;;
  Ok (NumCol (map (option_map (fun q => sine q div)) xs)).

Definition cos_encode (c : column) (div : Z) : result column :=
  xs <- angle_operand c ;;
  Ok (NumCol (map (option_map (fun q => cosine q div)) xs)).

Definition dep_time_features (df_new : frame) : result frame :=
  if has_col "CRS_DEP_TIME" df_new then
    t <- getitem "CRS_DEP_TIME" df_new ;;
    q <- floordiv_col t 100 ;;
    h <- astype_int8 q ;;
    let df_new := set_col "DEP_HOUR" h df_new in
    t <- getitem "CRS_DEP_TIME" df_new ;;
    r <- mod_col t 100 ;;
    m <- astype_int8 r ;;
    let df_new := set_col "DEP_MINUTE" m df_new in
    h <- getitem "DEP_HOUR" df_new ;;
    c <- sin_encode h 24 ;;
    let df_new := set_col "DEP_HOUR_SIN" c df_new in
    h <- getitem "DEP_HOUR" df_new ;;
    c <- cos_encode h 24 ;;
    let df_new := set_col "DEP_HOUR_COS" c df_new in
    m <- getitem "DEP_MINUTE" df_new ;;
    c <- sin_encode m 60 ;;
    let df_new := set_col "DEP_MIN_SIN" c df_new in
    m <- getitem "DEP_MINUTE" df_new ;;
    c <- cos_encode m 60 ;;
    Ok (set_col "DEP_MIN_COS" c df_new)
  else Ok df_new.

(** One round of the loop [for col in ['MONTH','DAY_OF_WEEK']]. *)
Definition calendar_feature (df_new : frame) (col : string) : result frame :=
  if has_col col df_new then
    let div := if String.eqb col "MONTH" then 12%Z else 7%Z in
    x <- getitem col df_new ;;
    c <- sin_encode x div ;;
    let df_new := set_col (col ++ "_SIN") c df_new in
    x <- getitem col df_new ;;
    c <- cos_encode x div ;;
    Ok (set_col (col ++ "_COS") c df_new)
  else Ok df_new.

Definition time_features (df_new : frame) : result frame :=
  df_new <- dep_time_features df_new ;;
  df_new <- calendar_feature df_new "MONTH" ;;
  calendar_feature df_new "DAY_OF_WEEK".

(** ** Categorical columns *)

Definition astype_category (c : column) : column :=
  match c with
  | CatCol _ => c
  | _ => CatCol c
  end.

(** One round of [for col in CATEGORICAL_COLS_FOR_XGB]: convert the column
    when it is there, insert an all-NaN categorical column otherwise. *)
Definition categorical_column (df_new : frame) (col : string) : frame :=
  match get_col col df_new with
  | Some c => set_col col (astype_category c) df_new
  | None => set_col col (CatCol (NumCol (repeat None (nrows df_new)))) df_new
  end.

Definition convert_categorical (df_new : frame) : frame :=
  fold_left categorical_column CATEGORICAL_COLS_FOR_XGB df_new.

(** ** One-hot expansion of [OPERATING_AIRLINE]

    [pd.get_dummies(df, columns=[col], prefix=prefix, dtype='int8')] drops
    the column and appends one indicator column per distinct present value,
    in sorted order, labelled [prefix_value]. *)

Fixpoint insert_level_str (x : string) (l : list string) : list string :=
  match l with
  | [] => [x]
  | y :: l' =>
      if String.eqb x y then l
      else if String.ltb x y then x :: l
      else y :: insert_level_str x l'
  end.

Fixpoint insert_level_num (x : Q) (l : list Q) : list Q :=
  match l with
  | [] => [x]
  | y :: l' =>
      if Qeq_bool x y then l
      else if Qltb x y then x :: l
      else y :: insert_level_num x l'
  end.

Definition indicator_str (v : string) (xs : list (option string)) : column :=
  NumCol (map (fun x => match x with
                        | Some s => Some (if String.eqb s v then 1 else 0)
                        | None => Some 0
                        end) xs).

Definition indicator_num (v : Q) (xs : list (option Q)) : column :=
  NumCol (map (fun x => match x with
                        | Some q => Some (if Qeq_bool q v then 1 else 0)
                        | None => Some 0
                        end) xs).

Fixpoint dummies (prefix : string) (c : column) : list (string * column) :=
  match c with
  | ObjCol xs =>
      map (fun v => (prefix ++ "_" ++ v, indicator_str v xs))
          (fold_right insert_level_str [] (present xs))
  | NumCol xs =>
      map (fun v => (prefix ++ "_" ++ level_str np v, indicator_num v xs))
          (fold_right insert_level_num [] (present xs))
  | CatCol c' => dummies prefix c'
  end.

Definition get_dummies (df : frame) (col prefix : string) : frame :=
  match get_col col df with
  | Some c =>
      mk_frame (nrows df)
               (filter (fun nc => negb (String.eqb col (fst nc))) (cols df)
                ++ dummies prefix c)
  | None => df
  end.

Definition one_hot_operating_airline (df_new : frame) : frame :=
  if has_col "OPERATING_AIRLINE" df_new
  then get_dummies df_new "OPERATING_AIRLINE" "AIRLINE"
  else df_new.

(** ** Alignment with the trained feature names

    [final_df[feature] = df_new[feature] if feature in df_new.columns else 0].
    When the label occurs more than once in [df_new] (a dummy label that
    meets an existing one) [df_new[feature]] is a frame, and assigning a
    frame of several columns to one label is refused. *)

Definition align_feature (df_new : frame) (final_df : frame)
  (feature : string) : result frame :=
  if has_col feature df_new then
    match select feature df_new with
    | [c] => Ok (set_col feature c final_df)
    | _ => Raise (mk_exn ValueError
             ("Cannot set a DataFrame with multiple columns to the single column "
              ++ feature))
    end
  else Ok (set_col feature (const_col (nrows df_new) 0) final_df).

Fixpoint align_loop (df_new final_df : frame) (features : list string)
  : result frame :=
  match features with
  | [] => Ok final_df
  | feature :: rest =>
      final_df <- align_feature df_new final_df feature ;;
      align_loop df_new final_df rest
  end.

Definition align (df_new : frame) (trained_feature_names : list string)
  : result frame :=
  let final_df := mk_frame (nrows df_new) [] in
  align_loop df_new final_df trained_feature_names.

(** ** [transform_data_for_inference] *)

Definition transform_data_for_inference (df_new : frame)
  (trained_feature_names : list string) : result frame :=
  (* Rename columns *)
  let df_new := rename column_mapping df_new in
  (* Fill missing numeric values *)
  let df_new := fill_missing_numeric df_new in
  (* Feature engineering for time *)
  df_new <- dep_time_features df_new ;;
  df_new <- calendar_feature df_new "MONTH" ;;
  df_new <- calendar_feature df_new "DAY_OF_WEEK" ;;
  (* Convert categorical columns *)
  let df_new := convert_categorical df_new in
  (* One-hot encode OPERATING_AIRLINE if exists *)
  let df_new := one_hot_operating_airline df_new in
  (* Align with trained feature names *)
  align df_new trained_feature_names.

(** The frame on which the alignment runs: the renamed, imputed,
    time-engineered, categorical-converted and one-hot-expanded input. *)
Definition engineer (df_new : frame) : result frame :=
  let df_new := rename column_mapping df_new in
  let df_new := fill_missing_numeric df_new in
  df_new <- time_features df_new ;;
  let df_new := convert_categorical df_new in
  Ok (one_hot_operating_airline df_new).

(** ** [load_feature_names]

    The file system holds the stripped lines of [feature_names.txt], or
    nothing when the file does not exist. *)

Definition load_feature_names (filename : string)
  (file : option (list string)) : result (list string) :=
  match file with
  | None =>
      Raise (mk_exn FileNotFoundError
               ("Feature names file '" ++ filename ++ "' not found."))
  | Some lines => Ok lines
  end.

(** ** Prediction and anomaly frames

    A cell read out of a frame is a number, a text or NaN.  [predictions_df]
    is the empty frame [pd.DataFrame()] or holds the three target columns and
    their total, with the [TAIL_NUMBER] column in front when the upload had
    one; [anomalies_df] holds the three risk labels, with the same optional
    column. *)

Inductive cell :=
| CNum (q : Q)
| CStr (s : string)
| CNaN.

Fixpoint cells (c : column) : list cell :=
  match c with
  | NumCol xs => map (fun x => match x with Some q => CNum q | None => CNaN end) xs
  | ObjCol xs => map (fun x => match x with Some s => CStr s | None => CNaN end) xs
  | CatCol c' => cells c'
  end.

(** Elementwise [==]: NaN equals nothing, a text never equals a number. *)
Definition cell_eqb (a b : cell) : bool :=
  match a, b with
  | CNum p, CNum q => Qeq_bool p q
  | CStr s, CStr t => String.eqb s t
  | _, _ => false
  end.

Record pred_frame := mk_pred_frame {
  pred_tails : option (list cell);
  pred_rows : list pred_row
}.

Record risk_row := mk_risk_row {
  CARRIER_DELAY_RISK : string;
  SECURITY_DELAY_RISK : string;
  WEATHER_DELAY_RISK : string
}.

Record anom_frame := mk_anom_frame {
  anom_tails : option (list cell);
  anom_rows : list risk_row
}.

Definition empty_pred_frame : pred_frame := mk_pred_frame None [].
Definition empty_anom_frame : anom_frame := mk_anom_frame None [].

(** [df.empty] *)
Definition pred_empty (df : pred_frame) : bool :=
  match pred_rows df with
  | [] => true
  | _ => false
  end.

(** [pd.DataFrame(y_pred, columns=TARGET_COLUMNS)] followed by
    [df['Total_Predicted_Delay'] = df.sum(axis=1)]; a row of [y_pred] is
    (carrier, security, weather), the order of [TARGET_COLUMNS]. *)
Definition with_total (y : Q * Q * Q) : pred_row :=
  let '(c, s, w) := y in mk_pred_row c s w (sum3 np c s w).

(** [predictions_df.insert(0, TAIL_NUMBER_COL, series)]: the series is
    aligned on the index of the frame, positions it lacks become NaN. *)
Definition insert_tails (series : list cell) (df : pred_frame) : pred_frame :=
  mk_pred_frame
    (Some (map (fun i => nth i series CNaN) (seq 0 (List.length (pred_rows df)))))
    (pred_rows df).

(** [pred_df[col].apply(risk_label)] for the three target columns, read
    row by row. *)
Definition risks_of (r : pred_row) : risk_row :=
  mk_risk_row (risk_label (CARRIER_DELAY r))
              (risk_label (SECURITY_DELAY r))
              (risk_label (WEATHER_DELAY r)).

Definition detect_anomalies (pred_df : pred_frame) : anom_frame :=
  mk_anom_frame (pred_tails pred_df) (map risks_of (pred_rows pred_df)).

(** ** Response objects *)

Record anomalies_record := mk_anomalies_record {
  an_TAIL_NUMBER : cell;
  an_risks : risk_row
}.

Record flight_info := mk_flight_info {
  fi_TAIL_NUMBER : cell;
  fi_CARRIER_DELAY : Q;
  fi_WEATHER_DELAY : Q;
  fi_SECURITY_DELAY : Q;
  fi_Total_Predicted_Delay : Q;
  fi_Anomalies : anomalies_record;
  fi_Optimization_Suggestions : list string
}.

Inductive upload_response :=
| UploadSuccess (predictions : list flight_info)
| UploadError (message : string).

Inductive lookup_response :=
| LookupMessage (error : string)
| LookupInfo (info : flight_info).

(** The rows of [anomalies_df] whose [TAIL_NUMBER] equals [tail], as
    records: [anomalies_df[anomalies_df[TAIL_NUMBER_COL]==tail]]. *)
Fixpoint matching_rows {A} (tail : cell) (tails : list cell) (rows : list A)
  : list (cell * A) :=
  match tails, rows with
  | t :: tails', r :: rows' =>
      if cell_eqb t tail then (t, r) :: matching_rows tail tails' rows'
      else matching_rows tail tails' rows'
  | _, _ => []
  end.

Definition anomalies_where (df : anom_frame) (tail : cell)
  : result (list anomalies_record) :=
  match anom_tails df with
  | None => Raise (key_error TAIL_NUMBER_COL)
  | Some tails =>
      Ok (map (fun tr => mk_anomalies_record (fst tr) (snd tr))
              (matching_rows tail tails (anom_rows df)))
  end.

(** ** Global storage and the world around a request

    The three module-level frames; the feature-names file and the outcome
    of [joblib.load(MODEL_FILENAME)], whose [predict] gives one row of three
    numbers per row of the matrix or raises. *)

Record state := mk_state {
  uploaded_df : frame;
  predictions_df : pred_frame;
  anomalies_df : anom_frame
}.

Definition initial_state : state :=
  mk_state (mk_frame 0 []) empty_pred_frame empty_anom_frame.

Definition model := frame -> result (list (Q * Q * Q)).

Record world := mk_world {
  feature_names_txt : option (list string);
  joblib_load : result model
}.

(** Statements that read and assign the globals and may raise. *)
Definition M (A : Type) : Type := state -> result A * state.

Definition ret {A} (a : A) : M A := fun st => (Ok a, st).
Definition bind {A B} (m : M A) (k : A -> M B) : M B :=
  fun st => match m st with
            | (Ok a, st') => k a st'
            | (Raise e, st') => (Raise e, st')
            end.
Definition lift {A} (r : result A) : M A := fun st => (r, st).
Definition get : M state := fun st => (Ok st, st).
Definition assign_uploaded_df (df : frame) : M unit :=
  fun st => (Ok tt, mk_state df (predictions_df st) (anomalies_df st)).
Definition assign_predictions_df (df : pred_frame) : M unit :=
  fun st => (Ok tt, mk_state (uploaded_df st) df (anomalies_df st)).
Definition assign_anomalies_df (df : anom_frame) : M unit :=
  fun st => (Ok tt, mk_state (uploaded_df st) (predictions_df st) df).

Notation "x <~ m ;; k" := (bind m (fun x => k))
  (at level 61, m at next level, right associativity).
Notation "m ;;; k" := (bind m (fun _ => k))
  (at level 61, right associativity).

(** [l[0]] of a Python list. *)
Definition first_item {A} (l : list A) : result A :=
  match l with
  | a :: _ => Ok a
  | [] => Raise (mk_exn IndexError "list index out of range")
  end.

(** [.iloc[0]] *)
Definition iloc0 {A} (l : list A) : result A :=
  match l with
  | a :: _ => Ok a
  | [] => Raise (mk_exn IndexError
                   "single positional indexer is out-of-bounds")
  end.

Definition str_nat (i : nat) : string :=
  NilEmpty.string_of_uint (Nat.to_uint i).

(** The body of the loop [for i, row in predictions_df.iterrows()]. *)
Definition row_result (pred_df : pred_frame) (anom_df : anom_frame)
  (i : nat) (row : pred_row) : result flight_info :=
  let tail := match pred_tails pred_df with
              | Some tails => nth i tails CNaN
              | None => CStr ("Flight_" ++ str_nat i)
              end in
  records <- anomalies_where anom_df tail ;;
  anomalies <- first_item records ;;
  Ok (mk_flight_info tail
        (CARRIER_DELAY row) (WEATHER_DELAY row) (SECURITY_DELAY row)
        (Total_Predicted_Delay row)
        anomalies
        (optimize_suggestions row)).

Fixpoint row_results (pred_df : pred_frame) (anom_df : anom_frame)
  (i : nat) (rows : list pred_row) : result (list flight_info) :=
  match rows with
  | [] => Ok []
  | row :: rows' =>
      r <- row_result pred_df anom_df i row ;;
      rs <- row_results pred_df anom_df (S i) rows' ;;
      Ok (r :: rs)
  end.

(** ** [predict_csv]

    [file] is what [pd.read_csv(file.file)] gives for the uploaded file. *)

Definition predict_csv_try (w : world) (file : result frame)
  : M upload_response :=
  df <~ lift file ;;
  assign_uploaded_df df ;;;
  feature_names <~
    lift (load_feature_names "feature_names.txt" (feature_names_txt w)) ;;
  st <~ get ;;
  X_inf <~ lift (transform_data_for_inference (uploaded_df st) feature_names) ;;
  model <~ lift (joblib_load w) ;;
  y_pred <~ lift (model X_inf) ;;
  assign_predictions_df (mk_pred_frame None (map with_total y_pred)) ;;;
  st <~ get ;;
  (if has_col TAIL_NUMBER_COL (uploaded_df st) then
     match get_col TAIL_NUMBER_COL (uploaded_df st) with
     | Some c => assign_predictions_df (insert_tails (cells c) (predictions_df st))
     | None => ret tt
     end
   else ret tt) ;;;
  st <~ get ;;
  assign_anomalies_df (detect_anomalies (predictions_df st)) ;;;
  st <~ get ;;
  results <~ lift (row_results (predictions_df st) (anomalies_df st) 0
                               (pred_rows (predictions_df st))) ;;
  ret (UploadSuccess results).

(** [try: ... except Exception as e: return {"status": "error", ...}]:
    an exception that is an [Exception] becomes the error envelope, any
    other leaves the endpoint. *)
Definition predict_csv (w : world) (file : result frame) (st : state)
  : result upload_response * state :=
  match predict_csv_try w file st with
  | (Ok response, st') => (Ok response, st')
  | (Raise e, st') =>
      if isinstance_Exception e
      then (Ok (UploadError (exn_str e)), st')
      else (Raise e, st')
  end.

(** ** [get_flight_info] *)

Definition tail_column (df : pred_frame) : result (list cell) :=
  match pred_tails df with
  | Some tails => Ok tails
  | None => Raise (key_error TAIL_NUMBER_COL)
  end.

Definition get_flight_info (tail_number : string) (st : state)
  : result lookup_response :=
  if pred_empty (predictions_df st) then
    Ok (LookupMessage "No predictions available. Please upload a CSV first.")
  else
    tails <- tail_column (predictions_df st) ;;
    let row := matching_rows (CStr tail_number) tails
                             (pred_rows (predictions_df st)) in
    match row with
    | [] => Ok (LookupMessage "Tail number not found.")
    | (tail, row) :: _ =>
        records <- anomalies_where (anomalies_df st) (CStr tail_number) ;;
        anomalies <- iloc0 records ;;
        let optimization := optimize_suggestions row in
        Ok (LookupInfo
              (mk_flight_info tail
                 (CARRIER_DELAY row) (WEATHER_DELAY row) (SECURITY_DELAY row)
                 (Total_Predicted_Delay row)
                 anomalies
                 optimization))
    end.
End Backend.

(** ** Vocabulary of the statements *)

(** The labels of a frame after assigning to [x]: a new label goes last. *)
Definition add_label (l : list string) (x : string) : list string :=
  if mem x l then l else (l ++ [x])%list.

(** The distinct names of a list, in the order of their first occurrence. *)
Definition distinct_labels (l : list string) : list string :=
  fold_left add_label l [].


(** What the imputation loop does to the column a label selects. *)
Definition filled (np : primitives) (o : option column) : option column :=
  match o with
  | Some (NumCol xs) => Some (NumCol (fillna (median np xs) xs))
  | _ => o
  end.

(** What makes a number the median of a list of values: the values split
    into a lower part, a middle and an upper part of the same length as the
    lower, nothing in a part above anything in the next; the middle is the
    number itself, or two values whose floating-point mean it is.  A list
    without values has none. *)
Definition is_median (np : primitives) (values : list Q) (m : option Q)
  : Prop :=
  match m with
  | None => values = []
  | Some v =>
      exists lower middle upper,
        Permutation values (lower ++ middle ++ upper) /\
        List.length lower = List.length upper /\
        (forall x y, In x lower -> In y middle -> x <= y) /\
        (forall y z, In y middle -> In z upper -> y <= z) /\
        (middle = [v] \/
         exists a b, middle = [a; b] /\ a <= b /\ v = mean2 np a b)
  end.

(** The labels the engineering steps write: the time features, the
    categorical columns and the one-hot-expanded column. *)
Definition dep_time_labels : list string :=
  ["DEP_HOUR"; "DEP_MINUTE"; "DEP_HOUR_SIN"; "DEP_HOUR_COS";
   "DEP_MIN_SIN"; "DEP_MIN_COS"].
Definition calendar_labels : list string :=
  ["MONTH_SIN"; "MONTH_COS"; "DAY_OF_WEEK_SIN"; "DAY_OF_WEEK_COS"].

(** The numbers of a series that has no NaN. *)
Definition all_present (xs : list (option Q)) (ts : list Q) : Prop :=
  xs = map Some ts.

(** The frame [predictions_df] holds once the model has answered [y_pred]
    for the upload [df]. *)
Definition predictions_of (np : primitives) (df : frame)
  (y_pred : list (Q * Q * Q)) : pred_frame :=
  let base := mk_pred_frame None (map (with_total np) y_pred) in
  match get_col TAIL_NUMBER_COL df with
  | Some c => insert_tails (cells c) base
  | None => base
  end.

(** The states of the global storage: the initial one and those a request
    to [predict_csv] leaves, whatever it answered. *)
Inductive reachable (np : primitives) : state -> Prop :=
| reachable_initial : reachable np initial_state
| reachable_upload (w : world) (file : result frame) (st : state) :
    reachable np st ->
    reachable np (snd (predict_csv np w file st)).

(** The response object built from a prediction row, its identifier and
    its anomaly record, as both endpoints build it. *)
Definition info_of (tail : cell) (row : pred_row) (a : anomalies_record)
  : flight_info :=
  mk_flight_info tail
    (CARRIER_DELAY row) (WEATHER_DELAY row) (SECURITY_DELAY row)
    (Total_Predicted_Delay row) a (optimize_suggestions row).

(** The two messages of the lookup endpoint. *)
Definition no_predictions_message : lookup_response :=
  LookupMessage "No predictions available. Please upload a CSV first.".
Definition not_found_message : lookup_response :=
  LookupMessage "Tail number not found.".

(** ** Sample inputs *)

(** Two batches whose first record is the same, with the distance missing. *)
Definition batch_a : frame :=
  mk_frame 4 [("DISTANCE", NumCol [None; Some 300; Some 100; Some 200])].

(** An instance of the primitives, to run the model on sample inputs:
    the arithmetic without rounding, the cast that wraps as the cast of an
    integer column does, and for the sine and cosine of an angle the
    rational point of the circle [2x/(1+x^2)], [(1-x^2)/(1+x^2)].  A
    numeric level is written by its integer part.  The sample inputs hold
    small whole numbers in integer columns, on which the operations of
    numpy are exact as well, and the sample runs are read at no encoded
    value.  Nothing proved of all primitives depends on this choice. *)
Definition sample_np : primitives.
Proof.
  refine (mk_primitives
            (fun a b => (a + b) / 2)
            (fun a b c => a + b + c)
            (fun t d => inject_Z (Qfloor (t / inject_Z d)))
            (fun t d => t - inject_Z d * inject_Z (Qfloor (t / inject_Z d)))
            (fun q => wrap_int8 (Qtrunc q))
            Qmult
            (fun x d => x / inject_Z d)
            (fun x => 2 * x / (1 + x * x))
            (fun x => (1 - x * x) / (1 + x * x))
            (fun x => x)
            (fun q => if Qle_bool 0 q then str_nat (Z.to_nat (Qfloor q))
                      else "-" ++ str_nat (Z.to_nat (- Qfloor q)))
            _ _ _ _ _ _ _ _ _ _ _ _ _ _ _ _ _ _).
  - abstract (intros a a' b b' Ha Hb; now rewrite Ha, Hb).
  - abstract (intros a b Hab _ _; split;
              [apply Qle_shift_div_l; [reflexivity | lra]
              |apply Qle_shift_div_r; [reflexivity | lra]]).
  - abstract (intros; lra).
  - abstract (intros x y z _ _ _; now rewrite !inject_Z_plus).
  - abstract (intros t _; reflexivity).
  - abstract (intro t; change (inject_Z 100) with 100;
              pose proof (Qfloor_le (t / 100)) as L;
              pose proof (Qlt_floor (t / 100)) as U;
              rewrite inject_Z_plus in U; change (inject_Z 1) with 1 in U;
              assert (E : t == t / 100 * 100) by field;
              revert L U; generalize (inject_Z (Qfloor (t / 100)));
              intros f L U; split; lra).
  - abstract (intros t _; reflexivity).
  - abstract (intros t z E; change (inject_Z 100) with 100;
              rewrite (Qfloor_comp _ (inject_Z z / inject_Z 100))
                by (now rewrite E);
              rewrite E;
              assert (F : Qfloor (inject_Z z / inject_Z 100) = (z / 100)%Z)
                by (unfold Qdiv, Qmult, Qinv, inject_Z, Qfloor; simpl;
                    now rewrite Z.mul_1_r);
              rewrite F, Z.mod_eq by discriminate;
              unfold Qeq, Qminus, Qplus, Qopp, Qmult, inject_Z; simpl; lia).
  - abstract (intro q; unfold wrap_int8;
              pose proof (Z.mod_pos_bound (Qtrunc q + 128) 256); lia).
  - abstract (intros q L U; unfold wrap_int8;
              assert (H : (-128 <= Qtrunc q < 128)%Z);
              [unfold Qtrunc; destruct (Qle_bool 0 q) eqn:E;
               [apply Qle_bool_iff in E; split;
                [apply Z.le_trans with (Qfloor 0);
                 [discriminate | now apply Qfloor_resp_le]
                |rewrite Zlt_Qlt; apply Qle_lt_trans with q;
                 [apply Qfloor_le | exact U]]
               |assert (N : q < 0)
                  by (apply Qnot_le_lt; intro C;
                      apply Qle_bool_iff in C; congruence);
                split;
                [apply Z.lt_pred_le; rewrite Zlt_Qlt;
                 apply Qlt_le_trans with q; [exact L | apply Qle_ceiling]
                |apply Z.le_lt_trans with (Qceiling 0);
                 [apply Qceiling_resp_le; lra | reflexivity]]]
              |rewrite Z.mod_small by lia; lia]).
  - abstract (intros x y E; rewrite E; ring).
  - abstract (intros x d E _; rewrite E; unfold Qdiv; ring).
  - abstract (intros x E; rewrite E; reflexivity).
  - abstract (intros x E; rewrite E; reflexivity).
  - abstract (intro x;
              assert (SQ : forall y : Q, 0 <= y * y) by (intro y; nra);
              pose proof (SQ x) as S0;
              pose proof (SQ (x + 1)) as S1;
              pose proof (SQ (x - 1)) as S2;
              assert (D : 0 < 1 + x * x) by lra;
              split;
              [apply Qle_shift_div_l; [exact D | nra]
              |apply Qle_shift_div_r; [exact D | nra]]).
  - abstract (intro x;
              assert (SQ : forall y : Q, 0 <= y * y) by (intro y; nra);
              pose proof (SQ x) as S0;
              pose proof (SQ (x + 1)) as S1;
              pose proof (SQ (x - 1)) as S2;
              assert (D : 0 < 1 + x * x) by lra;
              split;
              [apply Qle_shift_div_l; [exact D | nra]
              |apply Qle_shift_div_r; [exact D | nra]]).
  - abstract (intros x y H; exact H).
  - abstract (intros x z E _; exact E).
Defined.

(** A model that answers the same row for every row of the matrix, and a
    model that answers a fixed list of rows. *)
Definition constant_model (y : Q * Q * Q) : model :=
  fun X => Ok (repeat y (nrows X)).
Definition fixed_model (ys : list (Q * Q * Q)) : model :=
  fun _ => Ok ys.

(** The two-row upload of the specification's scenario. *)
Definition two_flights : frame :=
  mk_frame 2
    [("TAIL_NUMBER", ObjCol [Some "N100"; Some "N200"]);
     ("CRS_DEP_TIME", NumCol [Some 830; Some 1745]);
     ("MONTH", NumCol [Some 3; Some 12]);
     ("DAY_OF_WEEK", NumCol [Some 1; Some 7]);
     ("OP_UNIQUE_CARRIER", ObjCol [Some "UA"; Some "AA"]);
     ("DISTANCE", NumCol [Some 500; None])].

Definition two_flights_features : list string :=
  ["DEP_HOUR_SIN"; "DEP_HOUR_COS"; "DISTANCE"; "AIRLINE_AA"; "AIRLINE_DL"].

Definition two_flights_world : world :=
  mk_world (Some two_flights_features)
           (Ok (fixed_model [(1, 1, 1); (20, 8, 15)])).

(** A scheduled departure time written as text, and one beyond the range
    in which the hour fits eight bits. *)
Definition text_time : frame :=
  mk_frame 1 [("CRS_DEP_TIME", ObjCol [Some "08:30"])].
Definition late_time : frame :=
  mk_frame 1 [("CRS_DEP_TIME", NumCol [Some 20000])].

(** Two rows with the same tail number and different predictions. *)
Definition same_tail : frame :=
  mk_frame 2
    [("TAIL_NUMBER", ObjCol [Some "N100"; Some "N100"]);
     ("DISTANCE", NumCol [Some 100; Some 200])].
Definition same_tail_world : world :=
  mk_world (Some ["DISTANCE"]) (Ok (fixed_model [(1, 1, 1); (20, 1, 1)])).
Definition same_tail_first : flight_info :=
  info_of (CStr "N100") (mk_pred_row 1 1 1 3)
          (mk_anomalies_record (CStr "N100") (mk_risk_row "LOW" "LOW" "LOW")).
Definition same_tail_second : flight_info :=
  info_of (CStr "N100") (mk_pred_row 20 1 1 22)
          (mk_anomalies_record (CStr "N100") (mk_risk_row "LOW" "LOW" "LOW")).

(** Two rows with the same tail number written in digits only. *)
Definition numeric_same_tail : frame :=
  mk_frame 2
    [("TAIL_NUMBER", NumCol [Some 12345; Some 12345]);
     ("DISTANCE", NumCol [Some 100; Some 200])].

(** Uploads without a [TAIL_NUMBER] column: one row, and a header only. *)
Definition no_tail : frame :=
  mk_frame 1 [("ORIGIN", ObjCol [Some "JFK"]); ("DISTANCE", NumCol [Some 100])].
Definition header_only : frame :=
  mk_frame 0 [("ORIGIN", ObjCol []); ("DISTANCE", ObjCol [])].
Definition header_only_with_tail : frame :=
  mk_frame 0 [("TAIL_NUMBER", ObjCol []); ("DISTANCE", ObjCol [])].
Definition plain_world : world :=
  mk_world (Some ["DISTANCE"]) (Ok (constant_model (1, 1, 1))).
Definition no_feature_file_world : world :=
  mk_world None (Ok (constant_model (1, 1, 1))).

(** The engineered frame of the two-row upload. *)
Definition two_flights_engineered : frame :=
  match engineer sample_np two_flights with
  | Ok eng => eng
  | Raise _ => mk_frame 0 []
  end.

(** The states the sample uploads leave. *)
Definition two_flights_state : state :=
  snd (predict_csv sample_np two_flights_world (Ok two_flights) initial_state).
Definition two_flights_results : list flight_info :=
  match fst (predict_csv sample_np two_flights_world (Ok two_flights)
                         initial_state) with
  | Ok (UploadSuccess results) => results
  | _ => []
  end.
Definition same_tail_state : state :=
  snd (predict_csv sample_np same_tail_world (Ok same_tail) initial_state).
Definition numeric_same_tail_state : state :=
  snd (predict_csv sample_np same_tail_world (Ok numeric_same_tail)
                   initial_state).
Definition header_only_state : state :=
  snd (predict_csv sample_np plain_world (Ok header_only_with_tail)
                   initial_state).
Definition no_tail_state : state :=
  snd (predict_csv sample_np plain_world (Ok no_tail) initial_state).

(** ** Vocabulary of the further properties *)

(** The order of the three risk labels. *)
Definition risk_rank (label : string) : nat :=
  if String.eqb label "LOW" then 0
  else if String.eqb label "MEDIUM" then 1
  else 2.

(** The tips the suggestion engine can hand out, and those of the three
    tables it cannot. *)
Definition offered_tips : list string :=
  (firstn 5 carrier_suggestions ++ firstn 5 weather_suggestions
   ++ firstn 5 security_suggestions ++ [total_delay_advisory])%list.
Definition unused_tips : list string :=
  (skipn 5 carrier_suggestions ++ skipn 5 weather_suggestions
   ++ skipn 5 security_suggestions)%list.

(** A list without repetition, decided. *)
Fixpoint distinct (l : list string) : bool :=
  match l with
  | [] => true
  | x :: l' => negb (mem x l') && distinct l'
  end.

(** What one [if]/[elif] pair of [optimize_suggestions] appends. *)
Definition tier (tips : list string) (x hi lo : Q) : list string :=
  if Qgtb x hi then firstn 5 tips
  else if Qgtb x lo then [item0 tips]
  else [].

(** One row is below another when each of its four numbers is. *)
Definition row_le (r r' : pred_row) : Prop :=
  CARRIER_DELAY r <= CARRIER_DELAY r' /\
  SECURITY_DELAY r <= SECURITY_DELAY r' /\
  WEATHER_DELAY r <= WEATHER_DELAY r' /\
  Total_Predicted_Delay r <= Total_Predicted_Delay r'.


(** What the model answers for an upload: the steps of [predict_csv] up to
    [model.predict], without the assignments to the globals. *)
Definition model_answer (np : primitives) (w : world) (file : result frame)
  : result (list (Q * Q * Q)) :=
  df <- file ;;
  feature_names <-
    load_feature_names "feature_names.txt" (feature_names_txt w) ;;
  X_inf <- transform_data_for_inference np df feature_names ;;
  model <- joblib_load w ;;
  model X_inf.

(** The upload and the answer of a request for which the model answered. *)
Definition answered (np : primitives) (w : world) (file : result frame)
  : option (frame * list (Q * Q * Q)) :=
  match file, model_answer np w file with
  | Ok df, Ok y => Some (df, y)
  | _, _ => None
  end.

(** A sequence of upload requests, each in the state the one before left,
    and the last request of the sequence for which the model answered. *)
Definition run_uploads (np : primitives)
  (requests : list (world * result frame)) (st : state) : state :=
  fold_left (fun st r => snd (predict_csv np (fst r) (snd r) st)) requests st.

Fixpoint last_answered (np : primitives)
  (requests : list (world * result frame))
  : option (frame * list (Q * Q * Q)) :=
  match requests with
  | [] => None
  | r :: rest =>
      match last_answered np rest with
      | Some a => Some a
      | None => answered np (fst r) (snd r)
      end
  end.

(** The state in which the frames of an answered upload are stored. *)
Definition stored (np : primitives) (df : frame) (y : list (Q * Q * Q))
  : state :=
  mk_state df (predictions_of np df y)
           (detect_anomalies (predictions_of np df y)).

(** Two medians are the same number, or both NaN. *)
Definition same_number (a b : option Q) : Prop :=
  match a, b with
  | Some x, Some y => x == y
  | None, None => True
  | _, _ => False
  end.

(** How many values of a list are at most, and how many are below, a
    number. *)
Definition count_le (v : Q) (l : list Q) : nat :=
  List.length (filter (fun x => Qle_bool x v) l).
Definition count_lt (v : Q) (l : list Q) : nat :=
  List.length (filter (fun x => Qltb x v) l).

(** Columns on which the time features can be computed: a scheduled
    departure time is numeric with a present value, or has no row at all;
    a month or a day of week is numeric, or has no row at all. *)
Definition usable_time (c : column) : Prop :=
  match c with
  | NumCol xs => xs = [] \/ present xs <> []
  | ObjCol xs => xs = []
  | CatCol _ => False
  end.

Definition usable_calendar (c : column) : Prop :=
  match c with
  | NumCol _ => True
  | ObjCol xs => xs = []
  | CatCol _ => False
  end.

Definition time_columns_usable (df : frame) : Prop :=
  (forall c, get_col "CRS_DEP_TIME" df = Some c -> usable_time c) /\
  (forall c, get_col "MONTH" df = Some c -> usable_calendar c) /\
  (forall c, get_col "DAY_OF_WEEK" df = Some c -> usable_calendar c).

(** The column [dep_time_features] can work on, as the imputation leaves
    it: numeric without a missing value, or without a row. *)
Definition workable_time (c : column) : Prop :=
  (exists xs, c = NumCol xs /\ existsb is_none xs = false) \/ c = ObjCol [].

(** ** Further sample inputs *)

(** An upload whose second row has no tail number, and one whose tail
    numbers are written in digits. *)
Definition missing_tail : frame :=
  mk_frame 2
    [("TAIL_NUMBER", ObjCol [Some "N100"; None]);
     ("DISTANCE", NumCol [Some 100; Some 200])].
Definition numeric_tail : frame :=
  mk_frame 1
    [("TAIL_NUMBER", NumCol [Some 12345]);
     ("DISTANCE", NumCol [Some 100])].

(** The matrix of an upload for the one feature [DISTANCE]. *)
Definition distance_matrix (df : frame) : frame :=
  match transform_data_for_inference sample_np df ["DISTANCE"] with
  | Ok X => X
  | Raise _ => mk_frame 0 []
  end.
(** * Properties *)

(** ** Comparisons *)

Section Properties.

Variable np : primitives.

Lemma Qltb_lt (x y : Q) : Qltb x y = true <-> x < y.
Proof.
  unfold Qltb. rewrite negb_true_iff, <- not_true_iff_false, Qle_bool_iff.
  split; [apply Qnot_le_lt | apply Qlt_not_le].
Qed.

Lemma Qltb_ge (x y : Q) : Qltb x y = false <-> y <= x.
Proof.
  unfold Qltb. rewrite negb_false_iff. apply Qle_bool_iff.
Qed.

Lemma Qgtb_gt (x y : Q) : Qgtb x y = true <-> y < x.
Proof. apply Qltb_lt. Qed.

Lemma Qgtb_le (x y : Q) : Qgtb x y = false <-> x <= y.
Proof. apply Qltb_ge. Qed.


(** ** Risk labels *)

Lemma risk_label_cases (v : Q) :
  (Qabs v < 15 /\ risk_label v = "LOW") \/
  (15 <= Qabs v /\ Qabs v <= 60 /\ risk_label v = "MEDIUM") \/
  (60 < Qabs v /\ risk_label v = "HIGH").
Proof.
  unfold risk_label; cbv zeta.
  destruct (Qltb (Qabs v) 15) eqn:Hlow.
  - left. split; [now apply Qltb_lt | reflexivity].
  - apply Qltb_ge in Hlow.
    destruct (Qle_bool (Qabs v) 60) eqn:Hmid.
    + right; left. apply Qle_bool_iff in Hmid. auto.
    + right; right. split; [| reflexivity].
      apply Qnot_le_lt. intro H. apply Qle_bool_iff in H. congruence.
Qed.

(** C1: [risk_label] is a total function of the number it is given and
    classifies its absolute value with three thresholds that do not
    overlap: LOW exactly when |v| < 15, MEDIUM exactly when
    15 <= |v| <= 60, HIGH exactly when |v| > 60; the five sample values of
    the specification get LOW, MEDIUM, MEDIUM, HIGH, HIGH. *)
Theorem risk_label_thresholds :
  forall v : Q,
    (risk_label v = "LOW" <-> Qabs v < 15) /\
    (risk_label v = "MEDIUM" <-> 15 <= Qabs v /\ Qabs v <= 60) /\
    (risk_label v = "HIGH" <-> 60 < Qabs v) /\
    risk_label 14.9 = "LOW" /\
    risk_label 15 = "MEDIUM" /\
    risk_label 60 = "MEDIUM" /\
    risk_label 60.1 = "HIGH" /\
    risk_label (-70) = "HIGH".
Proof.
  intro v.
  destruct (risk_label_cases v) as [[H E] | [[H1 [H2 E]] | [H E]]];
    rewrite E; repeat split; try reflexivity; try discriminate;
    intros; try assumption; try lra.
Qed.

(** ** Suggestions *)

Lemma mem_In (s : string) (l : list string) : mem s l = true <-> In s l.
Proof.
  unfold mem. rewrite existsb_exists. split.
  - intros [x [Hin Heq]]. apply String.eqb_eq in Heq. now subst.
  - intro Hin. exists s. split; [assumption | apply String.eqb_refl].
Qed.

(** The three states of one [if]/[elif] pair. *)
Lemma tier_cases (x hi lo : Q) :
  lo <= hi ->
  (Qgtb x hi = true /\ hi < x) \/
  (Qgtb x hi = false /\ Qgtb x lo = true /\ lo < x /\ x <= hi) \/
  (Qgtb x hi = false /\ Qgtb x lo = false /\ x <= lo).
Proof.
  intro Hlh.
  destruct (Qgtb x hi) eqn:Hhi.
  - left. split; [reflexivity | now apply Qgtb_gt].
  - apply Qgtb_le in Hhi. right.
    destruct (Qgtb x lo) eqn:Hlo.
    + left. apply Qgtb_gt in Hlo. auto.
    + right. apply Qgtb_le in Hlo. auto.
Qed.

Ltac tiers row :=
  let Hc := fresh "Hc" in
  let Hw := fresh "Hw" in
  let Hs := fresh "Hs" in
  destruct (tier_cases (CARRIER_DELAY row) 15 5 ltac:(lra))
    as [[Hc ?] | [[Hc [? [? ?]]] | [Hc [? ?]]]];
  destruct (tier_cases (WEATHER_DELAY row) 10 5 ltac:(lra))
    as [[Hw ?] | [[Hw [? [? ?]]] | [Hw [? ?]]]];
  destruct (tier_cases (SECURITY_DELAY row) 5 2 ltac:(lra))
    as [[Hs ?] | [[Hs [? [? ?]]] | [Hs [? ?]]]];
  destruct (Qgtb (Total_Predicted_Delay row) 20) eqn:Ht;
  unfold optimize_suggestions;
  repeat match goal with H : Qgtb _ _ = _ |- _ => rewrite H; clear H end.

Lemma advisory_mem (row : pred_row) :
  mem total_delay_advisory (optimize_suggestions row)
  = Qgtb (Total_Predicted_Delay row) 20.
Proof.
  destruct (Qgtb (Total_Predicted_Delay row) 20) eqn:Ht'.
  - tiers row; try discriminate; reflexivity.
  - tiers row; try discriminate; reflexivity.
Qed.

(** C4: the fixed total-delay advisory is in the list
    [optimize_suggestions] returns exactly when the row's total predicted
    delay is strictly above 20, whatever the three causes contributed. *)
Theorem total_delay_advisory_iff :
  forall row : pred_row,
    In total_delay_advisory (optimize_suggestions row)
    <-> 20 < Total_Predicted_Delay row.
Proof.
  intro row.
  rewrite <- mem_In, advisory_mem. apply Qgtb_gt.
Qed.

Lemma Qgtb_compat (x x' y : Q) : x == x' -> Qgtb x y = Qgtb x' y.
Proof.
  intro E. destruct (Qgtb x' y) eqn:H.
  - apply Qgtb_gt. apply Qgtb_gt in H. now rewrite E.
  - apply Qgtb_le. apply Qgtb_le in H. now rewrite E.
Qed.

Lemma optimize_suggestions_same_row (r r' : pred_row) :
  same_row r r' -> optimize_suggestions r = optimize_suggestions r'.
Proof.
  intros (Ec & Es & Ew & Et). unfold optimize_suggestions.
  now rewrite !(Qgtb_compat _ _ _ Ec), !(Qgtb_compat _ _ _ Es),
    !(Qgtb_compat _ _ _ Ew), !(Qgtb_compat _ _ _ Et).
Qed.

(** C3: per cause the high threshold is tested first and suppresses the low
    one (carrier above 15 / above 5, weather above 10 / above 5, security
    above 5 / above 2): what a cause contributes to the list is the first
    five tips of its table above the high threshold, the first tip alone
    between the two, nothing at or below the low one; the list is these
    contributions in the order carrier, weather, security, then the
    advisory.  So carrier 16 gives the five carrier tips with the first tip
    once, carrier 6 the first tip alone, carrier 4 no carrier tip; rows with
    the same numbers get the same list. *)
Theorem optimize_suggestions_tiers :
  forall row : pred_row,
    let out := optimize_suggestions row in
    let carrier := contribution carrier_suggestions out in
    let weather := contribution weather_suggestions out in
    let security := contribution security_suggestions out in
    ((15 < CARRIER_DELAY row -> carrier = firstn 5 carrier_suggestions) /\
     (5 < CARRIER_DELAY row /\ CARRIER_DELAY row <= 15 ->
      carrier = [item0 carrier_suggestions]) /\
     (CARRIER_DELAY row <= 5 -> carrier = [])) /\
    ((10 < WEATHER_DELAY row -> weather = firstn 5 weather_suggestions) /\
     (5 < WEATHER_DELAY row /\ WEATHER_DELAY row <= 10 ->
      weather = [item0 weather_suggestions]) /\
     (WEATHER_DELAY row <= 5 -> weather = [])) /\
    ((5 < SECURITY_DELAY row -> security = firstn 5 security_suggestions) /\
     (2 < SECURITY_DELAY row /\ SECURITY_DELAY row <= 5 ->
      security = [item0 security_suggestions]) /\
     (SECURITY_DELAY row <= 2 -> security = [])) /\
    out = (carrier ++ weather ++ security
           ++ contribution [total_delay_advisory] out)%list /\
    (CARRIER_DELAY row == 16 ->
       carrier = firstn 5 carrier_suggestions /\
       count_occ string_dec out (item0 carrier_suggestions) = 1%nat) /\
    (CARRIER_DELAY row == 6 -> carrier = [item0 carrier_suggestions]) /\
    (CARRIER_DELAY row == 4 -> carrier = []) /\
    (forall row', same_row row row' -> optimize_suggestions row' = out).
Proof.
  intro row. cbv zeta.
  assert (Hsame : forall row', same_row row row' ->
                    optimize_suggestions row' = optimize_suggestions row)
    by (intros row' H; symmetry; now apply optimize_suggestions_same_row).
  revert Hsame.
  tiers row; intro Hsame;
    (repeat split; try exact Hsame; intros;
     try reflexivity; exfalso; lra).
Qed.

(** ** Frames: labels, selection and assignment *)

Lemma has_col_select (n : string) (df : frame) :
  has_col n df = false <-> select n df = [].
Proof.
  unfold has_col, select, names. destruct df as [k l]; simpl.
  induction l as [| [m c] l IH]; simpl.
  - tauto.
  - destruct (String.eqb n m); simpl; [split; discriminate | exact IH].
Qed.

Lemma has_col_get (n : string) (df : frame) :
  has_col n df = true <-> exists c, get_col n df = Some c.
Proof.
  unfold get_col. destruct (has_col n df) eqn:H.
  - split; [intros _ | reflexivity].
    destruct (select n df) as [| c s] eqn:E.
    + apply has_col_select in E. congruence.
    + now exists c.
  - apply has_col_select in H. rewrite H. simpl.
    split; [discriminate | intros [c Hc]; discriminate].
Qed.


Lemma names_assign (n : string) (c : column) (l : list (string * column)) :
  map fst (assign n c l) = add_label (map fst l) n.
Proof.
  unfold add_label, mem.
  induction l as [| [m c'] l IH]; simpl.
  - reflexivity.
  - destruct (String.eqb n m); simpl; [reflexivity |].
    rewrite IH. now destruct (existsb (String.eqb n) (map fst l)).
Qed.

Lemma names_set_col (n : string) (c : column) (df : frame) :
  names (set_col n c df) = add_label (names df) n.
Proof. apply names_assign. Qed.

Lemma nrows_set_col (n : string) (c : column) (df : frame) :
  nrows (set_col n c df) = nrows df.
Proof. reflexivity. Qed.

Lemma get_set_same (n : string) (c : column) (df : frame) :
  get_col n (set_col n c df) = Some c.
Proof.
  unfold get_col, select, set_col. destruct df as [k l]; simpl.
  induction l as [| [m c'] l IH]; simpl.
  - now rewrite String.eqb_refl.
  - destruct (String.eqb n m) eqn:E; simpl; rewrite E; [reflexivity | exact IH].
Qed.

Lemma select_set_other (n m : string) (c : column) (df : frame) :
  n <> m -> select m (set_col n c df) = select m df.
Proof.
  intro Hne. unfold select, set_col. destruct df as [k l]; simpl.
  assert (Hmn : String.eqb m n = false)
    by (apply String.eqb_neq; congruence).
  induction l as [| [p c'] l IH]; simpl.
  - now rewrite Hmn.
  - destruct (String.eqb n p) eqn:E; simpl.
    + apply String.eqb_eq in E. subst p. now rewrite Hmn.
    + destruct (String.eqb m p); simpl; now rewrite IH.
Qed.

Lemma get_set_other (n m : string) (c : column) (df : frame) :
  n <> m -> get_col m (set_col n c df) = get_col m df.
Proof. intro H. unfold get_col. now rewrite select_set_other. Qed.

Lemma has_col_set (n m : string) (c : column) (df : frame) :
  has_col m (set_col n c df) = String.eqb m n || has_col m df.
Proof.
  destruct (String.eqb m n) eqn:E; simpl.
  - apply String.eqb_eq in E. subst m. apply has_col_get.
    exists c. apply get_set_same.
  - apply String.eqb_neq in E.
    assert (Hs : select m (set_col n c df) = select m df)
      by (apply select_set_other; congruence).
    destruct (has_col m df) eqn:H.
    + destruct (has_col m (set_col n c df)) eqn:H'; [reflexivity |].
      apply has_col_select in H'. rewrite Hs in H'.
      apply has_col_select in H'. congruence.
    + apply has_col_select. rewrite Hs. now apply has_col_select.
Qed.

(** ** Distinct labels *)

Lemma mem_app (x : string) (l l' : list string) :
  mem x (l ++ l') = mem x l || mem x l'.
Proof. apply existsb_app. Qed.

Lemma fold_add_label_fresh (F l : list string) :
  NoDup F -> (forall x, In x F -> ~ In x l) ->
  fold_left add_label F l = (l ++ F)%list.
Proof.
  revert l. induction F as [| x F IH]; intros l Hnd Hfresh; simpl.
  - now rewrite app_nil_r.
  - inversion Hnd as [| ? ? Hx Hnd']; subst.
    unfold add_label at 2.
    destruct (mem x l) eqn:E.
    + apply mem_In in E. exfalso. apply (Hfresh x); simpl; auto.
    + rewrite IH; [now rewrite <- app_assoc | assumption |].
      intros y Hy Hin. apply in_app_or in Hin. destruct Hin as [Hin | Hin].
      * apply (Hfresh y); simpl; auto.
      * simpl in Hin. destruct Hin as [-> | []]. contradiction.
Qed.

Lemma distinct_labels_NoDup (F : list string) :
  NoDup F -> distinct_labels F = F.
Proof.
  intro H. unfold distinct_labels.
  rewrite fold_add_label_fresh; auto.
Qed.

(** ** Results *)

Ltac bind_inv H :=
  repeat match type of H with
         | rbind ?r _ = Ok _ =>
             let a := fresh "a" in
             let E := fresh "E" in
             destruct r as [a | ?] eqn:E; simpl in H; [| discriminate H]
         end.

(** ** Row counts *)

Lemma fold_left_nrows {A} (f : frame -> A -> frame) (l : list A) (df : frame) :
  (forall d a, nrows (f d a) = nrows d) ->
  nrows (fold_left f l df) = nrows df.
Proof.
  intro Hf. revert df. induction l as [| a l IH]; intro df; simpl.
  - reflexivity.
  - now rewrite IH, Hf.
Qed.

Lemma fill_missing_numeric_nrows (df : frame) :
  nrows (fill_missing_numeric np df) = nrows df.
Proof.
  apply fold_left_nrows. intros d a. unfold fill_column.
  now destruct (get_col a d) as [[xs | xs | c] |].
Qed.

Lemma convert_categorical_nrows (df : frame) :
  nrows (convert_categorical df) = nrows df.
Proof.
  apply fold_left_nrows. intros d a. unfold categorical_column.
  now destruct (get_col a d).
Qed.


Lemma dep_time_features_nrows (df df' : frame) :
  dep_time_features np df = Ok df' -> nrows df' = nrows df.
Proof.
  unfold dep_time_features, sin_encode, cos_encode. intro H.
  destruct (has_col "CRS_DEP_TIME" df).
  - bind_inv H. now inversion H.
  - now inversion H.
Qed.

Lemma calendar_feature_nrows (df df' : frame) (col : string) :
  calendar_feature np df col = Ok df' -> nrows df' = nrows df.
Proof.
  unfold calendar_feature, sin_encode, cos_encode. intro H.
  destruct (has_col col df).
  - bind_inv H. now inversion H.
  - now inversion H.
Qed.

Lemma time_features_nrows (df df' : frame) :
  time_features np df = Ok df' -> nrows df' = nrows df.
Proof.
  unfold time_features. intro H. bind_inv H.
  apply calendar_feature_nrows in H, E0. apply dep_time_features_nrows in E.
  congruence.
Qed.

Lemma one_hot_nrows (df : frame) :
  nrows (one_hot_operating_airline np df) = nrows df.
Proof.
  unfold one_hot_operating_airline, get_dummies.
  destruct (has_col "OPERATING_AIRLINE" df); [| reflexivity].
  now destruct (get_col "OPERATING_AIRLINE" df).
Qed.

Lemma engineer_nrows (df eng : frame) :
  engineer np df = Ok eng -> nrows eng = nrows df.
Proof.
  unfold engineer. intro H. bind_inv H. inversion H; subst.
  rewrite one_hot_nrows, convert_categorical_nrows.
  apply time_features_nrows in E. now rewrite E, fill_missing_numeric_nrows.
Qed.

(** ** Alignment *)

Lemma align_feature_ok (eng fin : frame) (f : string) :
  (List.length (select f eng) <= 1)%nat ->
  align_feature eng fin f
  = Ok (set_col f (match select f eng with
                   | c :: _ => c
                   | [] => const_col (nrows eng) 0
                   end) fin).
Proof.
  intro Hlen. unfold align_feature.
  destruct (has_col f eng) eqn:H.
  - destruct (select f eng) as [| c [| c' s]] eqn:E.
    + apply has_col_select in E. congruence.
    + reflexivity.
    + simpl in Hlen. lia.
  - apply has_col_select in H. now rewrite H.
Qed.

Lemma align_loop_ok (eng : frame) (F : list string) :
  forall fin,
    (forall f, In f F -> (List.length (select f eng) <= 1)%nat) ->
    exists out,
      align_loop eng fin F = Ok out /\
      nrows out = nrows fin /\
      names out = fold_left add_label F (names fin) /\
      (forall f, In f F ->
         get_col f out = Some (match select f eng with
                               | c :: _ => c
                               | [] => const_col (nrows eng) 0
                               end)) /\
      (forall f, ~ In f F -> select f out = select f fin).
Proof.
  induction F as [| g F IH]; intros fin Hlen.
  - exists fin. simpl. repeat split; auto. intros f [].
  - simpl. rewrite align_feature_ok by (apply Hlen; simpl; auto). simpl.
    destruct (IH (set_col g (match select g eng with
                             | c :: _ => c
                             | [] => const_col (nrows eng) 0
                             end) fin)) as (out & Hout & Hn & Hnames & Hin & Hnot).
    { intros f Hf. apply Hlen. simpl; auto. }
    exists out. repeat split.
    + exact Hout.
    + now rewrite Hn.
    + now rewrite Hnames, names_set_col.
    + intros f [-> | Hf].
      * destruct (in_dec string_dec f F) as [Hf | Hf]; [now apply Hin |].
        unfold get_col. rewrite (Hnot f Hf). apply get_set_same.
      * now apply Hin.
    + intros f Hf. rewrite Hnot by (intro; apply Hf; simpl; auto).
      apply select_set_other. intro; apply Hf; simpl; auto.
Qed.


(** ** Median imputation *)

Lemma fillna_length (v : option Q) (xs : list (option Q)) :
  List.length (fillna v xs) = List.length xs.
Proof. apply length_map. Qed.

Lemma fillna_None (xs : list (option Q)) : fillna None xs = xs.
Proof.
  unfold fillna. induction xs as [| [q |] xs IH]; simpl; congruence.
Qed.

Lemma fillna_full (v w : option Q) (xs : list (option Q)) :
  existsb is_none xs = false -> fillna v xs = xs.
Proof.
  unfold fillna. induction xs as [| [q |] xs IH]; simpl; intro H.
  - reflexivity.
  - now rewrite IH.
  - discriminate.
Qed.

Lemma fillna_Some_full (m : Q) (xs : list (option Q)) :
  existsb is_none (fillna (Some m) xs) = false.
Proof.
  unfold fillna. induction xs as [| [q |] xs IH]; simpl; auto.
Qed.

Lemma fillna_idempotent (xs : list (option Q)) :
  let ys := fillna (median np xs) xs in
  fillna (median np ys) ys = ys.
Proof.
  cbv zeta. destruct (median np xs) as [m |] eqn:E.
  - apply (fillna_full _ None), fillna_Some_full.
  - now rewrite !fillna_None, E, fillna_None.
Qed.

Lemma filled_idempotent (o : option column) : filled np (filled np o) = filled np o.
Proof.
  destruct o as [[xs | xs | c] |]; simpl; try reflexivity.
  now rewrite fillna_idempotent.
Qed.

Lemma get_fill_column (df : frame) (a c : string) :
  get_col c (fill_column np df a)
  = if String.eqb a c then filled np (get_col c df) else get_col c df.
Proof.
  unfold fill_column.
  destruct (String.eqb a c) eqn:E.
  - apply String.eqb_eq in E. subst c.
    destruct (get_col a df) as [[xs | xs | c'] |] eqn:G; simpl;
      try (now rewrite G).
    apply get_set_same.
  - apply String.eqb_neq in E.
    destruct (get_col a df) as [[xs | xs | c'] |]; try reflexivity.
    now apply get_set_other.
Qed.

Lemma get_fold_fill (L : list string) (c : string) :
  forall df,
    get_col c (fold_left (fill_column np) L df)
    = if mem c L then filled np (get_col c df) else get_col c df.
Proof.
  induction L as [| a L IH]; intro df; simpl.
  - reflexivity.
  - rewrite IH, get_fill_column. rewrite (String.eqb_sym c a).
    destruct (String.eqb a c); simpl.
    + destruct (mem c L); [apply filled_idempotent | reflexivity].
    + reflexivity.
Qed.

Lemma numeric_label_selected (df : frame) (c : string) (xs : list (option Q)) :
  get_col c df = Some (NumCol xs) -> mem c (select_dtypes_number df) = true.
Proof.
  unfold get_col, select, select_dtypes_number, mem. destruct df as [k l]; simpl.
  induction l as [| [m c'] l IH]; simpl; [discriminate |].
  destruct (String.eqb c m) eqn:E; simpl.
  - intro H. inversion H; subst. simpl. now rewrite E.
  - intro H. destruct (is_number c'); simpl; [rewrite E |]; auto.
Qed.

Lemma get_fill_missing_numeric (df : frame) (c : string) :
  get_col c (fill_missing_numeric np df) = filled np (get_col c df).
Proof.
  unfold fill_missing_numeric. rewrite get_fold_fill.
  destruct (mem c (select_dtypes_number df)) eqn:E; [reflexivity |].
  destruct (get_col c df) as [[xs | xs | c'] |] eqn:G; try reflexivity.
  apply numeric_label_selected in G. congruence.
Qed.


(** ** Time features *)

Lemma astype_int8_inv (xs : list (option Q)) (c : column) :
  astype_int8 np xs = Ok c ->
  existsb is_none xs = false /\ c = NumCol (map (option_map (to_int8 np)) xs).
Proof.
  unfold astype_int8. destruct (existsb is_none xs); [discriminate |].
  intro H. inversion H. auto.
Qed.

Lemma no_none_all_present (xs : list (option Q)) :
  existsb is_none xs = false -> exists ts, all_present xs ts.
Proof.
  unfold all_present. induction xs as [| [q |] xs IH]; simpl; intro H.
  - now exists [].
  - destruct (IH H) as [ts ->]. now exists (q :: ts).
  - discriminate.
Qed.

Lemma getitem_get (n : string) (df : frame) (c : column) :
  get_col n df = Some c -> getitem n df = Ok c.
Proof. unfold getitem. now intros ->. Qed.

Lemma has_col_of_get (n : string) (df : frame) (c : column) :
  get_col n df = Some c -> has_col n df = true.
Proof. intro H. apply has_col_get. eauto. Qed.

Ltac labels_differ := intro; discriminate.

(** What [dep_time_features] returns on a numeric [CRS_DEP_TIME]. *)
Lemma dep_time_features_numeric (df df' : frame) (xs : list (option Q)) :
  get_col "CRS_DEP_TIME" df = Some (NumCol xs) ->
  dep_time_features np df = Ok df' ->
  existsb is_none xs = false /\
  let hour := map (option_map (to_int8 np))
                  (map (option_map (fun q => floordiv np q 100)) xs) in
  let minute := map (option_map (to_int8 np))
                    (map (option_map (fun q => pymod np q 100)) xs) in
  df' =
  set_col "DEP_MIN_COS"
    (NumCol (map (option_map (fun q => cosine np q 60)) minute))
    (set_col "DEP_MIN_SIN"
       (NumCol (map (option_map (fun q => sine np q 60)) minute))
       (set_col "DEP_HOUR_COS"
          (NumCol (map (option_map (fun q => cosine np q 24)) hour))
          (set_col "DEP_HOUR_SIN"
             (NumCol (map (option_map (fun q => sine np q 24)) hour))
             (set_col "DEP_MINUTE" (NumCol minute)
                (set_col "DEP_HOUR" (NumCol hour) df))))).
Proof.
  intros Hget H. unfold dep_time_features in H.
  rewrite (has_col_of_get _ _ _ Hget) in H.
  rewrite (getitem_get _ _ _ Hget) in H. simpl in H.
  destruct (astype_int8 np (map (option_map (fun q => floordiv np q 100)) xs))
    as [h |] eqn:Eh; [| discriminate H].
  apply astype_int8_inv in Eh. destruct Eh as [Hfull ->]. simpl in H.
  unfold getitem in H at 1.
  rewrite get_set_other, Hget in H by labels_differ. simpl in H.
  destruct (astype_int8 np (map (option_map (fun q => pymod np q 100)) xs))
    as [m |] eqn:Em; [| discriminate H].
  apply astype_int8_inv in Em. destruct Em as [_ ->]. simpl in H.
  unfold getitem in H.
  repeat (first [ rewrite get_set_same in H
                | rewrite get_set_other in H by labels_differ ];
          simpl in H).
  inversion H. split; [| reflexivity].
  clear - Hfull. induction xs as [| [q |] xs IH]; simpl in *; auto.
Qed.

Ltac other_label Hnot :=
  let E := fresh in
  intro E; apply Hnot; first [rewrite <- E | rewrite E]; simpl; tauto.

Lemma dep_time_features_other (df df' : frame) (c : string) :
  dep_time_features np df = Ok df' ->
  ~ In c dep_time_labels ->
  select c df' = select c df.
Proof.
  unfold dep_time_features, sin_encode, cos_encode. intros H Hnot.
  destruct (has_col "CRS_DEP_TIME" df); [| now inversion H].
  bind_inv H. inversion H.
  rewrite !select_set_other by other_label Hnot. reflexivity.
Qed.

Lemma calendar_feature_other (df df' : frame) (col c : string) :
  calendar_feature np df col = Ok df' ->
  c <> (col ++ "_SIN") -> c <> (col ++ "_COS") ->
  select c df' = select c df.
Proof.
  unfold calendar_feature, sin_encode, cos_encode. intros H Hs Hc.
  destruct (has_col col df); [| now inversion H].
  bind_inv H. inversion H.
  rewrite !select_set_other by congruence. reflexivity.
Qed.

(** What one round of the calendar loop returns on a numeric column. *)
Lemma calendar_feature_numeric (df : frame) (col : string)
  (ms : list (option Q)) :
  get_col col df = Some (NumCol ms) ->
  (col ++ "_SIN") <> col ->
  let div := if String.eqb col "MONTH" then 12%Z else 7%Z in
  calendar_feature np df col
  = Ok (set_col (col ++ "_COS")
          (NumCol (map (option_map (fun q => cosine np q div)) ms))
          (set_col (col ++ "_SIN")
             (NumCol (map (option_map (fun q => sine np q div)) ms))
             df)).
Proof.
  intros Hget Hne. cbv zeta. unfold calendar_feature.
  rewrite (has_col_of_get _ _ _ Hget), (getitem_get _ _ _ Hget). simpl.
  unfold getitem. rewrite get_set_other, Hget by assumption. reflexivity.
Qed.

Lemma select_get (c : string) (df df' : frame) :
  select c df' = select c df -> get_col c df' = get_col c df.
Proof. unfold get_col. now intros ->. Qed.

(** ** Categorical conversion and one-hot expansion *)

Lemma categorical_column_other (df : frame) (col c : string) :
  c <> col -> select c (categorical_column df col) = select c df.
Proof.
  intro Hne. unfold categorical_column.
  destruct (get_col col df); apply select_set_other; congruence.
Qed.

Lemma convert_categorical_other (df : frame) (c : string) :
  ~ In c CATEGORICAL_COLS_FOR_XGB ->
  select c (convert_categorical df) = select c df.
Proof.
  unfold convert_categorical. generalize CATEGORICAL_COLS_FOR_XGB.
  intro L. revert df. induction L as [| a L IH]; intros df Hnot; simpl.
  - reflexivity.
  - rewrite IH by (intro; apply Hnot; simpl; auto).
    apply categorical_column_other. intro; apply Hnot; simpl; auto.
Qed.

Lemma get_dummies_keeps (df : frame) (o prefix c : string) (x : column) :
  get_col c df = Some x -> c <> o ->
  get_col c (get_dummies np df o prefix) = Some x.
Proof.
  intros Hget Hne. unfold get_dummies.
  destruct (get_col o df) as [oa |]; [| assumption].
  revert Hget. unfold get_col, select. simpl.
  rewrite filter_app, map_app.
  destruct df as [k l]. simpl.
  induction l as [| [m y] l IH]; simpl; [discriminate |].
  destruct (String.eqb_spec o m) as [<- | Hm]; simpl.
  - destruct (String.eqb_spec c o); [contradiction |].
    exact IH.
  - destruct (String.eqb c m); simpl; [auto | exact IH].
Qed.

Lemma one_hot_keeps (df : frame) (c : string) (x : column) :
  get_col c df = Some x -> c <> "OPERATING_AIRLINE" ->
  get_col c (one_hot_operating_airline np df) = Some x.
Proof.
  intros Hget Hne. unfold one_hot_operating_airline.
  destruct (has_col "OPERATING_AIRLINE" df); [| assumption].
  now apply get_dummies_keeps.
Qed.

(** ** Renaming *)

Lemma rename_label_fixed (c : string) :
  ~ In c (map fst column_mapping ++ map snd column_mapping) ->
  forall n, rename_label column_mapping n = c <-> n = c.
Proof.
  intros Hnot n. unfold rename_label, column_mapping, lookup.
  repeat match goal with
         | |- context [String.eqb n ?k] =>
             destruct (String.eqb_spec n k) as [-> | ?]
         end;
    (split; intro E; [| subst; try reflexivity];
     try (exfalso; apply Hnot; rewrite <- E; simpl; tauto);
     try assumption; try (exfalso; apply Hnot; simpl; tauto)).
Qed.

Lemma select_rename (df : frame) (c : string) :
  ~ In c (map fst column_mapping ++ map snd column_mapping) ->
  select c (rename column_mapping df) = select c df.
Proof.
  intro Hnot. pose proof (rename_label_fixed c Hnot) as Hfix.
  unfold select, rename. destruct df as [k l]. simpl.
  induction l as [| [m y] l IH]; simpl; [reflexivity |].
  destruct (String.eqb_spec c (rename_label column_mapping m)) as [E | E];
    destruct (String.eqb_spec c m) as [E' | E']; simpl.
  - now rewrite IH.
  - exfalso. apply E'. symmetry. now apply Hfix.
  - exfalso. apply E. symmetry. apply Hfix. congruence.
  - exact IH.
Qed.

(** ** The engineered frame *)

Lemma engineer_inv (df eng : frame) :
  engineer np df = Ok eng ->
  exists d1 d2 d3,
    dep_time_features np (fill_missing_numeric np (rename column_mapping df))
    = Ok d1 /\
    calendar_feature np d1 "MONTH" = Ok d2 /\
    calendar_feature np d2 "DAY_OF_WEEK" = Ok d3 /\
    eng = one_hot_operating_airline np (convert_categorical d3).
Proof.
  unfold engineer. intro H. bind_inv H. inversion H.
  unfold time_features in E. bind_inv E. eauto 10.
Qed.

(** The aligner is the engineering steps followed by the alignment. *)
Lemma transform_engineer (df : frame) (F : list string) :
  transform_data_for_inference np df F
  = (eng <- engineer np df ;; align eng F).
Proof.
  unfold transform_data_for_inference, engineer, time_features.
  destruct (dep_time_features np _) as [d1 |]; simpl; [| reflexivity].
  destruct (calendar_feature np d1 "MONTH") as [d2 |]; simpl; [| reflexivity].
  now destruct (calendar_feature np d2 "DAY_OF_WEEK").
Qed.

Ltac not_listed :=
  let E := fresh in
  intro E; simpl in E;
  repeat match type of E with
         | _ \/ _ => destruct E as [E | E]
         end;
  solve [discriminate E | contradiction E].

(** A column present after the categorical conversion's input [d3] under a
    label that neither the conversion nor the expansion writes is the
    column the engineered frame has. *)
Lemma late_steps_keep (d3 : frame) (c : string) (x : column) :
  get_col c d3 = Some x ->
  ~ In c CATEGORICAL_COLS_FOR_XGB -> c <> "OPERATING_AIRLINE" ->
  get_col c (one_hot_operating_airline np (convert_categorical d3)) = Some x.
Proof.
  intros Hget Hcat Hoa. apply one_hot_keeps; [| assumption].
  rewrite <- Hget. apply select_get. now apply convert_categorical_other.
Qed.

Lemma get_numeric_input (df : frame) (c : string) (xs : list (option Q)) :
  ~ In c (map fst column_mapping ++ map snd column_mapping) ->
  get_col c df = Some (NumCol xs) ->
  get_col c (fill_missing_numeric np (rename column_mapping df))
  = Some (NumCol (fillna (median np xs) xs)).
Proof.
  intros Hnot Hget. rewrite get_fill_missing_numeric.
  rewrite (select_get _ _ _ (select_rename df c Hnot)), Hget. reflexivity.
Qed.

(** ** The median is taken over the sorted present values *)

Lemma insert_sorted_perm (x : Q) (l : list Q) :
  Permutation (insert_sorted x l) (x :: l).
Proof.
  induction l as [| y l IH]; simpl.
  - apply Permutation_refl.
  - destruct (Qle_bool x y).
    + apply Permutation_refl.
    + apply perm_trans with (y :: x :: l).
      * now apply perm_skip.
      * apply perm_swap.
Qed.

Lemma sort_values_perm (l : list Q) : Permutation (sort_values l) l.
Proof.
  induction l as [| x l IH]; simpl.
  - apply perm_nil.
  - apply perm_trans with (x :: sort_values l).
    + apply insert_sorted_perm.
    + now apply perm_skip.
Qed.

Lemma insert_sorted_hd (a x : Q) (l : list Q) :
  a <= x -> HdRel Qle a l -> HdRel Qle a (insert_sorted x l).
Proof.
  intros Hax Hl. destruct l as [| y l]; simpl.
  - now constructor.
  - destruct (Qle_bool x y); constructor; [assumption |].
    now inversion Hl.
Qed.

Lemma insert_sorted_sorted (x : Q) (l : list Q) :
  Sorted Qle l -> Sorted Qle (insert_sorted x l).
Proof.
  induction 1 as [| y l Hl IH Hhd]; simpl.
  - repeat constructor.
  - destruct (Qle_bool x y) eqn:E.
    + apply Qle_bool_iff in E. repeat constructor; assumption.
    + constructor; [exact IH |].
      apply insert_sorted_hd; [| exact Hhd].
      apply Qlt_le_weak, Qnot_le_lt. intro H. apply Qle_bool_iff in H.
      congruence.
Qed.

Lemma sort_values_sorted (l : list Q) : Sorted Qle (sort_values l).
Proof.
  induction l as [| x l IH]; simpl.
  - constructor.
  - now apply insert_sorted_sorted.
Qed.

Lemma sort_values_length (l : list Q) :
  List.length (sort_values l) = List.length l.
Proof. apply Permutation_length, sort_values_perm. Qed.

Lemma sorted_strongly (l : list Q) : Sorted Qle l -> StronglySorted Qle l.
Proof.
  apply Sorted_StronglySorted. intros x y z. apply Qle_trans.
Qed.

Lemma sorted_app_le (l1 l2 : list Q) :
  StronglySorted Qle (l1 ++ l2) ->
  forall x y, In x l1 -> In y l2 -> x <= y.
Proof.
  induction l1 as [| a l1 IH]; simpl; intros H x y Hx Hy; [destruct Hx |].
  inversion H as [| ? ? Hs Ha]; subst.
  destruct Hx as [<- | Hx]; [| now apply IH].
  rewrite Forall_forall in Ha. apply Ha. apply in_or_app. now right.
Qed.

Lemma sorted_app_r (l1 l2 : list Q) :
  StronglySorted Qle (l1 ++ l2) -> StronglySorted Qle l2.
Proof.
  induction l1 as [| a l1 IH]; simpl; intro H; [exact H |].
  inversion H; subst. now apply IH.
Qed.

Lemma half_even (n : nat) : Nat.even n = true -> n = (2 * (n / 2))%nat.
Proof.
  intro H. apply Nat.even_spec in H. destruct H as [k ->].
  now rewrite Nat.mul_comm, Nat.div_mul, Nat.mul_comm by discriminate.
Qed.

Lemma half_odd (n : nat) : Nat.even n = false -> n = (2 * (n / 2) + 1)%nat.
Proof.
  intro H.
  assert (Ho : Nat.odd n = true) by (unfold Nat.odd; now rewrite H).
  apply Nat.odd_spec in Ho. destruct Ho as [k ->].
  assert (E : ((2 * k + 1) / 2 = k)%nat)
    by (symmetry; apply (Nat.div_unique _ 2 k 1); lia).
  rewrite E. lia.
Qed.

(** The number [median] returns is a median of the present values. *)
Lemma median_is_median (xs : list (option Q)) :
  is_median np (present xs) (median np xs).
Proof.
  unfold median. cbv zeta.
  pose proof (sort_values_perm (present xs)) as Hp.
  pose proof (sorted_strongly _ (sort_values_sorted (present xs))) as Hs.
  revert Hp Hs. generalize (sort_values (present xs)). intros s Hp Hs.
  destruct (List.length s) as [| m] eqn:Hlen.
  - destruct s; [| discriminate Hlen]. simpl.
    apply Permutation_nil in Hp. exact Hp.
  - set (n := S m) in *. set (k := (n / 2)%nat).
    destruct (Nat.even n) eqn:Heven.
    + pose proof (half_even n Heven) as Hn. fold k in Hn.
      assert (Hk : (k - 1 < List.length s)%nat) by (unfold n in *; lia).
      destruct (nth_split s 0 Hk) as (l1 & l2 & Hsplit & Hl1).
      destruct l2 as [| b l3].
      { exfalso. rewrite Hsplit, length_app in Hlen. simpl in Hlen.
        unfold n in *. lia. }
      assert (Hb : nth k s 0 = b).
      { rewrite Hsplit at 1. rewrite app_nth2 by lia.
        replace (k - List.length l1)%nat with 1%nat by (unfold n in *; lia).
        reflexivity. }
      rewrite Hb. set (a := nth (k - 1) s 0) in *.
      simpl. exists l1, [a; b], l3.
      assert (Hs' : StronglySorted Qle (l1 ++ [a; b] ++ l3))
        by (simpl; now rewrite <- Hsplit).
      repeat split.
      * apply Permutation_sym. simpl. now rewrite <- Hsplit.
      * rewrite Hsplit, length_app in Hlen. simpl in Hlen.
        unfold n in *. lia.
      * intros x y Hx Hy. apply (sorted_app_le _ _ Hs' x y Hx).
        apply in_or_app. now left.
      * intros y z Hy Hz.
        apply (sorted_app_le _ _ (sorted_app_r _ _ Hs') y z Hy Hz).
      * right. exists a, b. repeat split.
        apply (sorted_app_le [a] (b :: l3));
          [exact (sorted_app_r _ _ Hs') | simpl; auto | simpl; auto].
    + pose proof (half_odd n Heven) as Hn. fold k in Hn.
      assert (Hk : (k < List.length s)%nat) by (unfold n in *; lia).
      destruct (nth_split s 0 Hk) as (l1 & l2 & Hsplit & Hl1).
      set (v := nth k s 0) in *.
      simpl. exists l1, [v], l2.
      assert (Hs' : StronglySorted Qle (l1 ++ [v] ++ l2))
        by (simpl; now rewrite <- Hsplit).
      repeat split.
      * apply Permutation_sym. simpl. now rewrite <- Hsplit.
      * rewrite Hsplit, length_app in Hlen. simpl in Hlen.
        unfold n in *. lia.
      * intros x y Hx Hy. apply (sorted_app_le _ _ Hs' x y Hx).
        apply in_or_app. now left.
      * intros y z Hy Hz.
        apply (sorted_app_le _ _ (sorted_app_r _ _ Hs') y z Hy Hz).
      * now left.
Qed.

Lemma median_present (xs : list (option Q)) :
  present xs <> [] -> exists m, median np xs = Some m.
Proof.
  intro H. unfold median. cbv zeta. rewrite sort_values_length.
  destruct (present xs) as [| q l]; [congruence |]. simpl List.length.
  destruct (Nat.even (S (List.length l))); eauto.
Qed.

Lemma median_absent (xs : list (option Q)) :
  present xs = [] -> median np xs = None.
Proof. intro H. unfold median. now rewrite H. Qed.

(** ** Columns with a missing cell *)

Lemma is_none_map {A B} (f : A -> B) (xs : list (option A)) :
  existsb is_none (map (option_map f) xs) = existsb is_none xs.
Proof.
  induction xs as [| [a |] xs IH]; simpl; auto.
Qed.

(** ** When the engineering steps raise *)

Lemma time_column_input (df : frame) (c : string) :
  ~ In c (map fst column_mapping ++ map snd column_mapping) ->
  get_col c (fill_missing_numeric np (rename column_mapping df))
  = filled np (get_col c df).
Proof.
  intro Hc. rewrite get_fill_missing_numeric.
  now rewrite (select_get _ _ _ (select_rename df c Hc)).
Qed.

Lemma missing_everywhere (xs : list (option Q)) :
  xs <> [] -> present xs = [] -> existsb is_none xs = true.
Proof.
  destruct xs as [| [q |] xs]; simpl; intros H1 H2;
    [congruence | discriminate H2 | reflexivity].
Qed.

(** A scheduled departure time written as text: [//] raises. *)
Lemma engineer_text_time (df : frame) (xs : list (option string)) :
  get_col "CRS_DEP_TIME" df = Some (ObjCol xs) ->
  existsb is_some xs = true ->
  engineer np df
  = Raise (mk_exn TypeError
             "unsupported operand type(s) for //: 'str' and 'int'").
Proof.
  intros Hget Htext. unfold engineer, time_features, dep_time_features.
  assert (G : get_col "CRS_DEP_TIME"
                (fill_missing_numeric np (rename column_mapping df))
              = Some (ObjCol xs)).
  { rewrite time_column_input by not_listed. now rewrite Hget. }
  rewrite (has_col_of_get _ _ _ G), (getitem_get _ _ _ G). simpl.
  now rewrite Htext.
Qed.

(** A scheduled departure time without any value: the cast raises. *)
Lemma engineer_empty_time (df : frame) (xs : list (option Q)) :
  get_col "CRS_DEP_TIME" df = Some (NumCol xs) ->
  xs <> [] -> present xs = [] ->
  engineer np df
  = Raise (mk_exn ValueError
             "Cannot convert non-finite values (NA or inf) to integer").
Proof.
  intros Hget Hne Hnone. unfold engineer, time_features, dep_time_features.
  assert (G : get_col "CRS_DEP_TIME"
                (fill_missing_numeric np (rename column_mapping df))
              = Some (NumCol xs)).
  { rewrite time_column_input by not_listed. rewrite Hget. simpl.
    now rewrite (median_absent xs Hnone), fillna_None. }
  rewrite (has_col_of_get _ _ _ G), (getitem_get _ _ _ G). simpl.
  unfold astype_int8. rewrite is_none_map.
  now rewrite (missing_everywhere xs Hne Hnone).
Qed.

(** ** Arithmetic of the time values *)

Lemma Qabs_between (t lo hi : Q) :
  - exact_bound <= lo -> hi <= exact_bound -> lo <= t -> t <= hi ->
  Qabs t <= exact_bound.
Proof.
  intros Hlo Hhi L U. apply Qabs_Qle_condition. split; lra.
Qed.

Lemma floor_whole (z : Z) :
  Qfloor (inject_Z z / 100) = (z / 100)%Z.
Proof.
  unfold Qdiv, Qmult, Qinv, inject_Z, Qfloor. simpl. now rewrite Z.mul_1_r.
Qed.

Lemma floordiv_floor (t : Q) :
  Qabs t <= exact_bound ->
  floordiv np t 100 == inject_Z (Qfloor (t / 100)).
Proof. apply floor_divide_exact. Qed.

Lemma floordiv_int (t : Q) (z : Z) :
  t == inject_Z z -> (Z.abs z <= 12800)%Z ->
  floordiv np t 100 == inject_Z (z / 100).
Proof.
  intros E H. rewrite floordiv_floor.
  - rewrite (Qfloor_comp _ (inject_Z z / 100)) by now rewrite E.
    now rewrite floor_whole.
  - apply (Qabs_between t (inject_Z (-12800)) (inject_Z 12800));
      try (vm_compute; discriminate); rewrite E; rewrite <- Zle_Qle; lia.
Qed.

Lemma pymod_int (t : Q) (z : Z) :
  t == inject_Z z -> pymod np t 100 == inject_Z (z mod 100).
Proof. apply remainder_whole. Qed.

Lemma Qtrunc_int (q : Q) (k : Z) : q == inject_Z k -> Qtrunc q = k.
Proof.
  intro E. unfold Qtrunc. destruct (Qle_bool 0 q).
  - rewrite (Qfloor_comp _ _ E). apply Qfloor_Z.
  - rewrite (Qceiling_comp _ _ E). apply Qceiling_Z.
Qed.

Lemma to_int8_int (q : Q) (k : Z) :
  q == inject_Z k -> (-128 <= k <= 127)%Z -> to_int8 np q = inject_Z k.
Proof.
  intros E H. unfold to_int8. f_equal.
  rewrite int8_exact.
  - now apply Qtrunc_int.
  - rewrite E. change (-129) with (inject_Z (-129)). rewrite <- Zlt_Qlt. lia.
  - rewrite E. change 128 with (inject_Z 128). rewrite <- Zlt_Qlt. lia.
Qed.

Lemma to_int8_range (q : Q) : -128 <= to_int8 np q /\ to_int8 np q <= 127.
Proof.
  unfold to_int8. destruct (int8_range np q) as [L U].
  split.
  - change (-128) with (inject_Z (-128)). now rewrite <- Zle_Qle.
  - change 127 with (inject_Z 127). now rewrite <- Zle_Qle.
Qed.

Lemma hour_in_range (t : Q) (z : Z) :
  t == inject_Z z -> (-12800 <= z < 12800)%Z ->
  to_int8 np (floordiv np t 100) = inject_Z (z / 100).
Proof.
  intros E H. apply to_int8_int.
  - apply floordiv_int; [exact E | lia].
  - split.
    + apply Z.div_le_lower_bound; lia.
    + apply Z.lt_succ_r. apply Z.div_lt_upper_bound; lia.
Qed.

Lemma hour_out_of_range (t : Q) (z : Z) :
  ~ (-12800 <= z < 12800)%Z ->
  ~ to_int8 np (floordiv np t 100) == inject_Z (z / 100).
Proof.
  intros H E. destruct (to_int8_range (floordiv np t 100)) as [L U].
  rewrite E in L, U.
  change (-128) with (inject_Z (-128)) in L.
  change 127 with (inject_Z 127) in U.
  rewrite <- Zle_Qle in L, U.
  apply H. split.
  - destruct (Z_lt_le_dec z (-12800)) as [C | C]; [| exact C].
    exfalso.
    assert (z / 100 < -128)%Z by (apply Z.div_lt_upper_bound; lia). lia.
  - destruct (Z_lt_le_dec z 12800) as [C | C]; [exact C |].
    exfalso.
    assert (128 <= z / 100)%Z by (apply Z.div_le_lower_bound; lia). lia.
Qed.

Lemma minute_of_int (t : Q) (z : Z) :
  t == inject_Z z -> to_int8 np (pymod np t 100) = inject_Z (z mod 100).
Proof.
  intro E. apply to_int8_int; [now apply pymod_int |].
  pose proof (Z.mod_pos_bound z 100). lia.
Qed.

Lemma Qtrunc_nonneg (q : Q) (k : Z) :
  0 <= q -> q <= inject_Z k -> (0 <= Qtrunc q <= k)%Z.
Proof.
  intros L U. unfold Qtrunc.
  assert (H : Qle_bool 0 q = true) by now apply Qle_bool_iff.
  rewrite H. split.
  - change 0%Z with (Qfloor 0). now apply Qfloor_resp_le.
  - rewrite <- (Qfloor_Z k). now apply Qfloor_resp_le.
Qed.

Lemma minute_range (t : Q) :
  0 <= to_int8 np (pymod np t 100) /\ to_int8 np (pymod np t 100) <= 100.
Proof.
  destruct (remainder_range np t) as [L U]. fold (pymod np t 100) in L, U.
  destruct (Qtrunc_nonneg (pymod np t 100) 100 L U) as [L' U'].
  unfold to_int8. rewrite int8_exact by lra.
  split.
  - change 0 with (inject_Z 0). now rewrite <- Zle_Qle.
  - change 100 with (inject_Z 100). now rewrite <- Zle_Qle.
Qed.

(** The encodings lie on the unit interval, and are 0 and 1 at 0. *)
Lemma sine_range (x : Q) (d : Z) : -1 <= sine np x d /\ sine np x d <= 1.
Proof.
  unfold sine. destruct (sin_range np (angle np x d)) as [L U]. split.
  - rewrite <- (float32_whole np (-1) (-1)) by (reflexivity || (simpl; lia)).
    now apply float32_mono.
  - rewrite <- (float32_whole np 1 1) by (reflexivity || (simpl; lia)).
    now apply float32_mono.
Qed.

Lemma cosine_range (x : Q) (d : Z) : -1 <= cosine np x d /\ cosine np x d <= 1.
Proof.
  unfold cosine. destruct (cos_range np (angle np x d)) as [L U]. split.
  - rewrite <- (float32_whole np (-1) (-1)) by (reflexivity || (simpl; lia)).
    now apply float32_mono.
  - rewrite <- (float32_whole np 1 1) by (reflexivity || (simpl; lia)).
    now apply float32_mono.
Qed.

Lemma angle_zero (x : Q) (d : Z) : x == 0 -> d <> 0%Z -> angle np x d == 0.
Proof.
  intros E Hd. unfold angle. apply divide_zero; [| exact Hd].
  now apply multiply_zero.
Qed.

Lemma encoding_at_zero (x : Q) (d : Z) :
  x == 0 -> d <> 0%Z -> sine np x d == 0 /\ cosine np x d == 1.
Proof.
  intros E Hd. pose proof (angle_zero x d E Hd) as A. unfold sine, cosine.
  split.
  - apply (float32_whole np _ 0); [| simpl; lia]. now apply sin_zero.
  - apply (float32_whole np _ 1); [| simpl; lia]. now apply cos_zero.
Qed.

Lemma calendar_rounds_keep (d1 d2 d3 : frame) (c : string) :
  calendar_feature np d1 "MONTH" = Ok d2 ->
  calendar_feature np d2 "DAY_OF_WEEK" = Ok d3 ->
  ~ In c calendar_labels ->
  get_col c d3 = get_col c d1.
Proof.
  intros H1 H2 Hnot.
  rewrite (select_get _ _ _ (calendar_feature_other d2 d3 "DAY_OF_WEEK" c H2
             ltac:(other_label Hnot) ltac:(other_label Hnot))).
  apply select_get.
  apply (calendar_feature_other d1 d2 "MONTH" c H1);
    other_label Hnot.
Qed.

Lemma dep_time_column_reaches (d1 d2 d3 : frame) (c : string) (x : column) :
  calendar_feature np d1 "MONTH" = Ok d2 ->
  calendar_feature np d2 "DAY_OF_WEEK" = Ok d3 ->
  In c dep_time_labels ->
  get_col c d1 = Some x ->
  get_col c (one_hot_operating_airline np (convert_categorical d3)) = Some x.
Proof.
  intros H1 H2 Hin Hget.
  assert (Hc : ~ In c calendar_labels /\ ~ In c CATEGORICAL_COLS_FOR_XGB
               /\ c <> "OPERATING_AIRLINE").
  { simpl in Hin.
    repeat match type of Hin with
           | _ \/ _ => destruct Hin as [Hin | Hin]
           end; try contradiction; subst c;
      (split; [not_listed | split; [not_listed | labels_differ]]). }
  destruct Hc as (Hcal & Hcat & Hoa).
  apply late_steps_keep; try assumption.
  now rewrite (calendar_rounds_keep d1 d2 d3 c H1 H2 Hcal).
Qed.

Lemma map_option_map_Some {A B} (f : A -> B) (l : list A) :
  map (option_map f) (map Some l) = map Some (map f l).
Proof. rewrite !map_map. reflexivity. Qed.

Lemma calendar_column (d0 d1 d2 d3 : frame) (col : string)
  (ms : list (option Q)) :
  dep_time_features np d0 = Ok d1 ->
  calendar_feature np d1 "MONTH" = Ok d2 ->
  calendar_feature np d2 "DAY_OF_WEEK" = Ok d3 ->
  col = "MONTH" \/ col = "DAY_OF_WEEK" ->
  get_col col d0 = Some (NumCol ms) ->
  let div := if String.eqb col "MONTH" then 12%Z else 7%Z in
  let eng := one_hot_operating_airline np (convert_categorical d3) in
  get_col (col ++ "_SIN") eng
  = Some (NumCol (map (option_map (fun q => sine np q div)) ms)) /\
  get_col (col ++ "_COS") eng
  = Some (NumCol (map (option_map (fun q => cosine np q div)) ms)).
Proof.
  intros H0 H1 H2 Hcol Hget. cbv zeta.
  assert (G1 : get_col col d1 = Some (NumCol ms)).
  { rewrite <- Hget. apply select_get.
    apply (dep_time_features_other d0 d1 col H0).
    destruct Hcol; subst col; not_listed. }
  destruct Hcol; subst col.
  - rewrite (calendar_feature_numeric d1 "MONTH" ms G1) in H1
      by labels_differ.
    inversion H1 as [Hd2]. clear H1.
    assert (S : get_col "MONTH_SIN" d3
                = Some (NumCol (map (option_map (fun q => sine np q 12)) ms))
                /\ get_col "MONTH_COS" d3
                = Some (NumCol (map (option_map (fun q => cosine np q 12)) ms))).
    { split.
      - rewrite (select_get _ _ _ (calendar_feature_other d2 d3 "DAY_OF_WEEK"
                   "MONTH_SIN" H2 ltac:(labels_differ) ltac:(labels_differ))).
        rewrite <- Hd2. simpl.
        rewrite get_set_other by labels_differ. apply get_set_same.
      - rewrite (select_get _ _ _ (calendar_feature_other d2 d3 "DAY_OF_WEEK"
                   "MONTH_COS" H2 ltac:(labels_differ) ltac:(labels_differ))).
        rewrite <- Hd2. simpl. apply get_set_same. }
    destruct S as [S1 S2]. simpl.
    split; apply late_steps_keep; try assumption;
      first [not_listed | labels_differ].
  - assert (G2 : get_col "DAY_OF_WEEK" d2 = Some (NumCol ms)).
    { rewrite <- G1. apply select_get.
      apply (calendar_feature_other d1 d2 "MONTH" "DAY_OF_WEEK" H1);
        labels_differ. }
    rewrite (calendar_feature_numeric d2 "DAY_OF_WEEK" ms G2) in H2
      by labels_differ.
    inversion H2 as [Hd3]. simpl.
    split; apply late_steps_keep;
      first [not_listed | labels_differ | idtac].
    + rewrite get_set_other by labels_differ. apply get_set_same.
    + apply get_set_same.
Qed.

(** C8 (as amended): once the engineering steps return on an upload with
    a numeric scheduled-departure-time column, every time value t (after
    the median imputation, none left missing) gives DEP_HOUR = t // 100
    and DEP_MINUTE = t % 100, each cast to a signed 8-bit integer, and the
    columns DEP_HOUR_SIN/COS and DEP_MIN_SIN/COS hold the sine and the
    cosine of 2 pi h / 24 and of 2 pi m / 60 at these values, as 32-bit
    floats; numeric MONTH and DAY_OF_WEEK columns give MONTH_SIN/COS over
    12 and DAY_OF_WEEK_SIN/COS over 7.  For a whole time value z the
    minute is z mod 100, and the hour is z / 100 exactly when
    -12800 <= z < 12800, as for every hhmm time: beyond, the cast gives
    another value of the 8-bit range.  Whatever the time value, the hour
    lies in -128..127 and the minute in 0..100.  Every encoded value lies
    between -1 and 1, and the value 0 is encoded as sine 0 and cosine 1;
    the angle of a value x over a period d is the product of the double
    nearest 2 pi with x, divided by d.  On a time column that holds text,
    and on one without any value, the steps raise. *)
Theorem time_encoding :
  forall df : frame,
    (forall eng xs,
        engineer np df = Ok eng ->
        get_col "CRS_DEP_TIME" df = Some (NumCol xs) ->
        exists ts,
          all_present (fillna (median np xs) xs) ts /\
          let hour := map (fun t => to_int8 np (floordiv np t 100)) ts in
          let minute := map (fun t => to_int8 np (pymod np t 100)) ts in
          get_col "DEP_HOUR" eng = Some (NumCol (map Some hour)) /\
          get_col "DEP_MINUTE" eng = Some (NumCol (map Some minute)) /\
          get_col "DEP_HOUR_SIN" eng
          = Some (NumCol (map (fun h => Some (sine np h 24)) hour)) /\
          get_col "DEP_HOUR_COS" eng
          = Some (NumCol (map (fun h => Some (cosine np h 24)) hour)) /\
          get_col "DEP_MIN_SIN" eng
          = Some (NumCol (map (fun m => Some (sine np m 60)) minute)) /\
          get_col "DEP_MIN_COS" eng
          = Some (NumCol (map (fun m => Some (cosine np m 60)) minute))) /\
    (forall eng ms,
        engineer np df = Ok eng ->
        get_col "MONTH" df = Some (NumCol ms) ->
        let months := fillna (median np ms) ms in
        get_col "MONTH_SIN" eng
        = Some (NumCol (map (option_map (fun q => sine np q 12)) months)) /\
        get_col "MONTH_COS" eng
        = Some (NumCol (map (option_map (fun q => cosine np q 12)) months))) /\
    (forall eng ds,
        engineer np df = Ok eng ->
        get_col "DAY_OF_WEEK" df = Some (NumCol ds) ->
        let days := fillna (median np ds) ds in
        get_col "DAY_OF_WEEK_SIN" eng
        = Some (NumCol (map (option_map (fun q => sine np q 7)) days)) /\
        get_col "DAY_OF_WEEK_COS" eng
        = Some (NumCol (map (option_map (fun q => cosine np q 7)) days))) /\
    (forall (t : Q) (z : Z),
        t == inject_Z z ->
        (to_int8 np (floordiv np t 100) == inject_Z (z / 100)
         <-> (-12800 <= z < 12800)%Z) /\
        to_int8 np (pymod np t 100) == inject_Z (z mod 100)) /\
    (forall t : Q,
        (-128 <= to_int8 np (floordiv np t 100) /\
         to_int8 np (floordiv np t 100) <= 127) /\
        (0 <= to_int8 np (pymod np t 100) /\
         to_int8 np (pymod np t 100) <= 100)) /\
    (forall (x : Q) (d : Z),
        sine np x d
        = float32 np (sin np (divide np (multiply np two_pi x) d)) /\
        cosine np x d
        = float32 np (cos np (divide np (multiply np two_pi x) d)) /\
        (-1 <= sine np x d /\ sine np x d <= 1) /\
        (-1 <= cosine np x d /\ cosine np x d <= 1) /\
        (x == 0 -> d <> 0%Z -> sine np x d == 0 /\ cosine np x d == 1)) /\
    (628318530717958 # 100000000000000 < two_pi /\
     two_pi < 628318530717959 # 100000000000000) /\
    (forall xs,
        get_col "CRS_DEP_TIME" df = Some (ObjCol xs) ->
        existsb is_some xs = true ->
        engineer np df
        = Raise (mk_exn TypeError
                   "unsupported operand type(s) for //: 'str' and 'int'")) /\
    (forall xs,
        get_col "CRS_DEP_TIME" df = Some (NumCol xs) ->
        xs <> [] -> present xs = [] ->
        engineer np df
        = Raise (mk_exn ValueError
                   "Cannot convert non-finite values (NA or inf) to integer")).
Proof.
  intro df.
  split; [| split; [| split; [| split; [| split; [| split; [| split;
    [| split]]]]]]].
  - intros eng xs Heng Hget.
    destruct (engineer_inv df eng Heng) as (d1 & d2 & d3 & H0 & H1 & H2 & ->).
    apply get_numeric_input in Hget; [| not_listed].
    destruct (dep_time_features_numeric _ _ _ Hget H0) as [Hfull Hd1].
    destruct (no_none_all_present _ Hfull) as [ts Hts].
    exists ts. split; [exact Hts |]. cbv zeta in *.
    rewrite Hts in Hd1. rewrite !map_option_map_Some in Hd1.
    rewrite !map_map in Hd1.
    repeat split;
      (apply (dep_time_column_reaches d1 d2 d3); try assumption;
       [simpl; tauto |]);
      rewrite Hd1;
      repeat (rewrite get_set_other by labels_differ);
      rewrite get_set_same; rewrite ?map_map; reflexivity.
  - intros eng ms Heng Hget. cbv zeta.
    destruct (engineer_inv df eng Heng) as (d1 & d2 & d3 & H0 & H1 & H2 & ->).
    apply get_numeric_input in Hget; [| not_listed].
    apply (calendar_column _ d1 d2 d3 "MONTH" _ H0 H1 H2); auto.
  - intros eng ds Heng Hget. cbv zeta.
    destruct (engineer_inv df eng Heng) as (d1 & d2 & d3 & H0 & H1 & H2 & ->).
    apply get_numeric_input in Hget; [| not_listed].
    apply (calendar_column _ d1 d2 d3 "DAY_OF_WEEK" _ H0 H1 H2); auto.
  - intros t z E. split; [split |].
    + intro Hh.
      destruct (Z_le_dec (-12800) z) as [L |];
        [destruct (Z_lt_dec z 12800) as [U |]; [lia |] |];
        exfalso; apply (hour_out_of_range t z); [lia | exact Hh | lia | exact Hh].
    + intro H. now rewrite (hour_in_range t z E H).
    + now rewrite (minute_of_int t z E).
  - intro t. split; [apply to_int8_range | apply minute_range].
  - intros x d.
    split; [reflexivity | split; [reflexivity |]].
    split; [apply sine_range | split; [apply cosine_range |]].
    apply encoding_at_zero.
  - split; reflexivity.
  - apply engineer_text_time.
  - apply engineer_empty_time.
Qed.



(** ** The upload endpoint *)

(** The run of [predict_csv] once the file is read, the feature names are
    loaded, the matrix is built, the model is loaded and has answered. *)
Lemma predict_csv_run (w : world) (st : state) (df : frame)
  (F : list string) (X : frame) (m : model) (y : list (Q * Q * Q)) :
  feature_names_txt w = Some F ->
  transform_data_for_inference np df F = Ok X ->
  joblib_load w = Ok m ->
  m X = Ok y ->
  let pdf := predictions_of np df y in
  let adf := detect_anomalies pdf in
  predict_csv np w (Ok df) st
  = match row_results pdf adf 0 (pred_rows pdf) with
    | Ok results => (Ok (UploadSuccess results), mk_state df pdf adf)
    | Raise e =>
        (if isinstance_Exception e then Ok (UploadError (exn_str e))
         else Raise e,
         mk_state df pdf adf)
    end.
Proof.
  intros HF HX Hm Hy. cbv zeta.
  unfold predict_csv, predict_csv_try, bind, lift, get, ret,
    assign_uploaded_df, assign_predictions_df, assign_anomalies_df.
  simpl. rewrite HF. simpl. rewrite HX, Hm, Hy.
  unfold predictions_of.
  destruct (has_col TAIL_NUMBER_COL df) eqn:Htail.
  - destruct (get_col TAIL_NUMBER_COL df) as [c |] eqn:Hc; simpl.
    + destruct (row_results _ _ 0 _) as [rs | e]; [reflexivity |].
      now destruct (isinstance_Exception e).
    + destruct (row_results _ _ 0 _) as [rs | e]; [reflexivity |].
      now destruct (isinstance_Exception e).
  - assert (Hc : get_col TAIL_NUMBER_COL df = None).
    { destruct (get_col TAIL_NUMBER_COL df) eqn:Hc; [| reflexivity].
      apply has_col_of_get in Hc. congruence. }
    rewrite Hc. simpl.
    destruct (row_results _ _ 0 _) as [rs | e]; [reflexivity |].
    now destruct (isinstance_Exception e).
Qed.

(** A success envelope comes only out of a complete run. *)
Lemma predict_csv_success_inv (w : world) (file : result frame)
  (st st' : state) (results : list flight_info) :
  predict_csv np w file st = (Ok (UploadSuccess results), st') ->
  exists df F X m y,
    file = Ok df /\
    feature_names_txt w = Some F /\
    transform_data_for_inference np df F = Ok X /\
    joblib_load w = Ok m /\
    m X = Ok y /\
    let pdf := predictions_of np df y in
    st' = mk_state df pdf (detect_anomalies pdf) /\
    row_results pdf (detect_anomalies pdf) 0 (pred_rows pdf) = Ok results.
Proof.
  intro H.
  destruct file as [df | e].
  2:{ unfold predict_csv, predict_csv_try, bind, lift in H. simpl in H.
      destruct (isinstance_Exception e); discriminate H. }
  destruct (feature_names_txt w) as [F |] eqn:HF.
  2:{ unfold predict_csv, predict_csv_try, bind, lift, assign_uploaded_df in H.
      simpl in H. rewrite HF in H. simpl in H. discriminate H. }
  destruct (transform_data_for_inference np df F) as [X | e] eqn:HX.
  2:{ unfold predict_csv, predict_csv_try, bind, lift, get,
        assign_uploaded_df in H.
      simpl in H. rewrite HF in H. simpl in H. rewrite HX in H.
      destruct (isinstance_Exception e); discriminate H. }
  destruct (joblib_load w) as [m | e] eqn:Hm.
  2:{ unfold predict_csv, predict_csv_try, bind, lift, get,
        assign_uploaded_df in H.
      simpl in H. rewrite HF in H. simpl in H. rewrite HX, Hm in H.
      destruct (isinstance_Exception e); discriminate H. }
  destruct (m X) as [y | e] eqn:Hy.
  2:{ unfold predict_csv, predict_csv_try, bind, lift, get,
        assign_uploaded_df in H.
      simpl in H. rewrite HF in H. simpl in H. rewrite HX, Hm, Hy in H.
      destruct (isinstance_Exception e); discriminate H. }
  rewrite (predict_csv_run w st df F X m y HF HX Hm Hy) in H.
  exists df, F, X, m, y. cbv zeta in *.
  destruct (row_results _ _ 0 _) as [rs | e].
  - inversion H. auto 10.
  - destruct (isinstance_Exception e); discriminate H.
Qed.

(** ** The exceptions the aligner raises are [Exception]s *)

Create HintDb raises.

Lemma getitem_raises (n : string) (df : frame) (e : exn) :
  getitem n df = Raise e -> isinstance_Exception e = true.
Proof.
  unfold getitem. destruct (get_col n df); intro H; inversion H. reflexivity.
Qed.

Lemma floordiv_col_raises (c : column) (d : Z) (e : exn) :
  floordiv_col np c d = Raise e -> isinstance_Exception e = true.
Proof.
  destruct c as [xs | xs | c]; simpl; try destruct (existsb is_some xs);
    intro H; inversion H; reflexivity.
Qed.

Lemma mod_col_raises (c : column) (d : Z) (e : exn) :
  mod_col np c d = Raise e -> isinstance_Exception e = true.
Proof.
  destruct c as [xs | xs | c]; simpl; try destruct (existsb is_some xs);
    intro H; inversion H; reflexivity.
Qed.

Lemma astype_int8_raises (xs : list (option Q)) (e : exn) :
  astype_int8 np xs = Raise e -> isinstance_Exception e = true.
Proof.
  unfold astype_int8. destruct (existsb is_none xs);
    intro H; inversion H; reflexivity.
Qed.

Lemma angle_operand_raises (c : column) (e : exn) :
  angle_operand c = Raise e -> isinstance_Exception e = true.
Proof.
  destruct c as [xs | xs | c]; simpl; try destruct (existsb is_some xs);
    try destruct xs; intro H; inversion H; reflexivity.
Qed.

Lemma sin_encode_raises (c : column) (d : Z) (e : exn) :
  sin_encode np c d = Raise e -> isinstance_Exception e = true.
Proof.
  unfold sin_encode. destruct (angle_operand c) eqn:E; simpl; intro H;
    inversion H; subst. now apply angle_operand_raises in E.
Qed.

Lemma cos_encode_raises (c : column) (d : Z) (e : exn) :
  cos_encode np c d = Raise e -> isinstance_Exception e = true.
Proof.
  unfold cos_encode. destruct (angle_operand c) eqn:E; simpl; intro H;
    inversion H; subst. now apply angle_operand_raises in E.
Qed.

#[local] Hint Resolve getitem_raises floordiv_col_raises mod_col_raises
  astype_int8_raises sin_encode_raises cos_encode_raises : raises.

Ltac raise_inv H :=
  repeat match type of H with
         | rbind ?r _ = Raise _ =>
             let a := fresh "a" in
             let E := fresh "E" in
             destruct r as [a | ?] eqn:E; simpl in H;
             [| inversion H; subst; solve [eauto with raises]]
         end.

Lemma dep_time_features_raises (df : frame) (e : exn) :
  dep_time_features np df = Raise e -> isinstance_Exception e = true.
Proof.
  unfold dep_time_features. intro H.
  destruct (has_col "CRS_DEP_TIME" df); [| discriminate H].
  raise_inv H. discriminate H.
Qed.

Lemma calendar_feature_raises (df : frame) (col : string) (e : exn) :
  calendar_feature np df col = Raise e -> isinstance_Exception e = true.
Proof.
  unfold calendar_feature. intro H.
  destruct (has_col col df); [| discriminate H].
  raise_inv H. discriminate H.
Qed.

#[local] Hint Resolve dep_time_features_raises calendar_feature_raises : raises.

Lemma engineer_raises (df : frame) (e : exn) :
  engineer np df = Raise e -> isinstance_Exception e = true.
Proof.
  unfold engineer. intro H.
  destruct (time_features np _) as [d | e'] eqn:E; simpl in H;
    [discriminate H |].
  inversion H; subst. unfold time_features in E. raise_inv E.
  eauto with raises.
Qed.

Lemma align_loop_raises (eng : frame) (F : list string) (e : exn) :
  forall fin, align_loop eng fin F = Raise e -> isinstance_Exception e = true.
Proof.
  induction F as [| f F IH]; intros fin H; simpl in H; [discriminate H |].
  destruct (align_feature eng fin f) as [fin' | e'] eqn:E; simpl in H.
  - eauto.
  - inversion H; subst. unfold align_feature in E.
    destruct (has_col f eng); [| discriminate E].
    destruct (select f eng) as [| c [| c' s]]; inversion E; reflexivity.
Qed.

Lemma transform_raises (df : frame) (F : list string) (e : exn) :
  transform_data_for_inference np df F = Raise e ->
  isinstance_Exception e = true.
Proof.
  rewrite transform_engineer. intro H.
  destruct (engineer np df) as [eng | e'] eqn:E; simpl in H.
  - unfold align in H. now apply align_loop_raises in H.
  - inversion H; subst. now apply engineer_raises in E.
Qed.

Lemma row_results_raises (pdf : pred_frame) (adf : anom_frame)
  (rows : list pred_row) (e : exn) :
  forall i, row_results pdf adf i rows = Raise e ->
            isinstance_Exception e = true.
Proof.
  induction rows as [| r rows IH]; intros i H; simpl in H; [discriminate H |].
  destruct (row_result pdf adf i r) as [fi | e'] eqn:E; simpl in H.
  - destruct (row_results pdf adf (S i) rows) as [rs | e''] eqn:E'; simpl in H;
      [discriminate H |].
    inversion H; subst. eauto.
  - inversion H; subst. unfold row_result, anomalies_where in E.
    destruct (anom_tails adf); simpl in E.
    + destruct (map _ _); simpl in E; inversion E; reflexivity.
    + inversion E; reflexivity.
Qed.

Ltac run_upload :=
  unfold predict_csv, predict_csv_try, bind, lift, get, ret,
    assign_uploaded_df, assign_predictions_df, assign_anomalies_df;
  simpl.

(** C6 (as amended): when the feature-names file is absent
    [load_feature_names] raises FileNotFoundError, and [predict_csv], which
    calls it inside its [try], catches it like any other exception: the
    request returns the error envelope carrying the message, nothing leaves
    the endpoint.  The same holds for an exception of reading the file, of
    the aligner, of loading the model, of the prediction and of building
    the results; only what is not an [Exception] leaves the endpoint. *)
Theorem upload_exceptions_become_envelopes :
  forall (w : world) (st : state),
    (forall df,
        feature_names_txt w = None ->
        load_feature_names "feature_names.txt" (feature_names_txt w)
        = Raise (mk_exn FileNotFoundError
                   "Feature names file 'feature_names.txt' not found.") /\
        predict_csv np w (Ok df) st
        = (Ok (UploadError
                 "Feature names file 'feature_names.txt' not found."),
           mk_state df (predictions_df st) (anomalies_df st))) /\
    (forall e,
        isinstance_Exception e = true ->
        predict_csv np w (Raise e) st = (Ok (UploadError (exn_str e)), st)) /\
    (forall df F e,
        feature_names_txt w = Some F ->
        transform_data_for_inference np df F = Raise e ->
        predict_csv np w (Ok df) st
        = (Ok (UploadError (exn_str e)),
           mk_state df (predictions_df st) (anomalies_df st))) /\
    (forall df F X e,
        feature_names_txt w = Some F ->
        transform_data_for_inference np df F = Ok X ->
        joblib_load w = Raise e ->
        isinstance_Exception e = true ->
        predict_csv np w (Ok df) st
        = (Ok (UploadError (exn_str e)),
           mk_state df (predictions_df st) (anomalies_df st))) /\
    (forall df F X m e,
        feature_names_txt w = Some F ->
        transform_data_for_inference np df F = Ok X ->
        joblib_load w = Ok m ->
        m X = Raise e ->
        isinstance_Exception e = true ->
        predict_csv np w (Ok df) st
        = (Ok (UploadError (exn_str e)),
           mk_state df (predictions_df st) (anomalies_df st))) /\
    (forall df F X m y e,
        feature_names_txt w = Some F ->
        transform_data_for_inference np df F = Ok X ->
        joblib_load w = Ok m ->
        m X = Ok y ->
        let pdf := predictions_of np df y in
        row_results pdf (detect_anomalies pdf) 0 (pred_rows pdf) = Raise e ->
        predict_csv np w (Ok df) st
        = (Ok (UploadError (exn_str e)),
           mk_state df pdf (detect_anomalies pdf))) /\
    (forall file e st',
        predict_csv np w file st = (Raise e, st') ->
        isinstance_Exception e = false).
Proof.
  intros w st. repeat split.
  - now rewrite H.
  - run_upload. now rewrite H.
  - intros e He. run_upload. now rewrite He.
  - intros df F e HF HX. run_upload. rewrite HF. simpl. rewrite HX.
    now rewrite (transform_raises df F e HX).
  - intros df F X e HF HX Hm He. run_upload. rewrite HF. simpl.
    rewrite HX, Hm. now rewrite He.
  - intros df F X m e HF HX Hm Hy He. run_upload. rewrite HF. simpl.
    rewrite HX, Hm, Hy. now rewrite He.
  - intros df F X m y e HF HX Hm Hy. cbv zeta. intro Hr.
    rewrite (predict_csv_run w st df F X m y HF HX Hm Hy). cbv zeta.
    rewrite Hr. now rewrite (row_results_raises _ _ _ _ _ Hr).
  - intros file e st' H. unfold predict_csv in H.
    destruct (predict_csv_try np w file st) as [[r | e'] s].
    + discriminate H.
    + destruct (isinstance_Exception e') eqn:E; [discriminate H |].
      inversion H; subst. exact E.
Qed.

(** ** Uploads without a [TAIL_NUMBER] column *)

Lemma get_col_absent (n : string) (df : frame) :
  has_col n df = false -> get_col n df = None.
Proof.
  intro H. destruct (get_col n df) eqn:G; [| reflexivity].
  apply has_col_of_get in G. congruence.
Qed.

Lemma predictions_of_no_tail (df : frame) (y : list (Q * Q * Q)) :
  has_col TAIL_NUMBER_COL df = false ->
  predictions_of np df y = mk_pred_frame None (map (with_total np) y).
Proof.
  intro H. unfold predictions_of. now rewrite (get_col_absent _ _ H).
Qed.

Lemma row_results_no_tail (rows all : list pred_row) (risks : list risk_row)
  (i : nat) :
  row_results (mk_pred_frame None all) (mk_anom_frame None risks) i rows
  = match rows with
    | [] => Ok []
    | _ => Raise (key_error TAIL_NUMBER_COL)
    end.
Proof. destruct rows; reflexivity. Qed.

Lemma upload_without_tail_run (w : world) (df : frame) (st : state)
  (F : list string) (X : frame) (m : model) (y : list (Q * Q * Q)) :
  has_col TAIL_NUMBER_COL df = false ->
  feature_names_txt w = Some F ->
  transform_data_for_inference np df F = Ok X ->
  joblib_load w = Ok m ->
  m X = Ok y ->
  let pdf := mk_pred_frame None (map (with_total np) y) in
  predict_csv np w (Ok df) st
  = (match y with
     | [] => Ok (UploadSuccess [])
     | _ => Ok (UploadError "'TAIL_NUMBER'")
     end,
     mk_state df pdf (detect_anomalies pdf)).
Proof.
  intros Htail HF HX Hm Hy. cbv zeta.
  rewrite (predict_csv_run w st df F X m y HF HX Hm Hy). cbv zeta.
  rewrite (predictions_of_no_tail df y Htail).
  unfold detect_anomalies at 1 3. simpl pred_tails. simpl pred_rows.
  rewrite row_results_no_tail.
  now destruct y.
Qed.

(** C9 (as amended): an upload whose CSV has no TAIL_NUMBER column and
    for which the model answers at least one prediction row returns the
    error envelope with the message of KeyError('TAIL_NUMBER'), raised by
    the anomaly lookup of the first row, after the prediction and anomaly
    frames have been stored; with no prediction row the loop does not run
    and the success envelope holds the empty list.  In no case does such an
    upload return a success envelope with an entry, so none keyed by a
    Flight_i identifier. *)
Theorem upload_without_tail_number :
  forall (w : world) (df : frame) (st : state),
    has_col TAIL_NUMBER_COL df = false ->
    (forall F X m y,
        feature_names_txt w = Some F ->
        transform_data_for_inference np df F = Ok X ->
        joblib_load w = Ok m ->
        m X = Ok y ->
        let pdf := mk_pred_frame None (map (with_total np) y) in
        (y <> [] ->
         predict_csv np w (Ok df) st
         = (Ok (UploadError "'TAIL_NUMBER'"),
            mk_state df pdf (detect_anomalies pdf))) /\
        (y = [] ->
         predict_csv np w (Ok df) st
         = (Ok (UploadSuccess []), mk_state df pdf (detect_anomalies pdf)))) /\
    (forall results st',
        predict_csv np w (Ok df) st = (Ok (UploadSuccess results), st') ->
        results = []).
Proof.
  intros w df st Htail. split.
  - intros F X m y HF HX Hm Hy. cbv zeta.
    rewrite (upload_without_tail_run w df st F X m y Htail HF HX Hm Hy).
    split; intro Hy'.
    + destruct y as [| p y]; [congruence | reflexivity].
    + subst y. reflexivity.
  - intros results st' H.
    destruct (predict_csv_success_inv w (Ok df) st st' results H)
      as (df' & F & X & m & y & Hfile & _ & _ & _ & _ & Hrun).
    inversion Hfile; subst df'. cbv zeta in Hrun. destruct Hrun as [_ Hrun].
    rewrite (predictions_of_no_tail df y Htail) in Hrun.
    unfold detect_anomalies in Hrun. simpl in Hrun.
    rewrite row_results_no_tail in Hrun.
    destruct (map (with_total np) y); inversion Hrun. reflexivity.
Qed.

(** ** The lookup endpoint *)

Lemma cell_eqb_CStr (t : cell) (id : string) :
  cell_eqb t (CStr id) = true <-> t = CStr id.
Proof.
  destruct t as [q | s |]; simpl; split; intro H; try discriminate.
  - apply String.eqb_eq in H. now subst.
  - inversion H. apply String.eqb_refl.
Qed.

Lemma row_result_with_tails (T : list cell) (R : list pred_row)
  (A : list risk_row) (i : nat) (row : pred_row) (fi : flight_info) :
  row_result (mk_pred_frame (Some T) R) (mk_anom_frame (Some T) A) i row
  = Ok fi ->
  exists a,
    first_item (map (fun tr => mk_anomalies_record (fst tr) (snd tr))
                    (matching_rows (nth i T CNaN) T A)) = Ok a /\
    fi = info_of (nth i T CNaN) row a.
Proof.
  unfold row_result, anomalies_where. simpl. intro H.
  destruct (first_item _) as [a |] eqn:E; simpl in H; [| discriminate H].
  exists a. split; [reflexivity |]. now inversion H.
Qed.

(** The first result of the bulk response that carries the identifier
    comes from the first row of [predictions_df] that carries it. *)
Lemma first_match_row (T : list cell) (R : list pred_row)
  (A : list risk_row) (id : string) :
  forall (before : list flight_info) (rows : list pred_row) (i : nat)
         (Ts : list cell) (r : flight_info) (after : list flight_info),
    row_results (mk_pred_frame (Some T) R) (mk_anom_frame (Some T) A) i rows
    = Ok (before ++ r :: after)%list ->
    (forall k, nth (i + k) T CNaN = nth k Ts CNaN) ->
    fi_TAIL_NUMBER r = CStr id ->
    (forall r', In r' before -> fi_TAIL_NUMBER r' <> CStr id) ->
    exists row rest a,
      matching_rows (CStr id) Ts rows = (CStr id, row) :: rest /\
      first_item (map (fun tr => mk_anomalies_record (fst tr) (snd tr))
                      (matching_rows (CStr id) T A)) = Ok a /\
      r = info_of (CStr id) row a.
Proof.
  induction before as [| b before IH];
    intros rows i Ts r after Hrun HTs Hr Hbefore.
  - destruct rows as [| row rows]; simpl in Hrun; [discriminate Hrun |].
    destruct (row_result _ _ i row) as [fi |] eqn:E; simpl in Hrun;
      [| discriminate Hrun].
    destruct (row_results _ _ (S i) rows) as [rs |]; simpl in Hrun;
      [| discriminate Hrun].
    inversion Hrun; subst fi rs.
    destruct (row_result_with_tails T R A i row r E) as (a & Ha & Hfi).
    assert (Ht : nth i T CNaN = CStr id) by (rewrite Hfi in Hr; exact Hr).
    rewrite Ht in Ha, Hfi.
    specialize (HTs 0%nat). rewrite Nat.add_0_r, Ht in HTs.
    destruct Ts as [| t0 Ts]; simpl in HTs; [discriminate HTs |].
    subst t0. exists row. eexists. exists a.
    split; [| split; [exact Ha | exact Hfi]].
    simpl. now rewrite String.eqb_refl.
  - destruct rows as [| row rows]; simpl in Hrun; [discriminate Hrun |].
    destruct (row_result _ _ i row) as [fi |] eqn:E; simpl in Hrun;
      [| discriminate Hrun].
    destruct (row_results _ _ (S i) rows) as [rs |] eqn:Ers; simpl in Hrun;
      [| discriminate Hrun].
    inversion Hrun; subst fi rs.
    destruct (row_result_with_tails T R A i row b E) as (a0 & _ & Hb).
    assert (Hne : nth i T CNaN <> CStr id).
    { intro Ht. apply (Hbefore b); [simpl; auto |]. now rewrite Hb. }
    pose proof (HTs 0%nat) as H0. rewrite Nat.add_0_r in H0.
    destruct (IH rows (S i) (tl Ts) r after Ers) as (row' & rest & a & Hm & Ha & Hfi).
    + intro k. replace (S i + k)%nat with (i + S k)%nat by lia.
      rewrite HTs.
      destruct Ts; simpl; [now destruct k | reflexivity].
    + exact Hr.
    + intros r' Hin. apply Hbefore. simpl; auto.
    + exists row', rest, a. split; [| auto].
      destruct Ts as [| t0 Ts]; simpl in *.
      * destruct rows; discriminate Hm.
      * destruct (cell_eqb t0 (CStr id)) eqn:Et; [| exact Hm].
        apply cell_eqb_CStr in Et. congruence.
Qed.

Lemma matching_rows_map {A B} (f : A -> B) (tail : cell) (T : list cell)
  (R : list A) :
  matching_rows tail T (map f R)
  = map (fun tr => (fst tr, f (snd tr))) (matching_rows tail T R).
Proof.
  revert R. induction T as [| t T IH]; intros [| r R]; simpl; try reflexivity.
  destruct (cell_eqb t tail); simpl; now rewrite IH.
Qed.

Lemma lookup_found (df : frame) (T : list cell) (R : list pred_row)
  (id : string) (t : cell) (row : pred_row) (rest : list (cell * pred_row)) :
  matching_rows (CStr id) T R = (t, row) :: rest ->
  let pdf := mk_pred_frame (Some T) R in
  get_flight_info id (mk_state df pdf (detect_anomalies pdf))
  = Ok (LookupInfo (info_of t row (mk_anomalies_record t (risks_of row)))).
Proof.
  intro Hm. cbv zeta. unfold get_flight_info, detect_anomalies. simpl.
  assert (HR : pred_empty (mk_pred_frame (Some T) R) = false).
  { destruct T, R; simpl in Hm; try discriminate Hm; reflexivity. }
  rewrite HR, Hm. unfold anomalies_where. simpl.
  rewrite matching_rows_map, Hm. reflexivity.
Qed.

Lemma lookup_not_found (df : frame) (T : list cell) (R : list pred_row)
  (id : string) :
  R <> [] ->
  matching_rows (CStr id) T R = [] ->
  let pdf := mk_pred_frame (Some T) R in
  get_flight_info id (mk_state df pdf (detect_anomalies pdf))
  = Ok (LookupMessage "Tail number not found.").
Proof.
  intros HR Hm. cbv zeta. unfold get_flight_info. simpl.
  destruct R as [| r R]; [congruence |]. simpl. now rewrite Hm.
Qed.

Lemma no_match_rows (T : list cell) (R : list pred_row) (A : list risk_row)
  (id : string) :
  forall (rows : list pred_row) (i : nat) (Ts : list cell)
         (rs : list flight_info),
    row_results (mk_pred_frame (Some T) R) (mk_anom_frame (Some T) A) i rows
    = Ok rs ->
    (forall k, nth (i + k) T CNaN = nth k Ts CNaN) ->
    (forall r, In r rs -> fi_TAIL_NUMBER r <> CStr id) ->
    matching_rows (CStr id) Ts rows = [].
Proof.
  induction rows as [| row rows IH]; intros i Ts rs Hrun HTs Hrs.
  - now destruct Ts.
  - simpl in Hrun.
    destruct (row_result _ _ i row) as [fi |] eqn:E; simpl in Hrun;
      [| discriminate Hrun].
    destruct (row_results _ _ (S i) rows) as [rs' |] eqn:Ers; simpl in Hrun;
      [| discriminate Hrun].
    inversion Hrun; subst rs.
    destruct (row_result_with_tails T R A i row fi E) as (a & _ & Hfi).
    destruct Ts as [| t0 Ts]; [reflexivity |]. simpl.
    pose proof (HTs 0%nat) as H0. rewrite Nat.add_0_r in H0. simpl in H0.
    destruct (cell_eqb t0 (CStr id)) eqn:Et.
    + apply cell_eqb_CStr in Et. exfalso.
      apply (Hrs fi); [simpl; auto |]. rewrite Hfi. simpl. congruence.
    + apply (IH (S i) Ts rs' Ers).
      * intro k. replace (S i + k)%nat with (i + S k)%nat by lia.
        now rewrite HTs.
      * intros r Hr. apply Hrs. simpl; auto.
Qed.

(** The state a successful upload leaves, as the lookup reads it. *)
Lemma success_state (w : world) (file : result frame) (st st' : state)
  (results : list flight_info) :
  predict_csv np w file st = (Ok (UploadSuccess results), st') ->
  (results = [] /\ pred_rows (predictions_df st') = []) \/
  (exists df T R,
      R <> [] /\
      st' = mk_state df (mk_pred_frame (Some T) R)
                     (mk_anom_frame (Some T) (map risks_of R)) /\
      row_results (mk_pred_frame (Some T) R)
                  (mk_anom_frame (Some T) (map risks_of R)) 0 R
      = Ok results).
Proof.
  intro H.
  destruct (predict_csv_success_inv w file st st' results H)
    as (df & F & X & m & y & _ & _ & _ & _ & _ & Hrun).
  cbv zeta in Hrun. destruct Hrun as [-> Hrun]. simpl.
  destruct (predictions_of np df y) as [[T |] R] eqn:Hp.
  - unfold detect_anomalies in *. simpl in *.
    destruct R as [| r R].
    + left. simpl in Hrun. inversion Hrun. auto.
    + right. exists df, T, (r :: R). repeat split; [discriminate | exact Hrun].
  - unfold detect_anomalies in Hrun. simpl in Hrun.
    rewrite row_results_no_tail in Hrun.
    destruct R; inversion Hrun. left. auto.
Qed.

(** After a successful upload, the lookup of an identifier returns the
    first entry of the bulk response that carries it. *)
Lemma lookup_first_result (w : world) (file : result frame) (st st' : state)
  (results before after : list flight_info) (r : flight_info) (id : string) :
  predict_csv np w file st = (Ok (UploadSuccess results), st') ->
  results = (before ++ r :: after)%list ->
  fi_TAIL_NUMBER r = CStr id ->
  (forall r', In r' before -> fi_TAIL_NUMBER r' <> CStr id) ->
  get_flight_info id st' = Ok (LookupInfo r).
Proof.
  intros H Hres Hr Hbefore.
  destruct (success_state w file st st' results H)
    as [[-> _] | (df & T & R & HR & -> & Hrun)].
  - destruct before; discriminate Hres.
  - rewrite Hres in Hrun.
    destruct (first_match_row T R (map risks_of R) id before R 0 T r after
                Hrun (fun k => eq_refl) Hr Hbefore)
      as (row & rest & a & Hm & Ha & Hfi).
    rewrite matching_rows_map, Hm in Ha. simpl in Ha. inversion Ha; subst a.
    rewrite Hfi.
    apply (lookup_found df T R id (CStr id) row rest Hm).
Qed.

Lemma first_with_tail (id : string) (l : list flight_info) :
  (forall r, In r l -> fi_TAIL_NUMBER r <> CStr id) \/
  (exists before r after,
      l = (before ++ r :: after)%list /\
      fi_TAIL_NUMBER r = CStr id /\
      forall r', In r' before -> fi_TAIL_NUMBER r' <> CStr id).
Proof.
  induction l as [| x l IH].
  - left. intros r [].
  - assert (Hx : fi_TAIL_NUMBER x = CStr id \/ fi_TAIL_NUMBER x <> CStr id).
    { destruct (fi_TAIL_NUMBER x) as [q | s |];
        try (right; discriminate).
      destruct (string_dec s id) as [-> | Hs]; [now left | right; congruence]. }
    destruct Hx as [Hx | Hx].
    + right. exists [], x, l. repeat split; auto; intros r' [].
    + destruct IH as [IH | (before & r & after & -> & Hr & Hb)].
      * left. intros r [<- | Hin]; auto.
      * right. exists (x :: before), r, after. repeat split; auto.
        intros r' [<- | Hin]; auto.
Qed.

Lemma lookup_unknown (w : world) (file : result frame) (st st' : state)
  (results : list flight_info) (id : string) :
  predict_csv np w file st = (Ok (UploadSuccess results), st') ->
  results <> [] ->
  (forall r, In r results -> fi_TAIL_NUMBER r <> CStr id) ->
  get_flight_info id st' = Ok not_found_message.
Proof.
  intros H Hne Hall.
  destruct (success_state w file st st' results H)
    as [[-> _] | (df & T & R & HR & -> & Hrun)]; [congruence |].
  apply (lookup_not_found df T R id HR).
  apply (no_match_rows T R (map risks_of R) id R 0 T results Hrun
           (fun k => eq_refl) Hall).
Qed.

Lemma lookup_empty_state (id : string) (st : state) :
  pred_rows (predictions_df st) = [] ->
  get_flight_info id st = Ok no_predictions_message.
Proof.
  intro H. unfold get_flight_info, pred_empty. now rewrite H.
Qed.

(** What a request to [predict_csv] does to the stored frames: it leaves
    both as they were, or stores the predictions of this upload together
    with their anomalies. *)
Lemma predict_csv_state (w : world) (file : result frame) (st : state) :
  let st' := snd (predict_csv np w file st) in
  (predictions_df st' = predictions_df st /\
   anomalies_df st' = anomalies_df st) \/
  (exists df y,
      st' = mk_state df (predictions_of np df y)
                     (detect_anomalies (predictions_of np df y))).
Proof.
  cbv zeta.
  destruct file as [df | e].
  2:{ left. run_upload. now destruct (isinstance_Exception e). }
  destruct (feature_names_txt w) as [F |] eqn:HF.
  2:{ left. run_upload. rewrite HF. simpl. auto. }
  destruct (transform_data_for_inference np df F) as [X | e] eqn:HX.
  2:{ left. run_upload. rewrite HF. simpl. rewrite HX.
      now destruct (isinstance_Exception e). }
  destruct (joblib_load w) as [m | e] eqn:Hm.
  2:{ left. run_upload. rewrite HF. simpl. rewrite HX, Hm.
      now destruct (isinstance_Exception e). }
  destruct (m X) as [y | e] eqn:Hy.
  2:{ left. run_upload. rewrite HF. simpl. rewrite HX, Hm, Hy.
      now destruct (isinstance_Exception e). }
  right. exists df, y.
  rewrite (predict_csv_run w st df F X m y HF HX Hm Hy). cbv zeta.
  destruct (row_results _ _ 0 _) as [rs | e]; [reflexivity |].
  now destruct (isinstance_Exception e).
Qed.

Lemma reachable_consistent (st : state) :
  reachable np st ->
  anomalies_df st = detect_anomalies (predictions_df st).
Proof.
  induction 1 as [| w file st Hst IH].
  - reflexivity.
  - destruct (predict_csv_state w file st) as [[Hp Ha] | (df & y & ->)].
    + now rewrite Hp, Ha.
    + reflexivity.
Qed.

Lemma matching_rows_first (id : string) (T1 T2 : list cell) {A}
  (R1 R2 : list A) (row : A) :
  List.length T1 = List.length R1 ->
  (forall t, In t T1 -> t <> CStr id) ->
  exists rest,
    matching_rows (CStr id) (T1 ++ CStr id :: T2) (R1 ++ row :: R2)
    = (CStr id, row) :: rest.
Proof.
  revert R1. induction T1 as [| t T1 IH]; intros [| r R1] Hlen Hnot;
    try discriminate Hlen; simpl.
  - rewrite String.eqb_refl. eauto.
  - destruct (cell_eqb t (CStr id)) eqn:Et.
    + apply cell_eqb_CStr in Et. exfalso. apply (Hnot t); simpl; auto.
    + apply IH; [now inversion Hlen | intros t' Ht'; apply Hnot; simpl; auto].
Qed.

(** C10 (as amended): in every state the upload endpoint can leave, when a
    row of the stored predictions carries the identifier as text and no row
    above it does, the lookup returns the response built from that row: its
    identifier, its four numbers, its three risk labels and its
    suggestions.  The rows below it ([T2], [R2]) play no role, whether or
    not they carry the same identifier.  Identifiers stored as numbers are
    another matter: the path parameter is text, equal to none of them, and
    the lookup answers that the tail number is not found. *)
Theorem lookup_returns_first_match :
  forall (st : state) (id : string) (T1 T2 : list cell)
         (R1 R2 : list pred_row) (row : pred_row),
    reachable np st ->
    pred_tails (predictions_df st) = Some (T1 ++ CStr id :: T2)%list ->
    pred_rows (predictions_df st) = (R1 ++ row :: R2)%list ->
    List.length T1 = List.length R1 ->
    (forall t, In t T1 -> t <> CStr id) ->
    get_flight_info id st
    = Ok (LookupInfo
            (info_of (CStr id) row
                     (mk_anomalies_record (CStr id) (risks_of row)))).
Proof.
  intros st id T1 T2 R1 R2 row Hst HT HR Hlen Hnot.
  pose proof (reachable_consistent st Hst) as Hcons.
  destruct st as [df [tails rows] adf]. simpl in *. subst tails rows adf.
  destruct (matching_rows_first id T1 T2 R1 R2 row Hlen Hnot) as [rest Hm].
  apply (lookup_found df _ _ id (CStr id) row rest Hm).
Qed.

(** C5 (as amended): in the initial state the lookup returns the
    "no predictions" message; after a successful upload it returns a
    response and never raises: the "no predictions" message when the
    upload had no row, the "not found" message when no entry of the bulk
    response carries the identifier, and otherwise the very entry the bulk
    response holds for the first row that carries it. *)
Theorem lookup_responses :
  forall (w : world) (file : result frame) (st st' : state)
         (results : list flight_info) (id : string),
    predict_csv np w file st = (Ok (UploadSuccess results), st') ->
    get_flight_info id initial_state = Ok no_predictions_message /\
    (results = [] -> get_flight_info id st' = Ok no_predictions_message) /\
    (results <> [] ->
     (forall r, In r results -> fi_TAIL_NUMBER r <> CStr id) ->
     get_flight_info id st' = Ok not_found_message) /\
    (forall before r after,
        results = (before ++ r :: after)%list ->
        fi_TAIL_NUMBER r = CStr id ->
        (forall r', In r' before -> fi_TAIL_NUMBER r' <> CStr id) ->
        get_flight_info id st' = Ok (LookupInfo r)) /\
    (exists response, get_flight_info id st' = Ok response).
Proof.
  intros w file st st' results id H.
  assert (Hempty : results = [] ->
                   get_flight_info id st' = Ok no_predictions_message).
  { intros ->. apply lookup_empty_state.
    destruct (success_state w file st st' [] H)
      as [[_ Hrows] | (df & T & R & HR & -> & Hrun)]; [exact Hrows |].
    destruct R; [congruence |]. simpl in Hrun.
    destruct (row_result _ _ 0 p); simpl in Hrun; [| discriminate Hrun].
    destruct (row_results _ _ 1 R); discriminate Hrun. }
  repeat split.
  - exact Hempty.
  - intros Hne Hall. now apply (lookup_unknown w file st st' results id).
  - intros before r after Hres Hr Hb.
    now apply (lookup_first_result w file st st' results before after r id).
  - destruct results as [| x results]; [eauto |].
    destruct (first_with_tail id (x :: results))
      as [Hall | (before & r & after & Hres & Hr & Hb)].
    + exists not_found_message.
      apply (lookup_unknown w file st st' (x :: results) id H);
        [discriminate | exact Hall].
    + exists (LookupInfo r).
      now apply (lookup_first_result w file st st' (x :: results)
                   before after r id).
Qed.

(** C2 (as amended): whenever the engineering steps return a frame in
    which no expected feature labels more than one column, the aligner
    returns a matrix over the same rows whose columns are the distinct
    names of F in the order of their first occurrence (F itself when F has
    no repeated name); a feature the engineered frame lacks is the
    constant 0 in every row, and a feature it has is that column.  The
    steps do not return on every input: on an upload whose scheduled
    departure time is text they raise, and the aligner gives no matrix. *)
Theorem align_columns :
  forall (df : frame) (F : list string),
    (forall eng : frame,
        engineer np df = Ok eng ->
        (forall f, In f F -> (List.length (select f eng) <= 1)%nat) ->
        exists out,
          transform_data_for_inference np df F = Ok out /\
          nrows out = nrows df /\
          names out = distinct_labels F /\
          (NoDup F -> names out = F) /\
          (forall f, In f F -> has_col f eng = false ->
             get_col f out = Some (const_col (nrows df) 0)) /\
          (forall f c, In f F -> select f eng = [c] ->
             get_col f out = Some c)) /\
    (forall xs,
        get_col "CRS_DEP_TIME" df = Some (ObjCol xs) ->
        existsb is_some xs = true ->
        transform_data_for_inference np df F
        = Raise (mk_exn TypeError
                   "unsupported operand type(s) for //: 'str' and 'int'")).
Proof.
  intros df F. split.
  - intros eng Heng Hlen.
    rewrite transform_engineer, Heng. simpl. unfold align.
    destruct (align_loop_ok eng F (mk_frame (nrows eng) []) Hlen)
      as (out & Hout & Hn & Hnames & Hin & _).
    pose proof (engineer_nrows _ _ Heng) as Hrows.
    exists out. repeat split.
    + exact Hout.
    + simpl in Hn. congruence.
    + exact Hnames.
    + intro Hnd. rewrite Hnames. now apply distinct_labels_NoDup.
    + intros f Hf Habs. rewrite (Hin f Hf).
      apply has_col_select in Habs. rewrite Habs. now rewrite Hrows.
    + intros f c Hf Hsel. rewrite (Hin f Hf). now rewrite Hsel.
  - intros xs Hget Htext.
    now rewrite transform_engineer, (engineer_text_time df xs Hget Htext).
Qed.

(** ** Further properties of the endpoints *)

(** X1: an upload without a TAIL_NUMBER column for which the model answers
    at least one row is answered with the error envelope, yet it has stored
    its prediction frame, which has no TAIL_NUMBER column: every lookup
    that follows raises KeyError('TAIL_NUMBER') instead of returning a
    message. *)
Theorem lookup_raises_after_upload_without_tail :
  forall (w : world) (df : frame) (st : state) (F : list string) (X : frame)
         (m : model) (y : list (Q * Q * Q)) (id : string),
    has_col TAIL_NUMBER_COL df = false ->
    feature_names_txt w = Some F ->
    transform_data_for_inference np df F = Ok X ->
    joblib_load w = Ok m ->
    m X = Ok y ->
    y <> [] ->
    fst (predict_csv np w (Ok df) st) = Ok (UploadError "'TAIL_NUMBER'") /\
    get_flight_info id (snd (predict_csv np w (Ok df) st))
    = Raise (key_error TAIL_NUMBER_COL).
Proof.
  intros w df st F X m y id Htail HF HX Hm Hy Hne.
  rewrite (upload_without_tail_run w df st F X m y Htail HF HX Hm Hy).
  destruct y as [| p y]; [congruence |]. split; reflexivity.
Qed.

(** X2: whatever a sequence of uploads answered, the stored anomaly frame
    is the one [detect_anomalies] gives for the stored prediction frame. *)
Theorem stored_frames_consistent :
  forall st : state,
    reachable np st ->
    anomalies_df st = detect_anomalies (predictions_df st).
Proof. exact reachable_consistent. Qed.


(** * Further properties *)

(** ** Risk labels: sign and order *)

Lemma risk_label_compat (v w : Q) :
  Qabs v == Qabs w -> risk_label v = risk_label w.
Proof.
  intro E.
  destruct (risk_label_cases v) as [[H1 ->] | [[H1 [H2 ->]] | [H1 ->]]];
    destruct (risk_label_cases w) as [[K1 ->] | [[K1 [K2 ->]] | [K1 ->]]];
    try reflexivity; exfalso; lra.
Qed.

(** X3: the risk label depends on the magnitude only - a value and its
    negation get the same label, so a flight predicted 70 minutes early is
    HIGH like one 70 minutes late - and it grows with the magnitude: a
    value of larger absolute value never gets a lower label. *)
Theorem risk_label_sign_and_order :
  forall v w : Q,
    risk_label (- v) = risk_label v /\
    (Qabs v <= Qabs w ->
     (risk_rank (risk_label v) <= risk_rank (risk_label w))%nat).
Proof.
  intros v w. split.
  - apply risk_label_compat, Qabs_opp.
  - intro H.
    destruct (risk_label_cases v) as [[H1 ->] | [[H1 [H2 ->]] | [H1 ->]]];
      destruct (risk_label_cases w) as [[K1 ->] | [[K1 [K2 ->]] | [K1 ->]]];
      try (apply Nat.leb_le; reflexivity); exfalso; lra.
Qed.

(** ** Suggestions: what the list can hold *)

Lemma distinct_NoDup (l : list string) : distinct l = true -> NoDup l.
Proof.
  induction l as [| x l IH]; simpl; intro H.
  - constructor.
  - apply andb_prop in H. destruct H as [Hx Hl].
    constructor; [| now apply IH].
    intro Hin. apply mem_In in Hin. rewrite Hin in Hx. discriminate.
Qed.

Lemma optimize_suggestions_checked (row : pred_row) :
  distinct (optimize_suggestions row) = true /\
  forallb (fun s => mem s offered_tips) (optimize_suggestions row) = true /\
  forallb (fun s => negb (mem s (optimize_suggestions row))) unused_tips
  = true /\
  (List.length (optimize_suggestions row) <=? 16)%nat = true.
Proof.
  tiers row; repeat split; vm_compute; reflexivity.
Qed.

(** X4: the list [optimize_suggestions] returns never repeats a string,
    holds at most sixteen, and holds nothing but the first five tips of
    each table and the advisory: the last five tips of the three tables
    are never suggested, whatever the predictions. *)
Theorem optimize_suggestions_range :
  forall row : pred_row,
    NoDup (optimize_suggestions row) /\
    (List.length (optimize_suggestions row) <= 16)%nat /\
    (forall s, In s (optimize_suggestions row) -> In s offered_tips) /\
    (forall s, In s unused_tips -> ~ In s (optimize_suggestions row)).
Proof.
  intro row.
  destruct (optimize_suggestions_checked row) as (Hd & Hin & Hout & Hlen).
  repeat split.
  - now apply distinct_NoDup.
  - now apply Nat.leb_le.
  - intros s Hs. rewrite forallb_forall in Hin. apply mem_In. now apply Hin.
  - intros s Hs Hmem. rewrite forallb_forall in Hout.
    specialize (Hout s Hs). apply mem_In in Hmem. rewrite Hmem in Hout.
    discriminate.
Qed.

(** ** Suggestions: more delay, more suggestions *)

Lemma optimize_suggestions_parts (row : pred_row) :
  optimize_suggestions row
  = (tier carrier_suggestions (CARRIER_DELAY row) 15 5
     ++ tier weather_suggestions (WEATHER_DELAY row) 10 5
     ++ tier security_suggestions (SECURITY_DELAY row) 5 2
     ++ (if Qgtb (Total_Predicted_Delay row) 20
         then [total_delay_advisory] else []))%list.
Proof.
  unfold optimize_suggestions, tier, extend, append.
  destruct (Qgtb (CARRIER_DELAY row) 15), (Qgtb (CARRIER_DELAY row) 5),
    (Qgtb (WEATHER_DELAY row) 10), (Qgtb (WEATHER_DELAY row) 5),
    (Qgtb (SECURITY_DELAY row) 5), (Qgtb (SECURITY_DELAY row) 2),
    (Qgtb (Total_Predicted_Delay row) 20); reflexivity.
Qed.

Lemma Qgtb_mono (x x' y : Q) :
  x <= x' -> Qgtb x y = true -> Qgtb x' y = true.
Proof.
  intros Hle H. apply Qgtb_gt in H. apply Qgtb_gt. lra.
Qed.

Lemma tier_mono (tips : list string) (x x' hi lo : Q) :
  tips <> [] -> lo <= hi -> x <= x' ->
  incl (tier tips x hi lo) (tier tips x' hi lo).
Proof.
  intros Htips Hlh Hle. unfold tier.
  destruct (Qgtb x hi) eqn:Hhi.
  - rewrite (Qgtb_mono x x' hi Hle Hhi). apply incl_refl.
  - destruct (Qgtb x lo) eqn:Hlo.
    + pose proof (Qgtb_mono x x' lo Hle Hlo) as Hlo'. rewrite Hlo'.
      destruct (Qgtb x' hi); [| apply incl_refl].
      destruct tips as [| t tips]; [congruence |].
      intros s [<- | []]. simpl. auto.
    + intros s [].
Qed.

(** X5: raising the predicted delays never takes a suggestion away: when
    each of the four numbers of a row is at most that of another row,
    every suggestion of the first is a suggestion of the second. *)
Theorem optimize_suggestions_monotone :
  forall r r' : pred_row,
    row_le r r' ->
    incl (optimize_suggestions r) (optimize_suggestions r').
Proof.
  intros r r' (Hc & Hs & Hw & Ht).
  rewrite !optimize_suggestions_parts.
  repeat apply incl_app_app.
  - apply tier_mono; [discriminate | lra | exact Hc].
  - apply tier_mono; [discriminate | lra | exact Hw].
  - apply tier_mono; [discriminate | lra | exact Hs].
  - destruct (Qgtb (Total_Predicted_Delay r) 20) eqn:E.
    + rewrite (Qgtb_mono _ _ 20 Ht E). apply incl_refl.
    + intros s [].
Qed.

(** ** The median stays within the present values *)

Lemma present_In {A} (xs : list (option A)) (a : A) :
  In a (present xs) <-> In (Some a) xs.
Proof.
  induction xs as [| [b |] xs IH]; simpl.
  - tauto.
  - rewrite IH. split; intros [H | H]; auto; left; congruence.
  - rewrite IH. split; [auto | intros [H | H]; [discriminate | exact H]].
Qed.

Lemma median_between (xs : list (option Q)) (m a b : Q) :
  median np xs = Some m ->
  (forall q, In (Some q) xs -> a <= q /\ q <= b) ->
  - exact_bound <= a -> b <= exact_bound ->
  a <= m /\ m <= b.
Proof.
  intros Hm Hall Ha Hb.
  pose proof (median_is_median xs) as H. rewrite Hm in H.
  destruct H as (lo & mid & up & Hp & _ & _ & _ & Hmid).
  assert (Hin : forall q, In q mid -> a <= q /\ q <= b).
  { intros q Hq. apply Hall, present_In.
    apply (Permutation_in _ (Permutation_sym Hp)).
    apply in_or_app. right. apply in_or_app. now left. }
  destruct Hmid as [-> | (x & y & -> & Hxy & ->)].
  - apply Hin. simpl. auto.
  - destruct (Hin x ltac:(simpl; auto)) as [Lx Ux].
    destruct (Hin y ltac:(simpl; auto)) as [Ly Uy].
    destruct (mean2_between np x y Hxy) as [L U].
    + apply (Qabs_between x a b); assumption.
    + apply (Qabs_between y a b); assumption.
    + split; lra.
Qed.

Lemma fillna_between (xs : list (option Q)) (a b : Q) :
  (forall q, In (Some q) xs -> a <= q /\ q <= b) ->
  - exact_bound <= a -> b <= exact_bound ->
  forall q, In (Some q) (fillna (median np xs) xs) -> a <= q /\ q <= b.
Proof.
  intros Hall Ha Hb q Hq. unfold fillna in Hq. apply in_map_iff in Hq.
  destruct Hq as ([q' |] & E & Hin).
  - inversion E; subst. now apply Hall.
  - now apply (median_between xs q a b E).
Qed.

(** X6: the median the imputation uses lies between the smallest and the
    largest present value of its column: when every present value is
    within [a, b], and [a, b] within the range in which every whole number
    is a double (2^53 either way, far beyond any time or distance), so is
    the median, hence every value of the imputed column - the imputation
    never writes a number outside the range the batch shows. *)
Theorem imputation_within_range :
  forall (xs : list (option Q)) (a b : Q),
    (forall q, In (Some q) xs -> a <= q /\ q <= b) ->
    - exact_bound <= a -> b <= exact_bound ->
    (forall m, median np xs = Some m -> a <= m /\ m <= b) /\
    (forall q, In (Some q) (fillna (median np xs) xs) -> a <= q /\ q <= b).
Proof.
  intros xs a b Hall Ha Hb. split.
  - intros m E. now apply (median_between xs m a b E).
  - now apply fillna_between.
Qed.

(** ** Hour and minute stay in range *)

Lemma floor_scale (t : Q) :
  inject_Z (Qfloor (t / 100)) * 100 <= t /\
  t < inject_Z (Qfloor (t / 100)) * 100 + 100.
Proof.
  pose proof (Qfloor_le (t / 100)) as L.
  pose proof (Qlt_floor (t / 100)) as U.
  rewrite inject_Z_plus in U.
  change (inject_Z 1) with 1 in U.
  assert (E : t == t / 100 * 100) by (field).
  revert L U. generalize (inject_Z (Qfloor (t / 100))). intros f L U.
  split; lra.
Qed.

Lemma Qtrunc_below (q : Q) (k : Z) :
  0 <= q -> q < inject_Z k -> (0 <= Qtrunc q < k)%Z.
Proof.
  intros L U. unfold Qtrunc.
  assert (H : Qle_bool 0 q = true) by now apply Qle_bool_iff.
  rewrite H. split.
  - change 0%Z with (Qfloor 0). now apply Qfloor_resp_le.
  - rewrite Zlt_Qlt. apply Qle_lt_trans with q; [apply Qfloor_le | exact U].
Qed.

(** The remainder of a time that is not negative is below 100. *)
Lemma minute_of_day (t : Q) :
  0 <= t -> to_int8 np (pymod np t 100) <= 99.
Proof.
  intro L. pose proof (remainder_exact np t L) as E.
  fold (pymod np t 100) in E.
  destruct (floor_scale t) as [L' U'].
  assert (Hlo : 0 <= pymod np t 100) by (rewrite E; lra).
  assert (Hhi : pymod np t 100 < inject_Z 100)
    by (rewrite E; change (inject_Z 100) with 100; lra).
  destruct (Qtrunc_below _ 100 Hlo Hhi) as [_ U].
  unfold to_int8. rewrite int8_exact; [| lra |].
  - change 99 with (inject_Z 99). rewrite <- Zle_Qle. lia.
  - change (inject_Z 100) with 100 in Hhi. lra.
Qed.

Lemma hour_of_day (t : Q) :
  0 <= t -> t <= 2359 ->
  0 <= to_int8 np (floordiv np t 100) /\ to_int8 np (floordiv np t 100) <= 23.
Proof.
  intros L U.
  destruct (floor_scale t) as [L' U'].
  assert (H : (0 <= Qfloor (t / 100) <= 23)%Z).
  { split.
    - apply Z.lt_succ_r. rewrite Zlt_Qlt. rewrite <- Z.add_1_r.
      rewrite inject_Z_plus. change (inject_Z 1) with 1.
      change (inject_Z 0) with 0.
      revert L' U'. generalize (inject_Z (Qfloor (t / 100))). intros; lra.
    - apply Z.lt_succ_r. rewrite Zlt_Qlt. change (inject_Z (Z.succ 23)) with 24.
      revert L' U'. generalize (inject_Z (Qfloor (t / 100))). intros; lra. }
  rewrite (to_int8_int _ (Qfloor (t / 100))).
  - split.
    + change 0 with (inject_Z 0). rewrite <- Zle_Qle. lia.
    + change 23 with (inject_Z 23). rewrite <- Zle_Qle. lia.
  - apply floordiv_floor.
    apply (Qabs_between t 0 2359); try assumption; vm_compute; discriminate.
  - lia.
Qed.

Lemma time_recomposed (t : Q) (z : Z) :
  t == inject_Z z -> (-12800 <= z < 12800)%Z ->
  t == 100 * to_int8 np (floordiv np t 100) + to_int8 np (pymod np t 100).
Proof.
  intros E H.
  rewrite (hour_in_range t z E H), (minute_of_int t z E), E.
  change 100 with (inject_Z 100).
  rewrite <- inject_Z_mult, <- inject_Z_plus.
  now rewrite <- Z.div_mod by discriminate.
Qed.

(** X7: on an upload with a numeric scheduled departure time, once the
    engineering steps return, the engineered frame has a DEP_HOUR and a
    DEP_MINUTE column without a missing cell and of the length of the
    input column; whatever the time values are (negative, fractional or
    beyond 2359), every hour lies within the signed 8-bit range and every
    minute between 0 and 100 - 100 itself is what the floating-point
    remainder of a tiny negative time rounds to.  When every present time
    of the batch is between 0 and 2359, every hour - also the one of an
    imputed time - is between 0 and 23 and every minute at most 99.  A
    whole time value t with -12800 <= t < 12800 is recovered as
    100 * hour + minute. *)
Theorem dep_time_columns_in_range :
  forall (df eng : frame) (xs : list (option Q)),
    engineer np df = Ok eng ->
    get_col "CRS_DEP_TIME" df = Some (NumCol xs) ->
    (exists hs ms,
        get_col "DEP_HOUR" eng = Some (NumCol (map Some hs)) /\
        get_col "DEP_MINUTE" eng = Some (NumCol (map Some ms)) /\
        List.length hs = List.length xs /\
        List.length ms = List.length xs /\
        (forall h, In h hs -> -128 <= h /\ h <= 127) /\
        (forall m, In m ms -> 0 <= m /\ m <= 100) /\
        ((forall q, In (Some q) xs -> 0 <= q /\ q <= 2359) ->
         (forall h, In h hs -> 0 <= h /\ h <= 23) /\
         (forall m, In m ms -> m <= 99))) /\
    (forall (t : Q) (z : Z),
        t == inject_Z z -> (-12800 <= z < 12800)%Z ->
        t == 100 * to_int8 np (floordiv np t 100) + to_int8 np (pymod np t 100)).
Proof.
  intros df eng xs Heng Hget. split; [| apply time_recomposed].
  destruct (engineer_inv df eng Heng) as (d1 & d2 & d3 & H0 & H1 & H2 & ->).
  apply get_numeric_input in Hget; [| not_listed].
  destruct (dep_time_features_numeric _ _ _ Hget H0) as [Hfull Hd1].
  destruct (no_none_all_present _ Hfull) as [ts Hts].
  cbv zeta in Hd1. rewrite Hts in Hd1.
  rewrite !map_option_map_Some in Hd1.
  exists (map (to_int8 np) (map (fun q => floordiv np q 100) ts)),
         (map (to_int8 np) (map (fun q => pymod np q 100) ts)).
  assert (Hlen : List.length ts = List.length xs).
  { rewrite <- (fillna_length (median np xs) xs), Hts. now rewrite length_map. }
  assert (Hreach : forall c x,
             In c dep_time_labels -> get_col c d1 = Some x ->
             get_col c (one_hot_operating_airline np (convert_categorical d3))
             = Some x)
    by (intros c x; now apply (dep_time_column_reaches d1 d2 d3)).
  assert (Hts' : forall t, In t ts -> In (Some t) (fillna (median np xs) xs))
    by (intros t Ht; rewrite Hts; now apply in_map).
  split; [| split; [| split; [| split; [| split; [| split]]]]].
  - apply Hreach; [simpl; tauto |].
    rewrite Hd1. repeat (rewrite get_set_other by labels_differ).
    apply get_set_same.
  - apply Hreach; [simpl; tauto |].
    rewrite Hd1. repeat (rewrite get_set_other by labels_differ).
    apply get_set_same.
  - now rewrite !length_map.
  - now rewrite !length_map.
  - intros h Hh. apply in_map_iff in Hh. destruct Hh as (q & <- & _).
    apply to_int8_range.
  - intros mi Hmi. apply in_map_iff in Hmi. destruct Hmi as (q & <- & Hq).
    apply in_map_iff in Hq. destruct Hq as (t & <- & _). apply minute_range.
  - intros Hday.
    assert (Hin : forall t, In t ts -> 0 <= t /\ t <= 2359).
    { intros t Ht.
      apply (fillna_between xs 0 2359 Hday); [| | now apply Hts'];
        vm_compute; discriminate. }
    split.
    + intros h Hh. apply in_map_iff in Hh. destruct Hh as (q & <- & Hq).
      apply in_map_iff in Hq. destruct Hq as (t & <- & Ht).
      destruct (Hin t Ht) as [L U]. now apply hour_of_day.
    + intros mi Hmi. apply in_map_iff in Hmi. destruct Hmi as (q & <- & Hq).
      apply in_map_iff in Hq. destruct Hq as (t & <- & Ht).
      destruct (Hin t Ht) as [L U]. now apply minute_of_day.
Qed.

(** ** The categorical columns are always there *)

Lemma fold_categorical_other (L : list string) (c : string) :
  forall df,
    ~ In c L ->
    select c (fold_left categorical_column L df) = select c df.
Proof.
  induction L as [| a L IH]; intros df Hnot; simpl.
  - reflexivity.
  - rewrite IH by (intro; apply Hnot; simpl; auto).
    apply categorical_column_other. intro; apply Hnot; simpl; auto.
Qed.

Lemma fold_categorical_nrows (L : list string) (df : frame) :
  nrows (fold_left categorical_column L df) = nrows df.
Proof.
  apply fold_left_nrows. intros d col. unfold categorical_column.
  destruct (get_col col d); apply nrows_set_col.
Qed.

Lemma get_categorical_column (df : frame) (c : string) :
  get_col c (categorical_column df c)
  = Some (match get_col c df with
          | Some x => astype_category x
          | None => CatCol (NumCol (repeat None (nrows df)))
          end).
Proof.
  unfold categorical_column. destruct (get_col c df); apply get_set_same.
Qed.

Lemma get_fold_categorical (L : list string) (c : string) :
  forall df,
    NoDup L -> In c L ->
    get_col c (fold_left categorical_column L df)
    = Some (match get_col c df with
            | Some x => astype_category x
            | None => CatCol (NumCol (repeat None (nrows df)))
            end).
Proof.
  induction L as [| a L IH]; intros df Hnd Hin; [destruct Hin |].
  inversion Hnd as [| ? ? Ha HL]; subst. simpl.
  destruct (string_dec a c) as [-> | Hne].
  - rewrite (select_get _ _ _ (fold_categorical_other L c _ Ha)).
    apply get_categorical_column.
  - destruct Hin as [E | Hin]; [contradiction |].
    rewrite (IH _ HL Hin).
    rewrite (select_get _ _ _ (categorical_column_other df a c
               (fun E => Hne (eq_sym E)))).
    assert (Hn : nrows (categorical_column df a) = nrows df).
    { unfold categorical_column. destruct (get_col a df); apply nrows_set_col. }
    now rewrite Hn.
Qed.

Lemma categorical_labels_distinct : NoDup CATEGORICAL_COLS_FOR_XGB.
Proof.
  apply distinct_NoDup. vm_compute. reflexivity.
Qed.

(** X8: whatever the upload holds, the engineered frame has each of the
    seven categorical columns, as a categorical column: the conversion of
    the (imputed) column the renamed upload has under that label, and a
    column of NaN over all rows when the renamed upload has none. *)
Theorem categorical_columns_present :
  forall (df eng : frame) (col : string),
    unique_labels (rename column_mapping df) ->
    engineer np df = Ok eng ->
    In col CATEGORICAL_COLS_FOR_XGB ->
    get_col col eng
    = Some (match filled np (get_col col (rename column_mapping df)) with
            | Some x => astype_category x
            | None => CatCol (NumCol (repeat None (nrows df)))
            end) /\
    (exists c, get_col col eng = Some (CatCol c)) /\
    (has_col col (rename column_mapping df) = false ->
     get_col col eng = Some (CatCol (NumCol (repeat None (nrows df))))).
Proof.
  intros df eng col _ Heng Hin.
  assert (Hget : get_col col eng
    = Some (match filled np (get_col col (rename column_mapping df)) with
            | Some x => astype_category x
            | None => CatCol (NumCol (repeat None (nrows df)))
            end)).
  { destruct (engineer_inv df eng Heng) as (d1 & d2 & d3 & H0 & H1 & H2 & ->).
    assert (Hcol : ~ In col dep_time_labels /\ ~ In col calendar_labels
                   /\ col <> "OPERATING_AIRLINE").
    { simpl in Hin.
      repeat match type of Hin with
             | _ \/ _ => destruct Hin as [Hin | Hin]
             end; try contradiction; subst col;
        (split; [not_listed | split; [not_listed | labels_differ]]). }
    destruct Hcol as (Hdep & Hcal & Hoa).
    apply one_hot_keeps; [| exact Hoa].
    unfold convert_categorical.
    rewrite (get_fold_categorical _ col d3 categorical_labels_distinct Hin).
    rewrite (calendar_rounds_keep d1 d2 d3 col H1 H2 Hcal).
    rewrite (select_get _ _ _ (dep_time_features_other _ d1 col H0 Hdep)).
    rewrite get_fill_missing_numeric.
    apply calendar_feature_nrows in H1, H2.
    apply dep_time_features_nrows in H0.
    rewrite fill_missing_numeric_nrows in H0. simpl in H0.
    now rewrite H2, H1, H0. }
  split; [exact Hget |]. split.
  - rewrite Hget.
    destruct (filled np (get_col col (rename column_mapping df)))
      as [[xs | xs | c] |]; simpl; eauto.
  - intro Habs. rewrite Hget.
    destruct (get_col col (rename column_mapping df)) as [x |] eqn:G;
      [| reflexivity].
    apply has_col_of_get in G. congruence.
Qed.

(** ** Labels that leave the frame *)













(** ** Raw and internal column names *)

Lemma rename_label_cases (n : string) :
  rename_label column_mapping n = n \/
  In (rename_label column_mapping n) (map snd column_mapping).
Proof.
  unfold rename_label, column_mapping, lookup.
  repeat match goal with
         | |- context [String.eqb n ?k] =>
             destruct (String.eqb_spec n k) as [-> | ?]
         end; simpl; auto 12.
Qed.

Lemma rename_label_idempotent (n : string) :
  rename_label column_mapping (rename_label column_mapping n)
  = rename_label column_mapping n.
Proof.
  destruct (rename_label_cases n) as [E | Hin].
  - now rewrite E.
  - revert Hin. generalize (rename_label column_mapping n). intros v Hin.
    simpl in Hin.
    repeat match type of Hin with
           | _ \/ _ => destruct Hin as [Hin | Hin]
           end; try contradiction; subst v; reflexivity.
Qed.

Lemma rename_idempotent (df : frame) :
  rename column_mapping (rename column_mapping df) = rename column_mapping df.
Proof.
  unfold rename. simpl. f_equal. rewrite map_map. apply map_ext.
  intros [m y]. simpl. now rewrite rename_label_idempotent.
Qed.

(** X10: an upload that already uses the internal column names gives the
    feature matrix of the upload that uses the raw names: renaming the
    columns before the call changes neither the engineered frame nor the
    matrix (no internal name is itself renamed). *)
Theorem internal_names_accepted :
  forall (df : frame) (F : list string),
    engineer np (rename column_mapping df) = engineer np df /\
    transform_data_for_inference np (rename column_mapping df) F
    = transform_data_for_inference np df F.
Proof.
  intros df F.
  assert (E : engineer np (rename column_mapping df) = engineer np df)
    by (unfold engineer; now rewrite rename_idempotent).
  split; [exact E |]. now rewrite !transform_engineer, E.
Qed.

(** ** Which upload the lookups are served from *)

Lemma predict_csv_answered (w : world) (file : result frame) (st : state)
  (df : frame) (y : list (Q * Q * Q)) :
  answered np w file = Some (df, y) ->
  snd (predict_csv np w file st) = stored np df y.
Proof.
  unfold answered, model_answer, load_feature_names. intro H.
  destruct file as [df' | e]; [| discriminate H]. simpl in H.
  destruct (feature_names_txt w) as [F |] eqn:HF; [| discriminate H].
  simpl in H.
  destruct (transform_data_for_inference np df' F) as [X |] eqn:HX;
    [| discriminate H].
  simpl in H.
  destruct (joblib_load w) as [m |] eqn:Hm; [| discriminate H].
  simpl in H.
  destruct (m X) as [y' |] eqn:Hy; [| discriminate H].
  inversion H; subst df' y'.
  rewrite (predict_csv_run w st df F X m y HF HX Hm Hy). cbv zeta.
  destruct (row_results _ _ 0 _) as [rs | e]; [reflexivity |].
  now destruct (isinstance_Exception e).
Qed.

Lemma predict_csv_unanswered (w : world) (file : result frame) (st : state) :
  answered np w file = None ->
  predictions_df (snd (predict_csv np w file st)) = predictions_df st /\
  anomalies_df (snd (predict_csv np w file st)) = anomalies_df st.
Proof.
  unfold answered, model_answer, load_feature_names. intro H.
  destruct file as [df | e].
  2:{ run_upload. now destruct (isinstance_Exception e). }
  simpl in H.
  destruct (feature_names_txt w) as [F |] eqn:HF.
  2:{ run_upload. rewrite HF. simpl. auto. }
  simpl in H.
  destruct (transform_data_for_inference np df F) as [X | e] eqn:HX.
  2:{ run_upload. rewrite HF. simpl. rewrite HX.
      now destruct (isinstance_Exception e). }
  simpl in H.
  destruct (joblib_load w) as [m | e] eqn:Hm.
  2:{ run_upload. rewrite HF. simpl. rewrite HX, Hm.
      now destruct (isinstance_Exception e). }
  simpl in H.
  destruct (m X) as [y | e] eqn:Hy; [discriminate H |].
  run_upload. rewrite HF. simpl. rewrite HX, Hm, Hy.
  now destruct (isinstance_Exception e).
Qed.

Lemma get_flight_info_frames (id : string) (st st' : state) :
  predictions_df st' = predictions_df st ->
  anomalies_df st' = anomalies_df st ->
  get_flight_info id st' = get_flight_info id st.
Proof. unfold get_flight_info. now intros -> ->. Qed.

Lemma run_uploads_frames (requests : list (world * result frame)) :
  forall st,
    match last_answered np requests with
    | Some (df, y) =>
        predictions_df (run_uploads np requests st) = predictions_of np df y /\
        anomalies_df (run_uploads np requests st)
        = detect_anomalies (predictions_of np df y)
    | None =>
        predictions_df (run_uploads np requests st) = predictions_df st /\
        anomalies_df (run_uploads np requests st) = anomalies_df st
    end.
Proof.
  induction requests as [| [w file] rest IH]; intro st; simpl.
  - auto.
  - specialize (IH (snd (predict_csv np w file st))).
    unfold run_uploads in *. simpl.
    destruct (last_answered np rest) as [[df y] |]; [exact IH |].
    destruct (answered np w file) as [[df y] |] eqn:E.
    + rewrite (predict_csv_answered w file st df y E) in IH |- *.
      exact IH.
    + destruct (predict_csv_unanswered w file st E) as [Hp Ha].
      destruct IH as [IHp IHa]. split; congruence.
Qed.

(** X11: after any sequence of upload requests the two stored frames are
    those of the last request for which the model answered - whether that
    request then returned the success or the error envelope - and the
    frames the sequence started from when the model answered for none: a
    request that fails before the model has answered leaves the stored
    predictions in place, and every lookup is answered from them. *)
Theorem lookups_follow_last_answered_upload :
  forall (requests : list (world * result frame)) (st : state) (id : string),
    let st' := run_uploads np requests st in
    let served := match last_answered np requests with
                  | Some (df, y) => stored np df y
                  | None => st
                  end in
    predictions_df st' = predictions_df served /\
    anomalies_df st' = anomalies_df served /\
    get_flight_info id st' = get_flight_info id served.
Proof.
  intros requests st id. cbv zeta.
  pose proof (run_uploads_frames requests st) as H.
  destruct (last_answered np requests) as [[df y] |]; destruct H as [Hp Ha];
    repeat split; try assumption; now apply get_flight_info_frames.
Qed.

(** ** Uploads with a [TAIL_NUMBER] column *)

Lemma cell_eqb_refl (t : cell) : t <> CNaN -> cell_eqb t t = true.
Proof.
  destruct t as [q | s |]; simpl; intro H.
  - apply Qeq_bool_iff. reflexivity.
  - apply String.eqb_refl.
  - congruence.
Qed.

Lemma cell_eqb_NaN (t : cell) : cell_eqb t CNaN = false.
Proof. now destruct t. Qed.

Lemma matching_rows_NaN {A} (T : list cell) (R : list A) :
  matching_rows CNaN T R = [].
Proof.
  revert R. induction T as [| t T IH]; intros [| r R]; simpl; try reflexivity.
  rewrite cell_eqb_NaN. apply IH.
Qed.

(** The first row a mask keeps is the first row whose cell equals the
    identifier. *)
Lemma matching_rows_hd {A} (d : A) (tail : cell) (T : list cell) :
  forall (R : list A) (i : nat),
    List.length T = List.length R ->
    (i < List.length T)%nat ->
    cell_eqb (nth i T CNaN) tail = true ->
    exists j rest,
      (j <= i)%nat /\
      cell_eqb (nth j T CNaN) tail = true /\
      (forall k, (k < j)%nat -> cell_eqb (nth k T CNaN) tail = false) /\
      matching_rows tail T R = (nth j T CNaN, nth j R d) :: rest.
Proof.
  induction T as [| t T IH]; intros [| r R] i Hlen Hi Heq;
    try discriminate Hlen; simpl in Hi; [lia |].
  simpl matching_rows. destruct (cell_eqb t tail) eqn:Et.
  - exists 0%nat, (matching_rows tail T R). repeat split.
    + lia.
    + exact Et.
    + intros k Hk. lia.
  - destruct i as [| i]; [simpl in Heq; congruence |].
    simpl in Heq. injection Hlen as Hlen.
    destruct (IH R i Hlen ltac:(lia) Heq) as (j & rest & Hj & Hjt & Hbefore & Hm).
    exists (S j), rest. repeat split.
    + lia.
    + exact Hjt.
    + intros [| k] Hk; [exact Et | apply Hbefore; lia].
    + exact Hm.
Qed.

Lemma nth_tails (cs : list cell) (n i : nat) :
  (i < n)%nat ->
  nth i (map (fun i => nth i cs CNaN) (seq 0 n)) CNaN = nth i cs CNaN.
Proof.
  intro H.
  rewrite (nth_indep _ CNaN (nth 0 cs CNaN))
    by (now rewrite length_map, length_seq).
  change (nth 0 cs CNaN) with ((fun i => nth i cs CNaN) 0%nat).
  rewrite map_nth. now rewrite seq_nth.
Qed.

Lemma predictions_of_tail (df : frame) (c : column) (y : list (Q * Q * Q)) :
  get_col TAIL_NUMBER_COL df = Some c ->
  predictions_of np df y
  = mk_pred_frame
      (Some (map (fun i => nth i (cells c) CNaN) (seq 0 (List.length y))))
      (map (with_total np) y).
Proof.
  intro H. unfold predictions_of, insert_tails. rewrite H. simpl.
  now rewrite length_map.
Qed.

(** With a [TAIL_NUMBER] column the loop can raise one exception only. *)
Lemma row_result_tails_raises (T : list cell) (R : list pred_row)
  (A : list risk_row) (i : nat) (row : pred_row) (e : exn) :
  row_result (mk_pred_frame (Some T) R) (mk_anom_frame (Some T) A) i row
  = Raise e ->
  e = mk_exn IndexError "list index out of range".
Proof.
  unfold row_result, anomalies_where. simpl. intro H.
  destruct (map _ _) as [| a l]; simpl in H; now inversion H.
Qed.

Lemma row_results_tails_raises (T : list cell) (R : list pred_row)
  (A : list risk_row) (rows : list pred_row) :
  forall (i : nat) (e : exn),
    row_results (mk_pred_frame (Some T) R) (mk_anom_frame (Some T) A) i rows
    = Raise e ->
    e = mk_exn IndexError "list index out of range".
Proof.
  induction rows as [| row rows IH]; intros i e H; simpl in H;
    [discriminate H |].
  destruct (row_result _ _ i row) as [r | e'] eqn:E; simpl in H.
  - destruct (row_results _ _ (S i) rows) as [rs | e'] eqn:Ers; simpl in H;
      [discriminate H |].
    inversion H; subst e'. now apply (IH (S i)).
  - inversion H; subst e'. now apply (row_result_tails_raises T R A i row).
Qed.

(** The results of the loop, entry by entry. *)
Lemma row_results_entries (pdf : pred_frame) (adf : anom_frame)
  (rows : list pred_row) :
  forall (i : nat) (rs : list flight_info),
    row_results pdf adf i rows = Ok rs ->
    List.length rs = List.length rows /\
    forall k row,
      nth_error rows k = Some row ->
      exists r,
        nth_error rs k = Some r /\
        row_result pdf adf (i + k) row = Ok r.
Proof.
  induction rows as [| row rows IH]; intros i rs H; simpl in H.
  - inversion H. split; [reflexivity |]. intros [| k] row' E; discriminate E.
  - destruct (row_result pdf adf i row) as [r |] eqn:E; simpl in H;
      [| discriminate H].
    destruct (row_results pdf adf (S i) rows) as [rs' |] eqn:Ers;
      simpl in H; [| discriminate H].
    inversion H; subst rs. destruct (IH (S i) rs' Ers) as [Hlen Hk].
    split; [simpl; now rewrite Hlen |].
    intros [| k] row' Hrow; simpl in Hrow.
    + inversion Hrow; subst row'. exists r. rewrite Nat.add_0_r. auto.
    + destruct (Hk k row' Hrow) as (r' & Hr' & Hres).
      exists r'. split; [exact Hr' |].
      now replace (i + S k)%nat with (S i + k)%nat by lia.
Qed.

Lemma row_results_returns (pdf : pred_frame) (adf : anom_frame)
  (rows : list pred_row) :
  forall i : nat,
    (forall k row,
        nth_error rows k = Some row ->
        exists r, row_result pdf adf (i + k) row = Ok r) ->
    exists rs, row_results pdf adf i rows = Ok rs.
Proof.
  induction rows as [| row rows IH]; intros i H; simpl.
  - eauto.
  - destruct (H 0%nat row eq_refl) as [r Hr]. rewrite Nat.add_0_r in Hr.
    rewrite Hr. simpl.
    destruct (IH (S i)) as [rs Hrs].
    { intros k row' Hk. destruct (H (S k) row' Hk) as [r' Hr'].
      exists r'. now replace (S i + k)%nat with (i + S k)%nat by lia. }
    rewrite Hrs. simpl. eauto.
Qed.

Lemma row_results_stops (pdf : pred_frame) (adf : anom_frame)
  (rows : list pred_row) :
  forall (i k : nat) (row : pred_row) (e : exn),
    nth_error rows k = Some row ->
    row_result pdf adf (i + k) row = Raise e ->
    exists e', row_results pdf adf i rows = Raise e'.
Proof.
  induction rows as [| row0 rows IH]; intros i k row e Hk Hr;
    [destruct k; discriminate Hk |].
  simpl. destruct k as [| k]; simpl in Hk.
  - inversion Hk; subst row0. rewrite Nat.add_0_r in Hr. rewrite Hr.
    simpl. eauto.
  - destruct (row_result pdf adf i row0) as [r0 | e0]; simpl; [| eauto].
    replace (i + S k)%nat with (S i + k)%nat in Hr by lia.
    destruct (IH (S i) k row e Hk Hr) as [e' He']. rewrite He'. simpl. eauto.
Qed.

Lemma row_result_missing_tail (T : list cell) (R : list pred_row)
  (A : list risk_row) (i : nat) (row : pred_row) :
  nth i T CNaN = CNaN ->
  row_result (mk_pred_frame (Some T) R) (mk_anom_frame (Some T) A) i row
  = Raise (mk_exn IndexError "list index out of range").
Proof.
  intro H. unfold row_result, anomalies_where. simpl.
  rewrite H, matching_rows_NaN. reflexivity.
Qed.

(** X12: an upload whose TAIL_NUMBER cell is missing in some row for
    which the model answered is refused as a whole: the anomaly lookup of
    that row matches nothing (NaN equals nothing), its [0] raises
    IndexError, and the response is the error envelope with the message
    "list index out of range" - after the prediction and anomaly frames of
    this upload have been stored. *)
Theorem upload_with_missing_tail :
  forall (w : world) (df : frame) (st : state) (F : list string) (X : frame)
         (m : model) (y : list (Q * Q * Q)) (c : column) (i : nat),
    get_col TAIL_NUMBER_COL df = Some c ->
    feature_names_txt w = Some F ->
    transform_data_for_inference np df F = Ok X ->
    joblib_load w = Ok m ->
    m X = Ok y ->
    (i < List.length y)%nat ->
    nth i (cells c) CNaN = CNaN ->
    predict_csv np w (Ok df) st
    = (Ok (UploadError "list index out of range"), stored np df y).
Proof.
  intros w df st F X m y c i Hc HF HX Hm Hy Hi Hnan.
  rewrite (predict_csv_run w st df F X m y HF HX Hm Hy). cbv zeta.
  unfold stored. rewrite (predictions_of_tail df c y Hc).
  set (T := map (fun i => nth i (cells c) CNaN) (seq 0 (List.length y))).
  unfold detect_anomalies. simpl.
  destruct (nth_error (map (with_total np) y) i) as [row |] eqn:Hrow.
  2:{ apply nth_error_None in Hrow. rewrite length_map in Hrow. lia. }
  assert (Hr : row_result (mk_pred_frame (Some T) (map (with_total np) y))
                 (mk_anom_frame (Some T) (map risks_of (map (with_total np) y)))
                 (0 + i) row
               = Raise (mk_exn IndexError "list index out of range")).
  { apply row_result_missing_tail. simpl. unfold T. now rewrite nth_tails. }
  destruct (row_results_stops _ _ _ 0 i row _ Hrow Hr) as [e He].
  rewrite He.
  now rewrite (row_results_tails_raises _ _ _ _ _ _ He).
Qed.

(** X13: an upload with a TAIL_NUMBER column none of whose cells is
    missing, for which the model answered, returns the success envelope
    with one entry per prediction row, in order.  Entry i carries the tail
    number, the delays, their floating-point sum as the total, and the
    suggestions of row i (the advisory among them by that total), but its
    anomaly record is the one of the first row j <= i whose tail number
    equals that of row i: for a tail number that occurs twice, the second
    entry reports the risk labels of the first. *)
Theorem upload_entries :
  forall (w : world) (df : frame) (st : state) (F : list string) (X : frame)
         (m : model) (y : list (Q * Q * Q)) (c : column),
    get_col TAIL_NUMBER_COL df = Some c ->
    feature_names_txt w = Some F ->
    transform_data_for_inference np df F = Ok X ->
    joblib_load w = Ok m ->
    m X = Ok y ->
    (forall i, (i < List.length y)%nat -> nth i (cells c) CNaN <> CNaN) ->
    let tail i := nth i (cells c) CNaN in
    exists results,
      predict_csv np w (Ok df) st = (Ok (UploadSuccess results), stored np df y) /\
      List.length results = List.length y /\
      forall i p,
        nth_error y i = Some p ->
        exists j q,
          (j <= i)%nat /\
          nth_error y j = Some q /\
          cell_eqb (tail j) (tail i) = true /\
          (forall k, (k < j)%nat -> cell_eqb (tail k) (tail i) = false) /\
          nth_error results i
          = Some (info_of (tail i) (with_total np p)
                    (mk_anomalies_record (tail j) (risks_of (with_total np q)))).
Proof.
  intros w df st F X m y c Hc HF HX Hm Hy Hall. cbv zeta.
  rewrite (predict_csv_run w st df F X m y HF HX Hm Hy). cbv zeta.
  unfold stored. rewrite (predictions_of_tail df c y Hc).
  set (T := map (fun i => nth i (cells c) CNaN) (seq 0 (List.length y))).
  unfold detect_anomalies. simpl.
  set (R := map (with_total np) y).
  assert (HT : List.length T = List.length (map risks_of R))
    by (unfold T, R; now rewrite !length_map, length_seq).
  assert (HlenT : List.length T = List.length y)
    by (unfold T; now rewrite length_map, length_seq).
  assert (Hrow : forall i p,
             nth_error y i = Some p ->
             exists j q,
               (j <= i)%nat /\
               nth_error y j = Some q /\
               cell_eqb (nth j (cells c) CNaN) (nth i (cells c) CNaN) = true /\
               (forall k, (k < j)%nat ->
                  cell_eqb (nth k (cells c) CNaN) (nth i (cells c) CNaN)
                  = false) /\
               row_result (mk_pred_frame (Some T) R)
                 (mk_anom_frame (Some T) (map risks_of R)) i (with_total np p)
               = Ok (info_of (nth i (cells c) CNaN) (with_total np p)
                       (mk_anomalies_record (nth j (cells c) CNaN)
                          (risks_of (with_total np q))))).
  { intros i p Hp.
    assert (Hi : (i < List.length y)%nat)
      by (apply nth_error_Some; congruence).
    assert (Hti : nth i T CNaN = nth i (cells c) CNaN)
      by (unfold T; now apply nth_tails).
    destruct (matching_rows_hd (risks_of (with_total np (0, 0, 0)))
                (nth i (cells c) CNaN) T (map risks_of R) i HT
                ltac:(lia))
      as (j & rest & Hj & Hjt & Hbefore & Hmatch).
    { rewrite Hti. apply cell_eqb_refl. now apply Hall. }
    assert (Hjlt : (j < List.length y)%nat) by lia.
    assert (Htj : nth j T CNaN = nth j (cells c) CNaN)
      by (unfold T; now apply nth_tails).
    destruct (nth_error y j) as [q |] eqn:Hq.
    2:{ apply nth_error_None in Hq. lia. }
    exists j, q. repeat split.
    - exact Hj.
    - exact Hq.
    - now rewrite <- Htj.
    - intros k Hk. rewrite <- (nth_tails (cells c) (List.length y) k) by lia.
      now apply Hbefore.
    - unfold row_result, anomalies_where. simpl.
      rewrite Hti, Hmatch. simpl. unfold info_of.
      rewrite Htj. unfold R. rewrite map_nth.
      assert (Hq' : nth_error (map (with_total np) y) j = Some (with_total np q))
        by (rewrite nth_error_map, Hq; reflexivity).
      now rewrite (nth_error_nth _ _ _ Hq'). }
  destruct (row_results_returns (mk_pred_frame (Some T) R)
              (mk_anom_frame (Some T) (map risks_of R)) R 0) as [rs Hrs].
  { intros k row Hk. unfold R in Hk. rewrite nth_error_map in Hk.
    destruct (nth_error y k) as [p |] eqn:Hp; [| discriminate Hk].
    inversion Hk; subst row.
    destruct (Hrow k p Hp) as (j & q & _ & _ & _ & _ & Hres). eauto. }
  rewrite Hrs. exists rs.
  destruct (row_results_entries _ _ _ _ _ Hrs) as [Hlen Hk].
  split; [reflexivity |]. split.
  - rewrite Hlen. unfold R. apply length_map.
  - intros i p Hp.
    destruct (Hrow i p Hp) as (j & q & Hj & Hq & Hjt & Hbefore & Hres).
    exists j, q. repeat split; try assumption.
    destruct (Hk i (with_total np p)) as (r & Hr & Hres').
    { unfold R. rewrite nth_error_map, Hp. reflexivity. }
    simpl in Hres'. congruence.
Qed.

(** ** What a lookup can answer *)

Lemma predict_csv_stored (w : world) (df : frame) (st : state)
  (F : list string) (X : frame) (m : model) (y : list (Q * Q * Q)) :
  feature_names_txt w = Some F ->
  transform_data_for_inference np df F = Ok X ->
  joblib_load w = Ok m ->
  m X = Ok y ->
  snd (predict_csv np w (Ok df) st) = stored np df y.
Proof.
  intros HF HX Hm Hy.
  rewrite (predict_csv_run w st df F X m y HF HX Hm Hy). cbv zeta.
  destruct (row_results _ _ 0 _) as [rs | e]; [reflexivity |].
  now destruct (isinstance_Exception e).
Qed.

Lemma matching_rows_none {A} (tail : cell) (T : list cell) :
  forall R : list A,
    (forall t, In t T -> cell_eqb t tail = false) ->
    matching_rows tail T R = [].
Proof.
  induction T as [| t T IH]; intros [| r R] H; simpl; try reflexivity.
  rewrite (H t) by (simpl; auto). apply IH. intros t' Ht'. apply H.
  simpl; auto.
Qed.

Lemma matching_rows_nil {A} (tail : cell) (T : list cell) :
  forall R : list A,
    List.length T = List.length R ->
    matching_rows tail T R = [] ->
    forall t, In t T -> cell_eqb t tail = false.
Proof.
  induction T as [| t T IH]; intros [| r R] Hlen H t' Ht';
    try discriminate Hlen; [destruct Ht' |].
  simpl in H. destruct (cell_eqb t tail) eqn:E; [discriminate H |].
  destruct Ht' as [<- | Ht']; [exact E |].
  injection Hlen as Hlen. now apply (IH R Hlen H).
Qed.

Lemma matching_rows_cons {A} (tail : cell) (T : list cell) :
  forall (R : list A) (t : cell) (row : A) (rest : list (cell * A)),
    matching_rows tail T R = (t, row) :: rest ->
    cell_eqb t tail = true /\ In row R.
Proof.
  induction T as [| t0 T IH]; intros [| r R] t row rest H;
    try discriminate H.
  simpl in H. destruct (cell_eqb t0 tail) eqn:E.
  - inversion H; subst. split; [exact E | simpl; auto].
  - destruct (IH R t row rest H) as [Ht Hin]. split; [exact Ht | simpl; auto].
Qed.

Lemma numeric_cells_no_text (xs : list (option Q)) (n : nat) (tail : string) :
  forall t,
    In t (map (fun i => nth i (cells (NumCol xs)) CNaN) (seq 0 n)) ->
    cell_eqb t (CStr tail) = false.
Proof.
  intros t Ht. apply in_map_iff in Ht. destruct Ht as (i & <- & _).
  revert i. induction xs as [| [q |] xs IH]; intros [| i]; simpl;
    try reflexivity; apply IH.
Qed.

(** X14: when the TAIL_NUMBER column of the upload is numeric (every tail
    number written in digits only), no flight of that upload can be looked
    up: the lookup compares the stored numbers with the text of the
    request path, which equals none of them, and answers "Tail number not
    found." for every identifier. *)
Theorem numeric_tail_numbers_not_found :
  forall (w : world) (df : frame) (st : state) (F : list string) (X : frame)
         (m : model) (y : list (Q * Q * Q)) (xs : list (option Q))
         (id : string),
    get_col TAIL_NUMBER_COL df = Some (NumCol xs) ->
    feature_names_txt w = Some F ->
    transform_data_for_inference np df F = Ok X ->
    joblib_load w = Ok m ->
    m X = Ok y ->
    y <> [] ->
    get_flight_info id (snd (predict_csv np w (Ok df) st))
    = Ok not_found_message.
Proof.
  intros w df st F X m y xs id Hc HF HX Hm Hy Hne.
  rewrite (predict_csv_stored w df st F X m y HF HX Hm Hy).
  unfold stored. rewrite (predictions_of_tail df _ y Hc).
  apply lookup_not_found.
  - destruct y; [congruence | discriminate].
  - apply matching_rows_none. apply numeric_cells_no_text.
Qed.

(** The prediction frames the upload endpoint stores. *)
Lemma predictions_of_shape (df : frame) (y : list (Q * Q * Q)) :
  (forall row,
      In row (pred_rows (predictions_of np df y)) ->
      Total_Predicted_Delay row
      = sum3 np (CARRIER_DELAY row) (SECURITY_DELAY row)
             (WEATHER_DELAY row)) /\
  (forall T,
      pred_tails (predictions_of np df y) = Some T ->
      List.length T = List.length (pred_rows (predictions_of np df y))).
Proof.
  assert (Hrows : pred_rows (predictions_of np df y) = map (with_total np) y).
  { unfold predictions_of. now destruct (get_col TAIL_NUMBER_COL df). }
  split.
  - intros row Hin. rewrite Hrows in Hin. apply in_map_iff in Hin.
    destruct Hin as ([[c s] w'] & <- & _). reflexivity.
  - intros T HT. rewrite Hrows. revert HT. unfold predictions_of, insert_tails.
    destruct (get_col TAIL_NUMBER_COL df); simpl; [| discriminate].
    intro H. inversion H. now rewrite !length_map, length_seq.
Qed.

Lemma reachable_shape (st : state) :
  reachable np st ->
  (forall row,
      In row (pred_rows (predictions_df st)) ->
      Total_Predicted_Delay row
      = sum3 np (CARRIER_DELAY row) (SECURITY_DELAY row)
             (WEATHER_DELAY row)) /\
  (forall T,
      pred_tails (predictions_df st) = Some T ->
      List.length T = List.length (pred_rows (predictions_df st))).
Proof.
  induction 1 as [| w file st Hst IH].
  - split; [intros row [] | discriminate].
  - destruct (predict_csv_state w file st) as [[Hp _] | (df & y & ->)].
    + now rewrite Hp.
    + apply predictions_of_shape.
Qed.

(** X15: in every state a sequence of uploads can leave, a lookup has one
    of four outcomes.  It answers "No predictions available" exactly when
    no prediction row is stored; it raises KeyError('TAIL_NUMBER') when rows
    are stored without a TAIL_NUMBER column, and raises nothing else; it
    answers "Tail number not found." when no stored tail number is the
    identifier; otherwise it answers with a stored row whose tail number is
    the identifier, and the answer is consistent in itself: the risk
    labels are those of the delays it reports, the suggestions those of
    the same row, and the total is the floating-point sum of the three
    delays, as the upload computed it. *)
Theorem lookup_outcomes :
  forall (st : state) (id : string),
    reachable np st ->
    match get_flight_info id st with
    | Ok (LookupMessage msg) =>
        (pred_rows (predictions_df st) = [] /\
         LookupMessage msg = no_predictions_message) \/
        (pred_rows (predictions_df st) <> [] /\
         LookupMessage msg = not_found_message /\
         exists T,
           pred_tails (predictions_df st) = Some T /\
           forall t, In t T -> t <> CStr id)
    | Ok (LookupInfo r) =>
        exists row,
          In row (pred_rows (predictions_df st)) /\
          r = info_of (CStr id) row
                (mk_anomalies_record (CStr id) (risks_of row)) /\
          Total_Predicted_Delay row
          = sum3 np (CARRIER_DELAY row) (SECURITY_DELAY row)
             (WEATHER_DELAY row)
    | Raise e =>
        e = key_error TAIL_NUMBER_COL /\
        pred_tails (predictions_df st) = None /\
        pred_rows (predictions_df st) <> []
    end.
Proof.
  intros st id Hst.
  pose proof (reachable_consistent st Hst) as Hcons.
  destruct (reachable_shape st Hst) as [Htotal Hlen].
  destruct st as [df [tails rows] adf]. simpl in *. subst adf.
  destruct rows as [| r0 rows].
  { rewrite lookup_empty_state by reflexivity. left. auto. }
  destruct tails as [T |].
  2:{ unfold get_flight_info. simpl. repeat split. discriminate. }
  specialize (Hlen T eq_refl).
  destruct (matching_rows (CStr id) T (r0 :: rows)) as [| [t row] rest] eqn:Hm.
  - rewrite (lookup_not_found df T (r0 :: rows) id ltac:(discriminate) Hm).
    right. repeat split; [discriminate |].
    exists T. split; [reflexivity |].
    intros t Ht E. subst t.
    pose proof (matching_rows_nil _ _ _ Hlen Hm _ Ht) as Hf.
    simpl in Hf. rewrite String.eqb_refl in Hf. discriminate.
  - rewrite (lookup_found df T (r0 :: rows) id t row rest Hm).
    destruct (matching_rows_cons _ _ _ _ _ _ Hm) as [Ht Hin].
    apply cell_eqb_CStr in Ht. subst t.
    exists row. repeat split; [exact Hin | now apply Htotal].
Qed.

(** ** Suggestions for the rows an upload builds *)

Lemma tier_nil (tips : list string) (x hi lo : Q) :
  tips <> [] -> lo <= hi -> (tier tips x hi lo = [] <-> x <= lo).
Proof.
  intros Htips Hlh. unfold tier.
  destruct tips as [| t tips]; [congruence |].
  destruct (tier_cases x hi lo Hlh)
    as [[-> H] | [[-> [-> [H H']]] | [-> [-> H]]]]; simpl;
    split; intro G; try discriminate G; try lra; reflexivity.
Qed.

Lemma total_small (c s w : Q) :
  c <= 5 -> s <= 2 -> w <= 5 -> sum3 np c s w <= 12.
Proof.
  intros Hc Hs Hw.
  apply Qle_trans with (sum3 np (inject_Z 5) (inject_Z 2) (inject_Z 5)).
  - now apply sum3_mono.
  - rewrite sum3_whole by (simpl; lia). apply Qle_refl.
Qed.

(** X16: for a row as the upload builds it, with the total the sum of the
    three delays as numpy computes it, the list of suggestions is empty
    exactly when the carrier delay is at most 5, the weather delay at most
    5 and the security delay at most 2 (the total is then at most 12, so
    the advisory cannot come); and the advisory never stands alone: a list
    that holds it holds a tip of some cause as well. *)
Theorem upload_suggestions :
  forall c s w : Q,
    let row := with_total np (c, s, w) in
    (optimize_suggestions row = [] <-> c <= 5 /\ w <= 5 /\ s <= 2) /\
    (In total_delay_advisory (optimize_suggestions row) ->
     (2 <= List.length (optimize_suggestions row))%nat).
Proof.
  intros c s w. cbv zeta.
  pose proof (advisory_mem (with_total np (c, s, w))) as Hadv.
  rewrite optimize_suggestions_parts in *.
  change (CARRIER_DELAY (with_total np (c, s, w))) with c in *.
  change (WEATHER_DELAY (with_total np (c, s, w))) with w in *.
  change (SECURITY_DELAY (with_total np (c, s, w))) with s in *.
  change (Total_Predicted_Delay (with_total np (c, s, w)))
    with (sum3 np c s w) in *.
  pose proof (tier_nil carrier_suggestions c 15 5 ltac:(discriminate)
                ltac:(lra)) as Hc.
  pose proof (tier_nil weather_suggestions w 10 5 ltac:(discriminate)
                ltac:(lra)) as Hw.
  pose proof (tier_nil security_suggestions s 5 2 ltac:(discriminate)
                ltac:(lra)) as Hs.
  pose proof (total_small c s w) as Hsmall.
  revert Hadv Hc Hw Hs.
  generalize (tier carrier_suggestions c 15 5) as A.
  generalize (tier weather_suggestions w 10 5) as B.
  generalize (tier security_suggestions s 5 2) as C.
  intros C B A Hadv Hc Hw Hs.
  destruct (Qgtb (sum3 np c s w) 20) eqn:Ht.
  - apply Qgtb_gt in Ht. split.
    + split.
      * intro H. apply app_eq_nil in H. destruct H as [_ H].
        apply app_eq_nil in H. destruct H as [_ H].
        apply app_eq_nil in H. destruct H as [_ H]. discriminate H.
      * intros (H1 & H2 & H3). exfalso.
        pose proof (Hsmall H1 H3 H2). lra.
    + intros _. rewrite !length_app. simpl.
      destruct A as [| a A]; [| simpl; lia].
      destruct B as [| b B]; [| simpl; lia].
      destruct C as [| c0 C]; [| simpl; lia].
      exfalso.
      pose proof (Hsmall (proj1 Hc eq_refl) (proj1 Hs eq_refl)
                         (proj1 Hw eq_refl)). lra.
  - split.
    + rewrite !app_nil_r. split.
      * intro H. apply app_eq_nil in H. destruct H as [HA H].
        apply app_eq_nil in H. destruct H as [HB HC].
        repeat split; [now apply Hc | now apply Hw | now apply Hs].
      * intros (H1 & H2 & H3).
        apply Hc in H1. apply Hw in H2. apply Hs in H3.
        now rewrite H1, H2, H3.
    + intro Hin. apply mem_In in Hin. congruence.
Qed.

(** ** The median does not depend on the order of the rows *)

Lemma present_perm {A} (xs ys : list (option A)) :
  Permutation xs ys -> Permutation (present xs) (present ys).
Proof.
  induction 1 as [| [a |] l l' H IH | [a |] [b |] l | l l' l'' H IH H' IH'];
    simpl; auto.
  - apply perm_swap.
  - now apply perm_trans with (present l').
Qed.

Lemma filter_length_perm {A} (f : A -> bool) (l l' : list A) :
  Permutation l l' ->
  List.length (filter f l) = List.length (filter f l').
Proof.
  induction 1 as [| a l l' H IH | a b l | l l' l'' H IH H' IH']; simpl.
  - reflexivity.
  - destruct (f a); simpl; now rewrite IH.
  - destruct (f a), (f b); reflexivity.
  - congruence.
Qed.

Lemma filter_length_le {A} (f g : A -> bool) (l : list A) :
  (forall x, f x = true -> g x = true) ->
  (List.length (filter f l) <= List.length (filter g l))%nat.
Proof.
  intro H. induction l as [| a l IH]; simpl; [lia |].
  destruct (f a) eqn:E.
  - rewrite (H a E). simpl. lia.
  - destruct (g a); simpl; lia.
Qed.

Lemma count_lt_above (a : Q) (l : list Q) :
  Forall (Qle a) l -> count_lt a l = 0%nat.
Proof.
  unfold count_lt. induction 1 as [| x l Hx Hl IH]; simpl; [reflexivity |].
  assert (E : Qltb x a = false) by now apply Qltb_ge.
  now rewrite E.
Qed.

(** In a sorted list fewer than [k + 1] values are below the value at
    position [k], and at least [k + 1] are at most it. *)
Lemma sorted_nth_counts (s : list Q) :
  StronglySorted Qle s ->
  forall k,
    (k < List.length s)%nat ->
    (count_lt (nth k s 0%Q) s <= k)%nat /\
    (k < count_le (nth k s 0%Q) s)%nat.
Proof.
  induction 1 as [| a s Hs IH Ha]; intros k Hk; simpl in Hk; [lia |].
  destruct k as [| k].
  - simpl nth. split.
    + unfold count_lt. simpl.
      assert (E : Qltb a a = false) by (apply Qltb_ge; apply Qle_refl).
      rewrite E. fold (count_lt a s). rewrite (count_lt_above a s Ha). lia.
    + unfold count_le. simpl.
      assert (E : Qle_bool a a = true) by (apply Qle_bool_iff; apply Qle_refl).
      rewrite E. simpl. lia.
  - simpl nth. destruct (IH k ltac:(lia)) as [Hlt Hle]. split.
    + unfold count_lt in *. simpl.
      destruct (Qltb a (nth k s 0)); simpl; lia.
    + unfold count_le in *. simpl.
      assert (E : Qle_bool a (nth k s 0) = true).
      { apply Qle_bool_iff. rewrite Forall_forall in Ha. apply Ha.
        apply nth_In. lia. }
      rewrite E. simpl. lia.
Qed.

Lemma sorted_perm_nth (s s' : list Q) (k : nat) :
  Sorted Qle s -> Sorted Qle s' -> Permutation s s' ->
  (k < List.length s)%nat ->
  nth k s 0 == nth k s' 0.
Proof.
  intros Hs Hs' Hp Hk.
  apply sorted_strongly in Hs, Hs'.
  assert (Hk' : (k < List.length s')%nat)
    by now rewrite <- (Permutation_length Hp).
  destruct (sorted_nth_counts s Hs k Hk) as [Hlt Hle].
  destruct (sorted_nth_counts s' Hs' k Hk') as [Hlt' Hle'].
  set (v := nth k s 0) in *. set (v' := nth k s' 0) in *.
  destruct (Qlt_le_dec v v') as [H | H].
  - exfalso.
    assert (count_le v s' <= count_lt v' s')%nat.
    { apply filter_length_le. intros x Hx. apply Qle_bool_iff in Hx.
      apply Qltb_lt. lra. }
    unfold count_le in Hle.
    rewrite (filter_length_perm _ s s' Hp) in Hle. fold (count_le v s') in Hle.
    lia.
  - destruct (Qlt_le_dec v' v) as [H' | H']; [| lra].
    exfalso.
    assert (count_le v' s <= count_lt v s)%nat.
    { apply filter_length_le. intros x Hx. apply Qle_bool_iff in Hx.
      apply Qltb_lt. lra. }
    unfold count_le in Hle'.
    rewrite <- (filter_length_perm _ s s' Hp) in Hle'.
    fold (count_le v' s) in Hle'. lia.
Qed.

Lemma median_perm (xs ys : list (option Q)) :
  Permutation xs ys -> same_number (median np xs) (median np ys).
Proof.
  intro Hp. unfold median. cbv zeta.
  assert (Hs : Permutation (sort_values (present xs))
                           (sort_values (present ys))).
  { apply perm_trans with (present xs); [apply sort_values_perm |].
    apply perm_trans with (present ys); [now apply present_perm |].
    apply Permutation_sym, sort_values_perm. }
  pose proof (Permutation_length Hs) as Hlen.
  pose proof (sort_values_sorted (present xs)) as Sx.
  pose proof (sort_values_sorted (present ys)) as Sy.
  revert Hs Hlen Sx Sy.
  generalize (sort_values (present xs)) as s.
  generalize (sort_values (present ys)) as s'.
  intros s' s Hs Hlen Sx Sy. rewrite <- Hlen.
  destruct (List.length s) as [| n] eqn:En; [exact I |].
  assert (H2 : (S n / 2 < List.length s)%nat).
  { rewrite En. apply Nat.Div0.div_lt_upper_bound. lia. }
  pose proof (sorted_perm_nth s s' _ Sx Sy Hs H2) as E2.
  destruct (Nat.even (S n)); simpl.
  - assert (H1 : (S n / 2 - 1 < List.length s)%nat) by lia.
    pose proof (sorted_perm_nth s s' _ Sx Sy Hs H1) as E1.
    now apply mean2_compat.
  - exact E2.
Qed.

(** X17: the median the imputation uses does not depend on the order of
    the rows: two batches that hold the same cells of a column in a
    different order get the same median (or both none), and every value of
    the one imputed column is a value of the other. *)
Theorem median_order_independent :
  forall xs ys : list (option Q),
    Permutation xs ys ->
    same_number (median np xs) (median np ys) /\
    (forall q, In (Some q) (fillna (median np xs) xs) ->
       exists q', q == q' /\ In (Some q') (fillna (median np ys) ys)).
Proof.
  intros xs ys Hp.
  pose proof (median_perm xs ys Hp) as Hm.
  split; [exact Hm |].
  intros q Hq. unfold fillna in *. apply in_map_iff in Hq.
  destruct Hq as ([x |] & E & Hin).
  - inversion E; subst x. exists q. split; [reflexivity |].
    apply in_map_iff. exists (Some q). split; [reflexivity |].
    now apply (Permutation_in _ Hp).
  - destruct (median np ys) as [m' |] eqn:Ey; rewrite E in Hm;
      simpl in Hm; [| contradiction].
    exists m'. split; [exact Hm |].
    apply in_map_iff. exists None. split; [reflexivity |].
    now apply (Permutation_in _ Hp).
Qed.

(** ** Risk labels and tips of one cause *)

Lemma labelled_positive (v : Q) :
  (1 <= risk_rank (risk_label v))%nat -> 0 < v -> 15 <= v.
Proof.
  intros Hrank Hpos.
  destruct (risk_label_cases v) as [[H1 E] | [[H1 [H2 E]] | [H1 E]]];
    rewrite E in Hrank.
  - vm_compute in Hrank. lia.
  - rewrite Qabs_pos in H1 by lra. exact H1.
  - rewrite Qabs_pos in H1 by lra. lra.
Qed.

Lemma tier_full (tips : list string) (x hi lo : Q) :
  hi < x -> tier tips x hi lo = firstn 5 tips.
Proof.
  intro H. unfold tier. apply Qgtb_gt in H. now rewrite H.
Qed.

Lemma tier_first (tips : list string) (x hi lo : Q) :
  tips <> [] -> lo <= hi -> lo < x -> In (item0 tips) (tier tips x hi lo).
Proof.
  intros Htips Hlh H. unfold tier.
  destruct (Qgtb x hi).
  - destruct tips as [| t tips]; [congruence |]. simpl. auto.
  - apply Qgtb_gt in H. rewrite H. simpl. auto.
Qed.

Lemma tier_none (tips : list string) (x hi lo : Q) :
  lo <= hi -> x <= lo -> tier tips x hi lo = [].
Proof.
  intros Hlh H. unfold tier.
  assert (E1 : Qgtb x hi = false) by (apply Qgtb_le; lra).
  assert (E2 : Qgtb x lo = false) by (apply Qgtb_le; lra).
  now rewrite E1, E2.
Qed.

(** X18: the risk label of a cause goes by the magnitude of its delay,
    the tips by the delay itself.  A cause with a positive delay that is
    labelled MEDIUM or HIGH always gets tips: all five for weather and
    security, the first one at least for the carrier and all five when its
    label is HIGH.  A delay that is not positive gets no tip, whatever its
    label: when none of the three delays is positive the list holds
    nothing but, at most, the advisory. *)
Theorem labelled_causes_get_tips :
  forall row : pred_row,
    let risks := risks_of row in
    let tips := optimize_suggestions row in
    ((1 <= risk_rank (CARRIER_DELAY_RISK risks))%nat ->
     0 < CARRIER_DELAY row -> In (item0 carrier_suggestions) tips) /\
    (risk_rank (CARRIER_DELAY_RISK risks) = 2%nat ->
     0 < CARRIER_DELAY row -> incl (firstn 5 carrier_suggestions) tips) /\
    ((1 <= risk_rank (WEATHER_DELAY_RISK risks))%nat ->
     0 < WEATHER_DELAY row -> incl (firstn 5 weather_suggestions) tips) /\
    ((1 <= risk_rank (SECURITY_DELAY_RISK risks))%nat ->
     0 < SECURITY_DELAY row -> incl (firstn 5 security_suggestions) tips) /\
    (CARRIER_DELAY row <= 0 -> WEATHER_DELAY row <= 0 ->
     SECURITY_DELAY row <= 0 ->
     forall tip, In tip tips -> tip = total_delay_advisory).
Proof.
  intro row. cbv zeta. rewrite optimize_suggestions_parts.
  unfold risks_of. simpl.
  repeat split.
  - intros Hr Hpos. apply in_or_app. left.
    apply tier_first; [discriminate | lra |].
    pose proof (labelled_positive _ Hr Hpos). lra.
  - intros Hr Hpos. apply incl_appl.
    rewrite tier_full; [apply incl_refl |].
    destruct (risk_label_cases (CARRIER_DELAY row))
      as [[H1 E] | [[H1 [H2 E]] | [H1 E]]]; rewrite E in Hr;
      try (vm_compute in Hr; discriminate Hr).
    rewrite Qabs_pos in H1 by lra. lra.
  - intros Hr Hpos. apply incl_appr, incl_appl.
    rewrite tier_full; [apply incl_refl |].
    pose proof (labelled_positive _ Hr Hpos). lra.
  - intros Hr Hpos. apply incl_appr, incl_appr, incl_appl.
    rewrite tier_full; [apply incl_refl |].
    pose proof (labelled_positive _ Hr Hpos). lra.
  - intros Hc Hw Hs tip.
    rewrite !tier_none by lra. simpl.
    destruct (Qgtb (Total_Predicted_Delay row) 20); simpl;
      [intros [E | []]; now symmetry | intros []].
Qed.

(** ** What the engineering steps need *)

Lemma present_nil_full (xs : list (option Q)) :
  present xs = [] -> existsb is_none xs = false -> xs = [].
Proof.
  destruct xs as [| [q |] xs]; simpl; intros H1 H2;
    [reflexivity | discriminate H1 | discriminate H2].
Qed.

Lemma existsb_is_none_nil {A} (xs : list (option A)) :
  existsb is_some xs = false ->
  existsb is_none (map (fun _ => @None Q) xs) = false ->
  xs = [].
Proof.
  destruct xs as [| [a |] xs]; simpl; intros H1 H2;
    [reflexivity | discriminate H1 | discriminate H2].
Qed.

Lemma dep_time_features_needs (df df' : frame) (c : column) :
  dep_time_features np df = Ok df' ->
  get_col "CRS_DEP_TIME" df = Some c ->
  workable_time c.
Proof.
  intros H Hget. unfold dep_time_features in H.
  rewrite (has_col_of_get _ _ _ Hget), (getitem_get _ _ _ Hget) in H.
  destruct c as [xs | xs | c]; simpl in H.
  - left. exists xs. split; [reflexivity |].
    unfold astype_int8 in H at 1. rewrite is_none_map in H.
    destruct (existsb is_none xs); [discriminate H | reflexivity].
  - right.
    destruct (existsb is_some xs) eqn:E; simpl in H; [discriminate H |].
    unfold astype_int8 in H at 1.
    destruct (existsb is_none (map (fun _ => None) xs)) eqn:E';
      [discriminate H |].
    now rewrite (existsb_is_none_nil xs E E').
  - discriminate H.
Qed.

Lemma calendar_feature_needs (df df' : frame) (col : string) (c : column) :
  calendar_feature np df col = Ok df' ->
  get_col col df = Some c ->
  usable_calendar c.
Proof.
  intros H Hget. unfold calendar_feature in H.
  rewrite (has_col_of_get _ _ _ Hget), (getitem_get _ _ _ Hget) in H.
  unfold sin_encode in H at 1.
  destruct c as [xs | xs | c]; simpl in *.
  - exact I.
  - destruct (existsb is_some xs); simpl in H; [discriminate H |].
    destruct xs; [reflexivity | discriminate H].
  - discriminate H.
Qed.

Lemma workable_filled (c : column) :
  workable_time (match filled np (Some c) with Some c' => c' | None => c end)
  <-> usable_time c.
Proof.
  destruct c as [xs | xs | c]; simpl; unfold workable_time.
  - split.
    + intros [(ys & E & Hfull) | E]; [| discriminate E].
      inversion E; subst ys.
      destruct (present xs) as [| q l] eqn:Hp; [| right; discriminate].
      left. rewrite (median_absent xs Hp), fillna_None in Hfull.
      now apply present_nil_full.
    + intros [-> | Hp]; left; eexists; split; try reflexivity.
      destruct (median_present xs Hp) as [m ->]. apply fillna_Some_full.
  - split.
    + intros [(ys & E & _) | E]; [discriminate E | now inversion E].
    + intros ->. now right.
  - split; [| contradiction].
    intros [(ys & E & _) | E]; discriminate E.
Qed.

Lemma usable_calendar_filled (o : option column) (c : column) :
  filled np o = Some c ->
  usable_calendar c <-> (forall c', o = Some c' -> usable_calendar c').
Proof.
  destruct o as [[xs | xs | c0] |]; simpl; intro H; inversion H; subst c;
    simpl; split; intro H';
    first [ exact I
          | exact (H' _ eq_refl)
          | intros c' E; inversion E; subst c'; simpl; auto ].
Qed.

(** X19: the engineering steps of the aligner return only on an upload
    whose scheduled departure time, if the upload has that column, is
    numeric with a present value in some row (or the upload has no row),
    and whose month and day of week, if there, are numeric (or the upload
    has no row): on an upload with a time written as text, or with a time
    column without any value, they raise, so the upload is answered with
    an error envelope and no matrix is built. *)
Theorem engineering_requirements :
  forall df eng : frame,
    engineer np df = Ok eng -> time_columns_usable df.
Proof.
  intros df eng Heng.
  set (d0 := fill_missing_numeric np (rename column_mapping df)).
  assert (G : forall c,
             ~ In c (map fst column_mapping ++ map snd column_mapping) ->
             get_col c d0 = filled np (get_col c df))
    by (intros c Hc; now apply time_column_input).
  destruct (engineer_inv df eng Heng) as (d1 & d2 & d3 & H0 & H1 & H2 & _).
  fold d0 in H0. repeat split.
  - intros c Hc. apply workable_filled. simpl.
    apply (dep_time_features_needs d0 d1 _ H0).
    rewrite G by not_listed. rewrite Hc. simpl.
    now destruct c.
  - intros c Hc.
    assert (Hd1 : get_col "MONTH" d1 = filled np (Some c)).
    { rewrite (select_get _ _ _ (dep_time_features_other d0 d1 "MONTH" H0
                 ltac:(not_listed))).
      rewrite G by not_listed. now rewrite Hc. }
    destruct (filled np (Some c)) as [c' |] eqn:Ef;
      [| destruct c; discriminate Ef].
    apply (usable_calendar_filled _ _ Ef); [| reflexivity].
    apply (calendar_feature_needs d1 d2 "MONTH" c' H1 Hd1).
  - intros c Hc.
    assert (Hd2 : get_col "DAY_OF_WEEK" d2 = filled np (Some c)).
    { rewrite (select_get _ _ _ (calendar_feature_other d1 d2 "MONTH"
                 "DAY_OF_WEEK" H1 ltac:(labels_differ) ltac:(labels_differ))).
      rewrite (select_get _ _ _ (dep_time_features_other d0 d1
                 "DAY_OF_WEEK" H0 ltac:(not_listed))).
      rewrite G by not_listed. now rewrite Hc. }
    destruct (filled np (Some c)) as [c' |] eqn:Ef;
      [| destruct c; discriminate Ef].
    apply (usable_calendar_filled _ _ Ef); [| reflexivity].
    apply (calendar_feature_needs d2 d3 "DAY_OF_WEEK" c' H2 Hd2).
Qed.

End Properties.

(** * Sample runs *)

Lemma two_flights_labels : unique_labels (rename column_mapping two_flights).
Proof.
  unfold unique_labels. vm_compute.
  repeat (constructor; [simpl; intuition discriminate |]). constructor.
Defined.

(** The two-row upload goes through the aligner: its five expected
    features come out in order, the absent AIRLINE_DL as zeros. *)
Lemma align_columns_witness :
  engineer sample_np two_flights = Ok two_flights_engineered /\
  exists out,
    transform_data_for_inference sample_np two_flights two_flights_features
    = Ok out /\
    nrows out = 2%nat /\
    names out = two_flights_features /\
    get_col "AIRLINE_DL" out = Some (const_col 2 0).
Proof.
  assert (E : engineer sample_np two_flights = Ok two_flights_engineered)
    by (vm_compute; reflexivity).
  split; [exact E |].
  destruct (proj1 (align_columns sample_np two_flights two_flights_features)
              two_flights_engineered E)
    as (out & Hout & Hrows & _ & Hnames & Hzero & _).
  - intros f Hf. apply Nat.leb_le. simpl in Hf.
    repeat (destruct Hf as [<- | Hf]; [vm_compute; reflexivity |]).
    contradiction.
  - exists out. repeat split.
    + exact Hout.
    + exact Hrows.
    + apply Hnames. repeat constructor; simpl; intuition discriminate.
    + apply Hzero; [simpl; tauto | vm_compute; reflexivity].
Defined.

(** The aligner gives no matrix for a departure time written as text, and a
    feature list that repeats a name gets one column for it. *)
Lemma align_columns_counterexample :
  transform_data_for_inference sample_np text_time ["DEP_HOUR"]
  = Raise (mk_exn TypeError
             "unsupported operand type(s) for //: 'str' and 'int'") /\
  transform_data_for_inference sample_np batch_a ["DISTANCE"; "DISTANCE"]
  = Ok (mk_frame 4 [("DISTANCE",
                     NumCol [Some 200; Some 300; Some 100; Some 200])]).
Proof. split; vm_compute; reflexivity. Qed.


(** Departures at 8:30 and 17:45. *)
Lemma time_encoding_witness :
  engineer sample_np two_flights = Ok two_flights_engineered /\
  get_col "DEP_HOUR" two_flights_engineered
  = Some (NumCol [Some 8; Some 17]) /\
  get_col "DEP_MINUTE" two_flights_engineered
  = Some (NumCol [Some 30; Some 45]).
Proof.
  assert (E : engineer sample_np two_flights = Ok two_flights_engineered)
    by (vm_compute; reflexivity).
  split; [exact E |].
  assert (Ht : get_col "CRS_DEP_TIME" two_flights
               = Some (NumCol [Some 830; Some 1745]))
    by (vm_compute; reflexivity).
  destruct (proj1 (time_encoding sample_np two_flights)
              two_flights_engineered [Some 830; Some 1745] E Ht)
    as (ts & Hts & Hhour & Hminute & _).
  assert (ts = [830; 1745]) as ->.
  { unfold all_present in Hts. vm_compute in Hts.
    destruct ts as [| a [| b [| c ts]]]; inversion Hts. reflexivity. }
  split; [rewrite Hhour | rewrite Hminute]; vm_compute; reflexivity.
Defined.

(** A time value of 20000 gives the hour -56, not 200; a time written as
    text gives no hour at all. *)
Lemma time_encoding_counterexample :
  (exists eng,
      engineer sample_np late_time = Ok eng /\
      get_col "CRS_DEP_TIME" eng = Some (NumCol [Some 20000]) /\
      get_col "DEP_HOUR" eng = Some (NumCol [Some (-56)]) /\
      floordiv sample_np 20000 100 = 200) /\
  engineer sample_np text_time
  = Raise (mk_exn TypeError
             "unsupported operand type(s) for //: 'str' and 'int'").
Proof.
  split; [| vm_compute; reflexivity].
  eexists. split; [vm_compute; reflexivity |].
  repeat split; vm_compute; reflexivity.
Qed.

(** After the two-row upload an unknown identifier is not found and a known
    one gets a response. *)
Lemma lookup_responses_witness :
  predict_csv sample_np two_flights_world (Ok two_flights) initial_state
  = (Ok (UploadSuccess two_flights_results), two_flights_state) /\
  get_flight_info "N999" two_flights_state = Ok not_found_message /\
  exists response, get_flight_info "N200" two_flights_state = Ok response.
Proof.
  assert (H : predict_csv sample_np two_flights_world (Ok two_flights)
                          initial_state
              = (Ok (UploadSuccess two_flights_results), two_flights_state))
    by (vm_compute; reflexivity).
  split; [exact H |].
  split.
  - destruct (lookup_responses sample_np two_flights_world (Ok two_flights)
                initial_state two_flights_state two_flights_results "N999" H)
      as (_ & _ & Hunknown & _).
    apply Hunknown; [vm_compute; discriminate |].
    intros r Hr. vm_compute in Hr.
    repeat (destruct Hr as [<- | Hr]; [discriminate |]). contradiction.
  - exact (proj2 (proj2 (proj2 (proj2
             (lookup_responses sample_np two_flights_world (Ok two_flights)
                initial_state two_flights_state two_flights_results
                "N200" H))))).
Defined.

(** Two rows carry N100: the lookup returns the entry of the first, whose
    predictions are not those of the second; and after a successful upload
    without rows an identifier that is not in the bulk result gets the
    "no predictions" message. *)
Lemma lookup_responses_counterexample :
  (predict_csv sample_np same_tail_world (Ok same_tail) initial_state
   = (Ok (UploadSuccess [same_tail_first; same_tail_second]),
      same_tail_state) /\
   fi_TAIL_NUMBER same_tail_second = CStr "N100" /\
   get_flight_info "N100" same_tail_state = Ok (LookupInfo same_tail_first) /\
   fi_CARRIER_DELAY same_tail_first = 1 /\
   fi_CARRIER_DELAY same_tail_second = 20) /\
  (predict_csv sample_np plain_world (Ok header_only_with_tail) initial_state
   = (Ok (UploadSuccess []), header_only_state) /\
   get_flight_info "N100" header_only_state = Ok no_predictions_message).
Proof. repeat split; vm_compute; reflexivity. Qed.

(** An upload of one row without a TAIL_NUMBER column, then a lookup. *)
Lemma lookup_raises_after_upload_without_tail_witness :
  has_col TAIL_NUMBER_COL no_tail = false /\
  fst (predict_csv sample_np plain_world (Ok no_tail) initial_state)
  = Ok (UploadError "'TAIL_NUMBER'") /\
  get_flight_info "N100" no_tail_state = Raise (key_error "TAIL_NUMBER").
Proof.
  assert (H : has_col TAIL_NUMBER_COL no_tail = false)
    by (vm_compute; reflexivity).
  split; [exact H |].
  assert (HX : transform_data_for_inference sample_np no_tail ["DISTANCE"]
               = Ok (mk_frame 1 [("DISTANCE", NumCol [Some 100])]))
    by (vm_compute; reflexivity).
  apply (lookup_raises_after_upload_without_tail sample_np plain_world no_tail
           initial_state ["DISTANCE"]
           (mk_frame 1 [("DISTANCE", NumCol [Some 100])])
           (constant_model (1, 1, 1)) [(1, 1, 1)] "N100"
           H eq_refl HX eq_refl eq_refl).
  discriminate.
Defined.

(** The state the two-row upload leaves. *)
Lemma stored_frames_consistent_witness :
  reachable sample_np two_flights_state /\
  anomalies_df two_flights_state
  = detect_anomalies (predictions_df two_flights_state).
Proof.
  assert (H : reachable sample_np two_flights_state)
    by (apply reachable_upload, reachable_initial).
  split; [exact H |].
  exact (stored_frames_consistent sample_np two_flights_state H).
Defined.

(** With the feature-names file absent the upload returns the error
    envelope; the exception does not leave the endpoint. *)
Lemma upload_exceptions_counterexample :
  load_feature_names "feature_names.txt"
                     (feature_names_txt no_feature_file_world)
  = Raise (mk_exn FileNotFoundError
             "Feature names file 'feature_names.txt' not found.") /\
  fst (predict_csv sample_np no_feature_file_world (Ok two_flights)
                   initial_state)
  = Ok (UploadError "Feature names file 'feature_names.txt' not found.").
Proof. split; vm_compute; reflexivity. Qed.

(** One row, no TAIL_NUMBER column: the error envelope. *)
Lemma upload_without_tail_number_witness :
  has_col TAIL_NUMBER_COL no_tail = false /\
  fst (predict_csv sample_np plain_world (Ok no_tail) initial_state)
  = Ok (UploadError "'TAIL_NUMBER'").
Proof.
  assert (H : has_col TAIL_NUMBER_COL no_tail = false)
    by (vm_compute; reflexivity).
  split; [exact H |].
  destruct (upload_without_tail_number sample_np plain_world no_tail
              initial_state H) as [Hrun _].
  assert (HX : transform_data_for_inference sample_np no_tail ["DISTANCE"]
               = Ok (mk_frame 1 [("DISTANCE", NumCol [Some 100])]))
    by (vm_compute; reflexivity).
  destruct (Hrun ["DISTANCE"]
                 (mk_frame 1 [("DISTANCE", NumCol [Some 100])])
                 (constant_model (1, 1, 1)) [(1, 1, 1)]
                 eq_refl HX eq_refl eq_refl) as [Herr _].
  rewrite Herr; [reflexivity | discriminate].
Defined.

(** A header without TAIL_NUMBER and no row: the success envelope with the
    empty list. *)
Lemma upload_without_tail_number_counterexample :
  has_col TAIL_NUMBER_COL header_only = false /\
  fst (predict_csv sample_np plain_world (Ok header_only) initial_state)
  = Ok (UploadSuccess []).
Proof. split; vm_compute; reflexivity. Qed.

(** Two rows carry N100: the lookup answers with the first. *)
Lemma lookup_returns_first_match_witness :
  reachable sample_np same_tail_state /\
  get_flight_info "N100" same_tail_state = Ok (LookupInfo same_tail_first).
Proof.
  assert (H : reachable sample_np same_tail_state)
    by (apply reachable_upload, reachable_initial).
  split; [exact H |].
  assert (HT : pred_tails (predictions_df same_tail_state)
               = Some ([] ++ CStr "N100" :: [CStr "N100"])%list)
    by (vm_compute; reflexivity).
  assert (HR : pred_rows (predictions_df same_tail_state)
               = ([] ++ mk_pred_row 1 1 1 3 :: [mk_pred_row 20 1 1 22])%list)
    by (vm_compute; reflexivity).
  rewrite (lookup_returns_first_match sample_np same_tail_state "N100"
             [] [CStr "N100"] [] [mk_pred_row 20 1 1 22] (mk_pred_row 1 1 1 3)
             H HT HR eq_refl (fun t (F : In t []) => match F with end)).
  reflexivity.
Defined.

(** Two rows carry the tail number 12345, which [read_csv] reads as a
    number: the upload succeeds with both entries, and the lookup of
    "12345" finds neither. *)
Lemma lookup_returns_first_match_counterexample :
  exists results,
    predict_csv sample_np same_tail_world (Ok numeric_same_tail) initial_state
    = (Ok (UploadSuccess results), numeric_same_tail_state) /\
    map fi_TAIL_NUMBER results = [CNum 12345; CNum 12345] /\
    pred_rows (predictions_df numeric_same_tail_state)
    = [mk_pred_row 1 1 1 3; mk_pred_row 20 1 1 22] /\
    get_flight_info "12345" numeric_same_tail_state = Ok not_found_message.
Proof.
  eexists. split; [vm_compute; reflexivity |].
  repeat split; vm_compute; reflexivity.
Qed.

(** * Sample runs of the further properties *)

(** Raising the carrier delay from 6 to 16 keeps the first carrier tip. *)
Lemma optimize_suggestions_monotone_witness :
  row_le (mk_pred_row 6 1 1 8) (mk_pred_row 16 1 1 18) /\
  incl (optimize_suggestions (mk_pred_row 6 1 1 8))
       (optimize_suggestions (mk_pred_row 16 1 1 18)).
Proof.
  assert (H : row_le (mk_pred_row 6 1 1 8) (mk_pred_row 16 1 1 18))
    by (unfold row_le; simpl; repeat split; lra).
  split; [exact H |].
  exact (optimize_suggestions_monotone _ _ H).
Defined.

(** Present values 1, 3 and 2: the median 2 lies between 1 and 3. *)
Lemma imputation_within_range_witness :
  (forall q, In (Some q) [Some 1; None; Some 3; Some 2] -> 1 <= q /\ q <= 3) /\
  - exact_bound <= 1 /\ 3 <= exact_bound /\
  median sample_np [Some 1; None; Some 3; Some 2] = Some 2 /\
  1 <= 2 /\ 2 <= 3.
Proof.
  assert (H : forall q, In (Some q) [Some 1; None; Some 3; Some 2] ->
                        1 <= q /\ q <= 3).
  { intros q [E | [E | [E | [E | []]]]]; inversion E; split; lra. }
  assert (Ha : - exact_bound <= 1) by (vm_compute; discriminate).
  assert (Hb : 3 <= exact_bound) by (vm_compute; discriminate).
  assert (Hm : median sample_np [Some 1; None; Some 3; Some 2] = Some 2)
    by (vm_compute; reflexivity).
  split; [exact H |].
  split; [exact Ha |].
  split; [exact Hb |].
  split; [exact Hm |].
  exact (proj1 (imputation_within_range sample_np _ 1 3 H Ha Hb) 2 Hm).
Defined.

(** Departures at 8:30 and 17:45: minutes within 0..100. *)
Lemma dep_time_columns_in_range_witness :
  engineer sample_np two_flights = Ok two_flights_engineered /\
  get_col "CRS_DEP_TIME" two_flights = Some (NumCol [Some 830; Some 1745]) /\
  exists hs ms,
    get_col "DEP_HOUR" two_flights_engineered = Some (NumCol (map Some hs)) /\
    get_col "DEP_MINUTE" two_flights_engineered
    = Some (NumCol (map Some ms)) /\
    (forall m, In m ms -> 0 <= m /\ m <= 100).
Proof.
  assert (E : engineer sample_np two_flights = Ok two_flights_engineered)
    by (vm_compute; reflexivity).
  assert (Ht : get_col "CRS_DEP_TIME" two_flights
               = Some (NumCol [Some 830; Some 1745]))
    by (vm_compute; reflexivity).
  split; [exact E |].
  split; [exact Ht |].
  destruct (proj1 (dep_time_columns_in_range sample_np two_flights
                     two_flights_engineered [Some 830; Some 1745] E Ht))
    as (hs & ms & Hh & Hm & _ & _ & _ & Hmin & _).
  exists hs, ms. repeat split; try assumption; now apply Hmin.
Defined.

(** The two-row upload has no origin airport: the engineered frame has
    the column, all NaN. *)
Lemma categorical_columns_present_witness :
  unique_labels (rename column_mapping two_flights) /\
  engineer sample_np two_flights = Ok two_flights_engineered /\
  In "ORIGIN_AIRPORT_CODE" CATEGORICAL_COLS_FOR_XGB /\
  get_col "ORIGIN_AIRPORT_CODE" two_flights_engineered
  = Some (CatCol (NumCol [None; None])).
Proof.
  assert (E : engineer sample_np two_flights = Ok two_flights_engineered)
    by (vm_compute; reflexivity).
  assert (Hin : In "ORIGIN_AIRPORT_CODE" CATEGORICAL_COLS_FOR_XGB)
    by (left; reflexivity).
  assert (Habs : has_col "ORIGIN_AIRPORT_CODE"
                         (rename column_mapping two_flights) = false)
    by (vm_compute; reflexivity).
  split; [exact two_flights_labels |].
  split; [exact E |].
  split; [exact Hin |].
  exact (proj2 (proj2 (categorical_columns_present sample_np two_flights
                         two_flights_engineered "ORIGIN_AIRPORT_CODE"
                         two_flights_labels E Hin)) Habs).
Defined.


(** The second of two rows has no tail number: the error envelope. *)
Lemma upload_with_missing_tail_witness :
  get_col TAIL_NUMBER_COL missing_tail = Some (ObjCol [Some "N100"; None]) /\
  predict_csv sample_np same_tail_world (Ok missing_tail) initial_state
  = (Ok (UploadError "list index out of range"),
     stored sample_np missing_tail [(1, 1, 1); (20, 1, 1)]).
Proof.
  assert (Hc : get_col TAIL_NUMBER_COL missing_tail
               = Some (ObjCol [Some "N100"; None]))
    by (vm_compute; reflexivity).
  assert (HX : transform_data_for_inference sample_np missing_tail
                 ["DISTANCE"] = Ok (distance_matrix missing_tail))
    by (vm_compute; reflexivity).
  split; [exact Hc |].
  apply (upload_with_missing_tail sample_np same_tail_world missing_tail
           initial_state ["DISTANCE"] (distance_matrix missing_tail)
           (fixed_model [(1, 1, 1); (20, 1, 1)]) [(1, 1, 1); (20, 1, 1)]
           (ObjCol [Some "N100"; None]) 1 Hc eq_refl HX eq_refl eq_refl).
  - simpl. lia.
  - reflexivity.
Defined.

(** Two rows with the tail number N100: two entries. *)
Lemma upload_entries_witness :
  get_col TAIL_NUMBER_COL same_tail
  = Some (ObjCol [Some "N100"; Some "N100"]) /\
  exists results,
    predict_csv sample_np same_tail_world (Ok same_tail) initial_state
    = (Ok (UploadSuccess results), stored sample_np same_tail [(1, 1, 1); (20, 1, 1)]) /\
    List.length results = 2%nat.
Proof.
  assert (Hc : get_col TAIL_NUMBER_COL same_tail
               = Some (ObjCol [Some "N100"; Some "N100"]))
    by (vm_compute; reflexivity).
  assert (HX : transform_data_for_inference sample_np same_tail ["DISTANCE"]
               = Ok (distance_matrix same_tail))
    by (vm_compute; reflexivity).
  assert (Hall : forall i,
             (i < List.length [(1, 1, 1); (20, 1, 1)])%nat ->
             nth i (cells (ObjCol [Some "N100"; Some "N100"])) CNaN <> CNaN).
  { intros [| [| i]] Hi; simpl in *; [discriminate | discriminate | lia]. }
  split; [exact Hc |].
  destruct (upload_entries sample_np same_tail_world same_tail initial_state
              ["DISTANCE"] (distance_matrix same_tail)
              (fixed_model [(1, 1, 1); (20, 1, 1)]) [(1, 1, 1); (20, 1, 1)]
              (ObjCol [Some "N100"; Some "N100"])
              Hc eq_refl HX eq_refl eq_refl Hall)
    as (results & Hrun & Hlen & _).
  exists results. split; [exact Hrun | exact Hlen].
Defined.

(** Tail number 12345, read as a number: the lookup of "12345" finds
    nothing. *)
Lemma numeric_tail_numbers_not_found_witness :
  get_col TAIL_NUMBER_COL numeric_tail = Some (NumCol [Some 12345]) /\
  get_flight_info "12345"
    (snd (predict_csv sample_np plain_world (Ok numeric_tail) initial_state))
  = Ok not_found_message.
Proof.
  assert (Hc : get_col TAIL_NUMBER_COL numeric_tail
               = Some (NumCol [Some 12345]))
    by (vm_compute; reflexivity).
  assert (HX : transform_data_for_inference sample_np numeric_tail
                 ["DISTANCE"] = Ok (distance_matrix numeric_tail))
    by (vm_compute; reflexivity).
  assert (Hy : constant_model (1, 1, 1) (distance_matrix numeric_tail)
               = Ok [(1, 1, 1)])
    by (vm_compute; reflexivity).
  split; [exact Hc |].
  apply (numeric_tail_numbers_not_found sample_np plain_world numeric_tail
           initial_state ["DISTANCE"] (distance_matrix numeric_tail)
           (constant_model (1, 1, 1)) [(1, 1, 1)] [Some 12345] "12345"
           Hc eq_refl HX eq_refl Hy).
  discriminate.
Defined.

(** After the two-row upload the lookup of N200 answers with a row that
    carries N200. *)
Lemma lookup_outcomes_witness :
  reachable sample_np two_flights_state /\
  exists r,
    get_flight_info "N200" two_flights_state = Ok (LookupInfo r) /\
    fi_TAIL_NUMBER r = CStr "N200".
Proof.
  assert (H : reachable sample_np two_flights_state)
    by (apply reachable_upload, reachable_initial).
  split; [exact H |].
  pose proof (lookup_outcomes sample_np two_flights_state "N200" H) as G.
  set (r := match get_flight_info "N200" two_flights_state with
            | Ok (LookupInfo r) => r
            | _ => same_tail_first
            end).
  assert (E : get_flight_info "N200" two_flights_state = Ok (LookupInfo r))
    by (vm_compute; reflexivity).
  rewrite E in G. destruct G as (row & _ & Hr & _).
  exists r. split; [exact E |]. rewrite Hr. reflexivity.
Defined.

(** The same five cells with the first two exchanged. *)
Lemma median_order_independent_witness :
  Permutation [Some 3; Some 1; Some 4; Some 2; None]
              [Some 1; Some 3; Some 4; Some 2; None] /\
  same_number (median sample_np [Some 3; Some 1; Some 4; Some 2; None])
              (median sample_np [Some 1; Some 3; Some 4; Some 2; None]).
Proof.
  assert (H : Permutation [Some 3; Some 1; Some 4; Some 2; None]
                          [Some 1; Some 3; Some 4; Some 2; None])
    by apply perm_swap.
  split; [exact H |].
  exact (proj1 (median_order_independent sample_np _ _ H)).
Defined.

(** The two-row upload has numeric time columns. *)
Lemma engineering_requirements_witness :
  engineer sample_np two_flights = Ok two_flights_engineered /\
  time_columns_usable two_flights.
Proof.
  assert (E : engineer sample_np two_flights = Ok two_flights_engineered)
    by (vm_compute; reflexivity).
  split; [exact E |].
  exact (engineering_requirements sample_np two_flights
           two_flights_engineered E).
Defined.
